(** * A7cam: preview-frame acquisition and tethered preview cache

  A shallow embedding of [camera_handler.py] and [image_preview.py],
  and the properties of the frame normalizer, the frame pipeline, the
  session state and the preview cache that are stated about them.

  Conventions.
  - Python [bytes] are [list byte]; Python [int]s are [Z]; Python [str]
    is [string]; [None]-or-value is [option].
  - Python lists updated by index are Rocq lists with stdpp's lookup
    [l !! i] and insert [<[i:=x]> l]; dictionaries are [gmap].
  - Statements that can raise are written in a state-and-exception
    monad in which the state survives a raised exception, as in Python. *)

From Stdlib Require Import ZArith Lia List Bool.
From Stdlib Require Import Strings.Byte Strings.Ascii Strings.String.
From stdpp Require Import base option list gmap strings fin_maps.

Local Open Scope Z_scope.

(** * Part I: the embedding of the source *)

(** ** Python byte strings *)

Module PyBytes.

Abbreviation bytes := (list byte).

(** [b.startswith(prefix)] *)
Fixpoint startswith (b prefix : bytes) : bool :=
  match prefix, b with
  | [], _ => true
  | _ :: _, [] => false
  | p :: prefix', x :: b' => Byte.eqb x p && startswith b' prefix'
  end.

(** [b.find(sub)] on the suffix that starts at offset [i]: the lowest
    index at which [sub] occurs, [-1] when there is none. *)
Fixpoint find_at (b sub : bytes) (i : Z) : Z :=
  match b with
  | [] => if startswith [] sub then i else -1
  | _ :: b' => if startswith b sub then i else find_at b' sub (i + 1)
  end.

Definition find (b sub : bytes) : Z := find_at b sub 0.

(** [b.rfind(sub)] on the suffix that starts at offset [i]: the highest
    index at which [sub] occurs, [-1] when there is none. *)
Fixpoint rfind_at (b sub : bytes) (i : Z) : Z :=
  match b with
  | [] => if startswith [] sub then i else -1
  | _ :: b' =>
      let r := rfind_at b' sub (i + 1) in
      if r =? -1 then (if startswith b sub then i else -1) else r
  end.

Definition rfind (b sub : bytes) : Z := rfind_at b sub 0.

(** [b[:n]] for a non-negative [n]. *)
Definition slice_to (b : bytes) (n : Z) : bytes := take (Z.to_nat n) b.

(** [b[m:n]] for non-negative [m], [n]. *)
Definition slice (b : bytes) (m n : Z) : bytes :=
  take (Z.to_nat n - Z.to_nat m)%nat (drop (Z.to_nat m) b).

Definition len (b : bytes) : Z := Z.of_nat (length b).

(** [sub] occurs in [b] at index [i]. *)
Definition occurs_at (b sub : bytes) (i : nat) : Prop :=
  startswith (drop i b) sub = true.

End PyBytes.

(** ** The frame normalizer: [CameraHandler._trim_to_eoi] *)

Module Jpeg.
Import PyBytes.

(** The values [file_data] can hold: what the driver hands back is a
    [bytes], a [bytearray], a [memoryview] or something else; only the
    truth value of the last kind matters to the code. *)
Inductive FileData : Type :=
| FDBytes (b : bytes)
| FDByteArray (b : bytes)
| FDMemoryview (b : bytes)
| FDOther (truthy : bool).

Definition SOI : bytes := [xff; xd8].
Definition EOI : bytes := [xff; xd9].

(** [_trim_to_eoi] on a byte buffer (after the [isinstance] test). *)
Definition trim_bytes (file_data : bytes) : option bytes :=
  if len file_data <? 4 then None
  else if negb (startswith file_data SOI) then None
  else
    let eoi_idx := rfind file_data EOI in
    if (eoi_idx =? -1) || (eoi_idx <? 2) then None
    else Some (slice_to file_data (eoi_idx + 2)).

Definition _trim_to_eoi (file_data : FileData) : option bytes :=
  match file_data with
  | FDBytes b | FDByteArray b => trim_bytes b
  | FDMemoryview _ | FDOther _ => None
  end.

End Jpeg.

(** ** [base64.b64encode]

    The standard-library encoder the frame pipeline calls (RFC 4648, with
    padding), and the matching strict decoder a consumer of the payload
    applies. *)

Module Base64.
Import PyBytes.

Local Open Scope N_scope.

Definition alphabet : list ascii :=
  list_ascii_of_string
    "ABCDEFGHIJKLMNOPQRSTUVWXYZabcdefghijklmnopqrstuvwxyz0123456789+/".

Definition pad : ascii := "="%char.

(** The character of a 6-bit value. *)
Definition b64char (n : N) : ascii := nth (N.to_nat n) alphabet pad.

(** The 6-bit value of a character of the alphabet. *)
Fixpoint index_in (l : list ascii) (c : ascii) (i : N) : option N :=
  match l with
  | [] => None
  | x :: l' => if Ascii.eqb x c then Some i else index_in l' c (i + 1)
  end.

Definition b64index (c : ascii) : option N := index_in alphabet c 0.

(** Three bytes make four characters; a last group of one or two bytes is
    padded with [=]. *)
Fixpoint b64encode (b : bytes) : string :=
  match b with
  | [] => EmptyString
  | [x] =>
      let x := Byte.to_N x in
      String (b64char (x / 4)) (String (b64char ((x mod 4) * 16))
        (String pad (String pad EmptyString)))
  | [x; y] =>
      let x := Byte.to_N x in
      let y := Byte.to_N y in
      String (b64char (x / 4)) (String (b64char ((x mod 4) * 16 + y / 16))
        (String (b64char ((y mod 16) * 4)) (String pad EmptyString)))
  | x :: y :: z :: rest =>
      let x := Byte.to_N x in
      let y := Byte.to_N y in
      let z := Byte.to_N z in
      String (b64char (x / 4)) (String (b64char ((x mod 4) * 16 + y / 16))
        (String (b64char ((y mod 16) * 4 + z / 64))
          (String (b64char (z mod 64)) (b64encode rest))))
  end.

Definition is_pad (c : ascii) : bool := Ascii.eqb c pad.

Definition byte1 (s1 s2 : N) : option byte := Byte.of_N (s1 * 4 + s2 / 16).
Definition byte2 (s2 s3 : N) : option byte := Byte.of_N ((s2 mod 16) * 16 + s3 / 4).
Definition byte3 (s3 s4 : N) : option byte := Byte.of_N ((s3 mod 4) * 64 + s4).

(** The strict decoder: groups of four characters of the alphabet, the
    last one possibly padded. *)
Fixpoint b64decode (s : string) : option bytes :=
  match s with
  | EmptyString => Some []
  | String c1 (String c2 (String c3 (String c4 rest))) =>
      s1 ← b64index c1; s2 ← b64index c2;
      if is_pad c3 then
        if is_pad c4 then
          match rest with
          | EmptyString => x ← byte1 s1 s2; Some [x]
          | _ => None
          end
        else None
      else
        s3 ← b64index c3;
        if is_pad c4 then
          match rest with
          | EmptyString => x ← byte1 s1 s2; y ← byte2 s2 s3; Some [x; y]
          | _ => None
          end
        else
          s4 ← b64index c4;
          x ← byte1 s1 s2; y ← byte2 s2 s3; z ← byte3 s3 s4;
          tl ← b64decode rest;
          Some (x :: y :: z :: tl)
  | _ => None
  end.

End Base64.

(** ** Python strings and POSIX paths

    The [str] methods and the [os.path] functions the two modules call, on
    ASCII strings and POSIX paths. *)

Module PyStr.
Local Open Scope string_scope.

(** [sub in s] *)
Fixpoint contains (s sub : string) : bool :=
  if String.prefix sub s then true
  else match s with
       | EmptyString => false
       | String _ s' => contains s' sub
       end.

Definition lower_char (c : ascii) : ascii :=
  let n := nat_of_ascii c in
  if (65 <=? n)%nat && (n <=? 90)%nat then ascii_of_nat (n + 32) else c.

Definition upper_char (c : ascii) : ascii :=
  let n := nat_of_ascii c in
  if (97 <=? n)%nat && (n <=? 122)%nat then ascii_of_nat (n - 32) else c.

(** [s.lower()], [s.upper()] *)
Fixpoint lower (s : string) : string :=
  match s with
  | EmptyString => EmptyString
  | String c s' => String (lower_char c) (lower s')
  end.

Fixpoint upper (s : string) : string :=
  match s with
  | EmptyString => EmptyString
  | String c s' => String (upper_char c) (upper s')
  end.

(** [s.startswith(p)], [s.endswith(p)] *)
Definition startswith (s p : string) : bool := String.prefix p s.

Definition rev_string (s : string) : string :=
  string_of_list_ascii (rev (list_ascii_of_string s)).

Definition endswith (s p : string) : bool :=
  String.prefix (rev_string p) (rev_string s).

(** [s[n:]] and [s[:n]] for a natural [n]. *)
Fixpoint drop_str (n : nat) (s : string) : string :=
  match n, s with
  | O, _ => s
  | S n', String _ s' => drop_str n' s'
  | S _, EmptyString => EmptyString
  end.

Fixpoint take_str (n : nat) (s : string) : string :=
  match n, s with
  | O, _ => EmptyString
  | S n', String c s' => String c (take_str n' s')
  | S _, EmptyString => EmptyString
  end.

(** [s.rfind(c)] for a one-character [c], from offset [i]: [None] is
    Python's [-1]. *)
Fixpoint rfind_char_at (s : string) (c : ascii) (i : nat) : option nat :=
  match s with
  | EmptyString => None
  | String x s' =>
      match rfind_char_at s' c (S i) with
      | Some r => Some r
      | None => if Ascii.eqb x c then Some i else None
      end
  end.

Definition rfind_char (s : string) (c : ascii) : option nat := rfind_char_at s c 0.

(** [s.rstrip('/')] *)
Definition rstrip_slash (s : string) : string :=
  rev_string
    ((fix strip (r : string) : string :=
        match r with
        | String "/"%char r' => strip r'
        | _ => r
        end) (rev_string s)).

Fixpoint all_slashes (s : string) : bool :=
  match s with
  | EmptyString => true
  | String c s' => Ascii.eqb c "/"%char && all_slashes s'
  end.

Definition is_empty (s : string) : bool :=
  match s with EmptyString => true | _ => false end.

(** The index that follows the last [/] (0 when there is none). *)
Definition after_sep (p : string) : nat :=
  match rfind_char p "/"%char with
  | Some i => S i
  | None => 0
  end.

(** [os.path.basename], [os.path.dirname] *)
Definition basename (p : string) : string := drop_str (after_sep p) p.

Definition dirname (p : string) : string :=
  let head := take_str (after_sep p) p in
  if negb (is_empty head) && negb (all_slashes head) then rstrip_slash head else head.

(** [os.path.join(a, b)] *)
Definition join (a b : string) : string :=
  if startswith b "/" then b
  else if is_empty a || endswith a "/" then a ++ b
  else a ++ "/" ++ b.

(** The scan of [splitext] over the leading dots of the file name:
    [n] characters remain before the last dot. *)
Fixpoint only_dots (n : nat) (s : string) : bool :=
  match n, s with
  | O, _ => true
  | S n', String c s' => Ascii.eqb c "."%char && only_dots n' s'
  | S _, EmptyString => true
  end.

(** [os.path.splitext]: the extension starts at the last dot of the file
    name, unless only dots precede it there. *)
Definition splitext (p : string) : string * string :=
  match rfind_char p "."%char with
  | None => (p, EmptyString)
  | Some dot =>
      let file := after_sep p in
      if (file <=? dot)%nat then
        if only_dots (dot - file) (drop_str file p) then (p, EmptyString)
        else (take_str dot p, drop_str dot p)
      else (p, EmptyString)
  end.

End PyStr.

(** ** Statements that can raise

    A Python statement run in a state [S] either returns a value or raises
    an exception; the state it has reached survives in both cases. *)

Module Py.

(** A raised exception: what [str(e)] gives and its [code] attribute, if
    it has one. *)
Record PyExc : Type := mkExc { exc_str : string; exc_code : option Z }.

(** The result of a call into foreign code. *)
Inductive Outcome (A : Type) : Type :=
| Returns (a : A)
| Raises (e : PyExc).
Arguments Returns {A} a.
Arguments Raises {A} e.

Definition M (S A : Type) : Type := S -> (PyExc + A) * S.

Definition ret {S A} (a : A) : M S A := fun s => (inr a, s).

Definition bind {S A B} (c : M S A) (k : A -> M S B) : M S B :=
  fun s =>
    match c s with
    | (inr a, s') => k a s'
    | (inl e, s') => (inl e, s')
    end.

Definition raise {S A} (e : PyExc) : M S A := fun s => (inl e, s).

(** [try: c  except Exception as e: h e] *)
Definition try_except {S A} (c : M S A) (h : PyExc -> M S A) : M S A :=
  fun s =>
    match c s with
    | (inr a, s') => (inr a, s')
    | (inl e, s') => h e s'
    end.

(** [try: c  except Exception: pass] *)
Definition try_pass {S} (c : M S unit) : M S unit :=
  try_except c (fun _ => ret tt).

(** Running [c] and looking at how it ended. *)
Definition caught {S A} (c : M S A) : M S (PyExc + A) :=
  fun s => let '(r, s') := c s in (inr r, s').

Definition get {S} : M S S := fun s => (inr s, s).
Definition gets {S A} (f : S -> A) : M S A := fun s => (inr (f s), s).
Definition modify {S} (f : S -> S) : M S unit := fun s => (inr tt, f s).

Definition of_outcome {S A} (o : Outcome A) : M S A :=
  match o with
  | Returns a => ret a
  | Raises e => raise e
  end.

Definition when {S} (b : bool) (c : M S unit) : M S unit :=
  if b then c else ret tt.

(** [for x in l: body x] *)
Fixpoint for_each {S A} (l : list A) (body : A -> M S unit) : M S unit :=
  match l with
  | [] => ret tt
  | x :: l' => bind (body x) (fun _ => for_each l' body)
  end.

(** [c] never raises. *)
Definition no_raise {S A} (c : M S A) : Prop :=
  forall s, exists a s', c s = (inr a, s').

Definition IndexError : PyExc := mkExc "pop from empty list" None.

End Py.

Declare Scope py_scope.
Delimit Scope py_scope with py.
Notation "x <- c ;; k" := (Py.bind c (fun x => k))
  (at level 100, c at next level, right associativity) : py_scope.
Notation "c ;;; k" := (Py.bind c (fun _ => k))
  (at level 100, right associativity) : py_scope.

(** ** The frame acquisition engine: [camera_handler.py] *)

Module CameraHandler.
Import Py PyBytes PyStr Jpeg.
Local Open Scope string_scope.
Local Open Scope Z_scope.
Local Open Scope py_scope.

Definition ORIENTATION_NORMAL : Z := 1.
Definition ORIENTATION_180 : Z := 3.
Definition ORIENTATION_270 : Z := 6.
Definition ORIENTATION_90 : Z := 8.

(** Decoded images live in numpy; the model keeps a handle. *)
Inductive ndarray : Type := NdArray (id : nat).

Inductive RotateCode : Type :=
| ROTATE_180
| ROTATE_90_COUNTERCLOCKWISE
| ROTATE_90_CLOCKWISE.

Inductive EventType : Type :=
| GP_EVENT_TIMEOUT
| GP_EVENT_FILE_ADDED
| GP_EVENT_OTHER.

(** The payload of an event: an object with [folder] and [name]
    attributes ([None] for an attribute that is missing), or a tuple or
    list, or anything else. *)
Inductive EventData : Type :=
| DataAttrs (folder name : option string)
| DataTuple (items : list (option string))
| DataOpaque.

(** What [wait_for_event] returns: a tuple or list of at least two items,
    or anything else. *)
Inductive EventValue : Type :=
| EvTuple (event_type : EventType) (event_data : EventData)
| EvOther.

(** The calls that leave the handler, in the order they are made. *)
Inductive Call : Type :=
| CallTime
| CallSleep (ms : Z)
| CallNewContext
| CallNewCamera
| CallInit
| CallGetSummary
| CallWaitForEvent
| CallCapturePreview
| CallFileGetData
| CallMakedirs (path : string)
| CallFileGet (folder : option string) (name : string)
| CallFileSave (path : string)
| CallTetherCallback (path filetype : string)
| CallDisconnectCallback (message : string)
| CallCameraExit
| CallCameraExitMethod
| CallUnref (func_name : string).

(** The device, the driver and the libraries around the handler. An
    answer depends on the number of calls made before it. At a poll the
    driver holds finitely many events: [wait_for_event] lists what its
    successive calls answer, and once the list is used up it answers
    [GP_EVENT_TIMEOUT]. Times are in milliseconds. *)
Record Driver : Type := mkDriver {
  time_time : nat -> Z;
  new_context : nat -> Outcome nat;
  new_camera : nat -> Outcome nat;
  camera_init : nat -> Outcome unit;
  get_summary : nat -> Outcome (list string);
  wait_for_event : nat -> list (Outcome EventValue);
  capture_preview : nat -> Outcome nat;
  file_get_data : nat -> Outcome FileData;
  os_makedirs : nat -> Outcome unit;
  camera_file_get : nat -> Outcome unit;
  file_save : nat -> Outcome unit;
  tether_callback_result : nat -> Outcome unit;
  disconnect_callback_result : nat -> Outcome unit;
  camera_exit : nat -> Outcome unit;
  camera_exit_method : nat -> Outcome unit;
  has_unref : string -> bool;
  unref : nat -> Outcome unit;
  cv2_imdecode : bytes -> Outcome (option ndarray);
  cv2_rotate : ndarray -> RotateCode -> Outcome ndarray;
  cv2_imencode : ndarray -> Outcome (bool * bytes)
}.

(** The handler ([CameraHandler]) and the log of its outgoing calls. *)
Record State : Type := mkState {
  camera : option nat;
  context : option nat;
  is_streaming : bool;
  lost_device : bool;
  orientation : Z;
  _io_error_counter : Z;
  _io_error_threshold : Z;
  _retry_delays : list Z;
  _last_corrupt_frame_log : Z;
  _consecutive_corrupt_frames : Z;
  _consecutive_corrupt_threshold : Z;
  _min_frame_interval : Z;
  _last_capture_ts : Z;
  _tether_download_dir : string;
  _tether_callback : option nat;
  _tether_running : bool;
  _pending_downloads : option (list (option string * string));
  _disconnect_callback : option nat;
  calls : list Call
}.

Definition upd_camera (v : option nat) (s : State) : State :=
  mkState v (context s) (is_streaming s) (lost_device s) (orientation s)
    (_io_error_counter s) (_io_error_threshold s) (_retry_delays s)
    (_last_corrupt_frame_log s) (_consecutive_corrupt_frames s)
    (_consecutive_corrupt_threshold s) (_min_frame_interval s)
    (_last_capture_ts s) (_tether_download_dir s) (_tether_callback s)
    (_tether_running s) (_pending_downloads s) (_disconnect_callback s)
    (calls s).

Definition upd_context (v : option nat) (s : State) : State :=
  mkState (camera s) v (is_streaming s) (lost_device s) (orientation s)
    (_io_error_counter s) (_io_error_threshold s) (_retry_delays s)
    (_last_corrupt_frame_log s) (_consecutive_corrupt_frames s)
    (_consecutive_corrupt_threshold s) (_min_frame_interval s)
    (_last_capture_ts s) (_tether_download_dir s) (_tether_callback s)
    (_tether_running s) (_pending_downloads s) (_disconnect_callback s)
    (calls s).

Definition upd_is_streaming (v : bool) (s : State) : State :=
  mkState (camera s) (context s) v (lost_device s) (orientation s)
    (_io_error_counter s) (_io_error_threshold s) (_retry_delays s)
    (_last_corrupt_frame_log s) (_consecutive_corrupt_frames s)
    (_consecutive_corrupt_threshold s) (_min_frame_interval s)
    (_last_capture_ts s) (_tether_download_dir s) (_tether_callback s)
    (_tether_running s) (_pending_downloads s) (_disconnect_callback s)
    (calls s).

Definition upd_lost_device (v : bool) (s : State) : State :=
  mkState (camera s) (context s) (is_streaming s) v (orientation s)
    (_io_error_counter s) (_io_error_threshold s) (_retry_delays s)
    (_last_corrupt_frame_log s) (_consecutive_corrupt_frames s)
    (_consecutive_corrupt_threshold s) (_min_frame_interval s)
    (_last_capture_ts s) (_tether_download_dir s) (_tether_callback s)
    (_tether_running s) (_pending_downloads s) (_disconnect_callback s)
    (calls s).

Definition upd_orientation (v : Z) (s : State) : State :=
  mkState (camera s) (context s) (is_streaming s) (lost_device s) v
    (_io_error_counter s) (_io_error_threshold s) (_retry_delays s)
    (_last_corrupt_frame_log s) (_consecutive_corrupt_frames s)
    (_consecutive_corrupt_threshold s) (_min_frame_interval s)
    (_last_capture_ts s) (_tether_download_dir s) (_tether_callback s)
    (_tether_running s) (_pending_downloads s) (_disconnect_callback s)
    (calls s).

Definition upd_io_error_counter (v : Z) (s : State) : State :=
  mkState (camera s) (context s) (is_streaming s) (lost_device s)
    (orientation s) v (_io_error_threshold s) (_retry_delays s)
    (_last_corrupt_frame_log s) (_consecutive_corrupt_frames s)
    (_consecutive_corrupt_threshold s) (_min_frame_interval s)
    (_last_capture_ts s) (_tether_download_dir s) (_tether_callback s)
    (_tether_running s) (_pending_downloads s) (_disconnect_callback s)
    (calls s).

Definition upd_last_corrupt_frame_log (v : Z) (s : State) : State :=
  mkState (camera s) (context s) (is_streaming s) (lost_device s)
    (orientation s) (_io_error_counter s) (_io_error_threshold s)
    (_retry_delays s) v (_consecutive_corrupt_frames s)
    (_consecutive_corrupt_threshold s) (_min_frame_interval s)
    (_last_capture_ts s) (_tether_download_dir s) (_tether_callback s)
    (_tether_running s) (_pending_downloads s) (_disconnect_callback s)
    (calls s).

Definition upd_consecutive_corrupt_frames (v : Z) (s : State) : State :=
  mkState (camera s) (context s) (is_streaming s) (lost_device s)
    (orientation s) (_io_error_counter s) (_io_error_threshold s)
    (_retry_delays s) (_last_corrupt_frame_log s) v
    (_consecutive_corrupt_threshold s) (_min_frame_interval s)
    (_last_capture_ts s) (_tether_download_dir s) (_tether_callback s)
    (_tether_running s) (_pending_downloads s) (_disconnect_callback s)
    (calls s).

Definition upd_last_capture_ts (v : Z) (s : State) : State :=
  mkState (camera s) (context s) (is_streaming s) (lost_device s)
    (orientation s) (_io_error_counter s) (_io_error_threshold s)
    (_retry_delays s) (_last_corrupt_frame_log s)
    (_consecutive_corrupt_frames s) (_consecutive_corrupt_threshold s)
    (_min_frame_interval s) v (_tether_download_dir s) (_tether_callback s)
    (_tether_running s) (_pending_downloads s) (_disconnect_callback s)
    (calls s).

Definition upd_tether_callback (v : option nat) (s : State) : State :=
  mkState (camera s) (context s) (is_streaming s) (lost_device s)
    (orientation s) (_io_error_counter s) (_io_error_threshold s)
    (_retry_delays s) (_last_corrupt_frame_log s)
    (_consecutive_corrupt_frames s) (_consecutive_corrupt_threshold s)
    (_min_frame_interval s) (_last_capture_ts s) (_tether_download_dir s) v
    (_tether_running s) (_pending_downloads s) (_disconnect_callback s)
    (calls s).

Definition upd_tether_running (v : bool) (s : State) : State :=
  mkState (camera s) (context s) (is_streaming s) (lost_device s)
    (orientation s) (_io_error_counter s) (_io_error_threshold s)
    (_retry_delays s) (_last_corrupt_frame_log s)
    (_consecutive_corrupt_frames s) (_consecutive_corrupt_threshold s)
    (_min_frame_interval s) (_last_capture_ts s) (_tether_download_dir s)
    (_tether_callback s) v (_pending_downloads s) (_disconnect_callback s)
    (calls s).

Definition upd_pending_downloads (v : option (list (option string * string))) (s : State) : State :=
  mkState (camera s) (context s) (is_streaming s) (lost_device s)
    (orientation s) (_io_error_counter s) (_io_error_threshold s)
    (_retry_delays s) (_last_corrupt_frame_log s)
    (_consecutive_corrupt_frames s) (_consecutive_corrupt_threshold s)
    (_min_frame_interval s) (_last_capture_ts s) (_tether_download_dir s)
    (_tether_callback s) (_tether_running s) v (_disconnect_callback s)
    (calls s).

Definition upd_disconnect_callback (v : option nat) (s : State) : State :=
  mkState (camera s) (context s) (is_streaming s) (lost_device s)
    (orientation s) (_io_error_counter s) (_io_error_threshold s)
    (_retry_delays s) (_last_corrupt_frame_log s)
    (_consecutive_corrupt_frames s) (_consecutive_corrupt_threshold s)
    (_min_frame_interval s) (_last_capture_ts s) (_tether_download_dir s)
    (_tether_callback s) (_tether_running s) (_pending_downloads s) v
    (calls s).

Definition upd_calls (v : list Call) (s : State) : State :=
  mkState (camera s) (context s) (is_streaming s) (lost_device s)
    (orientation s) (_io_error_counter s) (_io_error_threshold s)
    (_retry_delays s) (_last_corrupt_frame_log s)
    (_consecutive_corrupt_frames s) (_consecutive_corrupt_threshold s)
    (_min_frame_interval s) (_last_capture_ts s) (_tether_download_dir s)
    (_tether_callback s) (_tether_running s) (_pending_downloads s)
    (_disconnect_callback s) v.

(** [CameraHandler()] *)
Definition init : State :=
  mkState None None false false ORIENTATION_NORMAL 0 5 [0; 100; 500] 0 0 5 30 0
    "./downloads" None false None None [].

Definition data_uri_prefix : string := "data:image/jpeg;base64,".

(** The truth value of a string-or-[None]. *)
Definition truthy (o : option string) : bool :=
  match o with
  | Some (String _ _) => true
  | _ => false
  end.

(** [a or b] *)
Definition or_else (a b : option string) : option string :=
  if truthy a then a else b.

(** The truth value of what the driver returned as frame data. *)
Definition truthy_data (file_data : FileData) : bool :=
  match file_data with
  | FDBytes b | FDByteArray b | FDMemoryview b => negb (bool_decide (b = []))
  | FDOther t => t
  end.

(** The three tests of the error classification. *)
Definition is_io_busy (e : PyExc) : bool :=
  contains (exc_str e) "-110" || contains (exc_str e) "I/O in progress"
  || bool_decide (exc_code e = Some (-110)).

Definition is_usb_lost (err_str : string) : bool :=
  contains err_str "-52" || contains err_str "Could not find the requested device".

Definition is_fatal (err_str : string) : bool :=
  contains err_str "-1" || contains err_str "Unspecified error".

Section Handler.
Variable drv : Driver.

(** A call that leaves the handler: it is logged, and the driver answers
    from the number of calls made before. *)
Definition call {A} (c : Call) (answer : nat -> Outcome A) : M State A :=
  fun s =>
    let s' := upd_calls (calls s ++ [c])%list s in
    match answer (length (calls s)) with
    | Returns a => (inr a, s')
    | Raises e => (inl e, s')
    end.

Definition time_now : M State Z :=
  call CallTime (fun t => Returns (time_time drv t)).

(** [time.sleep(ms)]: a negative length is a [ValueError]. *)
Definition sleep (ms : Z) : M State unit :=
  if ms <? 0 then raise (mkExc "sleep length must be non-negative" None)
  else call (CallSleep ms) (fun _ => Returns tt).

(** *** Session *)

Definition connect : M State (bool * string) :=
  try_except
    (ctx <- call CallNewContext (new_context drv) ;;
     modify (upd_context (Some ctx)) ;;;
     cam <- call CallNewCamera (new_camera drv) ;;
     modify (upd_camera (Some cam)) ;;;
     call CallInit (camera_init drv) ;;;
     modify (upd_lost_device false) ;;;
     lines <- call CallGetSummary (get_summary drv) ;;
     match lines with
     | [] => raise (mkExc "list index out of range" None)
     | summary :: _ => ret (true, "Connected: " ++ summary)
     end)
    (fun e =>
       modify (upd_lost_device true) ;;;
       ret (false, exc_str e)).

Definition start_tether (callback : option nat) : M State unit :=
  modify (upd_tether_callback callback) ;;;
  modify (upd_tether_running true).

Definition stop_tether : M State unit := modify (upd_tether_running false).

Definition set_tether_callback (callback : option nat) : M State unit :=
  modify (upd_tether_callback callback).

Definition set_disconnect_callback (callback : option nat) : M State unit :=
  modify (upd_disconnect_callback callback).

Definition set_orientation (orientation_code : Z) : M State unit :=
  if (orientation_code =? ORIENTATION_NORMAL) || (orientation_code =? ORIENTATION_90)
     || (orientation_code =? ORIENTATION_180) || (orientation_code =? ORIENTATION_270)
  then modify (upd_orientation orientation_code)
  else ret tt.

Definition _safe_unref (func_name : string) : M State unit :=
  try_pass
    (if has_unref drv func_name then call (CallUnref func_name) (unref drv)
     else ret tt).

Definition release : M State unit :=
  try_pass stop_tether ;;;
  s <- get ;;
  match camera s with
  | Some _ =>
      try_except (call CallCameraExit (camera_exit drv))
                 (fun _ => try_pass (call CallCameraExitMethod (camera_exit_method drv))) ;;;
      _safe_unref "gp_camera_unref"
  | None => ret tt
  end ;;;
  s <- get ;;
  match context s with
  | Some _ => _safe_unref "gp_context_unref"
  | None => ret tt
  end ;;;
  modify (upd_camera None) ;;;
  modify (upd_context None) ;;;
  modify (upd_is_streaming false) ;;;
  modify (upd_lost_device false) ;;;
  modify (upd_orientation ORIENTATION_NORMAL) ;;;
  modify (upd_io_error_counter 0) ;;;
  modify (upd_last_capture_ts 0).

(** The guarded call of the disconnect callback. *)
Definition notify_disconnect (err_str : string) : M State unit :=
  try_pass
    (s <- get ;;
     match _disconnect_callback s with
     | Some _ => call (CallDisconnectCallback err_str) (disconnect_callback_result drv)
     | None => ret tt
     end).

(** *** Event drain and downloads *)

Definition queue_download (folder : option string) (name : string) : M State unit :=
  modify (fun s =>
            upd_pending_downloads
              (Some (match _pending_downloads s with
                     | Some l => l
                     | None => []
                     end ++ [(folder, name)])%list) s).

Definition file_added (event_data : EventData) : M State unit :=
  let folder := match event_data with DataAttrs f _ => f | _ => None end in
  let filename := match event_data with DataAttrs _ n => n | _ => None end in
  let found :=
    if negb (truthy folder) || negb (truthy filename) then
      match event_data with
      | DataTuple (item0 :: item1 :: _) => (or_else folder item0, or_else filename item1)
      | _ => (folder, filename)
      end
    else (folder, filename) in
  match snd found with
  | Some (String c name) => queue_download (fst found) (String c name)
  | _ => ret tt
  end.

(** The [while True] loop of the drain over what the driver holds. *)
Fixpoint drain_events (pending : list (Outcome EventValue)) : M State unit :=
  match pending with
  | [] => call CallWaitForEvent (fun _ => Returns tt)
  | answer :: rest =>
      evt <- call CallWaitForEvent (fun _ => answer) ;;
      match evt with
      | EvOther => ret tt
      | EvTuple GP_EVENT_TIMEOUT _ => ret tt
      | EvTuple GP_EVENT_FILE_ADDED event_data =>
          file_added event_data ;;;
          drain_events rest
      | EvTuple GP_EVENT_OTHER _ => drain_events rest
      end
  end.

Definition _poll_events_unlocked : M State unit :=
  s <- get ;;
  if negb (_tether_running s) then ret tt
  else
    match camera s with
    | None => ret tt
    | Some _ => try_pass (drain_events (wait_for_event drv (length (calls s))))
    end.

Definition _download_file (folder : option string) (name : string) : M State (option string) :=
  s <- get ;;
  try_pass (call (CallMakedirs (_tether_download_dir s)) (os_makedirs drv)) ;;;
  let target_path := join (_tether_download_dir s) name in
  try_except
    (call (CallFileGet folder name) (camera_file_get drv) ;;;
     call (CallFileSave target_path) (file_save drv) ;;;
     ret (Some target_path))
    (fun _ => ret None).

Definition _process_pending_downloads : M State unit :=
  s <- get ;;
  match _pending_downloads s with
  | None => ret tt
  | Some [] => ret tt
  | Some downloads =>
      modify (upd_pending_downloads (Some [])) ;;;
      for_each downloads
        (fun item =>
           let folder := fst item in
           let name := snd item in
           let ext := lower (snd (splitext name)) in
           let filetype :=
             if existsb (String.eqb ext) [".arw"; ".nef"; ".cr2"; ".rw2"; ".raf"]
             then "arw" else "jpg" in
           path <- _download_file folder name ;;
           s <- get ;;
           match path, _tether_callback s with
           | Some p, Some _ =>
               try_pass (call (CallTetherCallback p filetype) (tether_callback_result drv))
           | _, _ => ret tt
           end)
  end.

(** *** Capture with retries *)

Definition _handle_capture_error (error : PyExc) (attempt max_attempts : Z) : M State bool :=
  let err_str := exc_str error in
  if is_io_busy error then
    modify (fun s => upd_io_error_counter (_io_error_counter s + 1) s) ;;;
    ret true
  else if is_usb_lost err_str then
    modify (upd_lost_device true) ;;;
    try_pass release ;;;
    notify_disconnect err_str ;;;
    ret false
  else if is_fatal err_str then
    modify (upd_lost_device true) ;;;
    try_pass release ;;;
    notify_disconnect err_str ;;;
    ret false
  else ret false.

(** The body of the [try] of one attempt. *)
Definition capture_attempt : M State FileData :=
  now <- time_now ;;
  s <- get ;;
  let elapsed := now - _last_capture_ts s in
  when (elapsed <? _min_frame_interval s) (sleep (_min_frame_interval s - elapsed)) ;;;
  _poll_events_unlocked ;;;
  camera_file <- call CallCapturePreview (capture_preview drv) ;;
  file_data <- call CallFileGetData (file_get_data drv) ;;
  let file_data :=
    match file_data with
    | FDMemoryview b => FDBytes b
    | _ => file_data
    end in
  _process_pending_downloads ;;;
  modify (upd_io_error_counter 0) ;;;
  t <- time_now ;;
  modify (upd_last_capture_ts t) ;;;
  ret file_data.

(** The code after the loop. *)
Definition exceeded_retries : M State (option FileData) :=
  s <- get ;;
  when (_io_error_counter s >=? _io_error_threshold s) (modify (upd_lost_device true)) ;;;
  ret None.

(** The loop over [enumerate(self._retry_delays, start=1)]. *)
Fixpoint retry_loop (delays : list Z) (attempt max_attempts : Z) : M State (option FileData) :=
  match delays with
  | [] => exceeded_retries
  | delay :: rest =>
      r <- caught capture_attempt ;;
      match r with
      | inr file_data => ret (Some file_data)
      | inl e =>
          again <- _handle_capture_error e attempt max_attempts ;;
          if again then
            sleep delay ;;;
            retry_loop rest (attempt + 1) max_attempts
          else ret None
      end
  end.

Definition _capture_preview_with_retry : M State (option FileData) :=
  s <- get ;;
  retry_loop (_retry_delays s) 1 (Z.of_nat (length (_retry_delays s))).

(** *** Frame processing *)

Definition _apply_rotation (img : ndarray) : M State ndarray :=
  s <- get ;;
  if orientation s =? ORIENTATION_180 then of_outcome (cv2_rotate drv img ROTATE_180)
  else if orientation s =? ORIENTATION_270 then
    of_outcome (cv2_rotate drv img ROTATE_90_COUNTERCLOCKWISE)
  else if orientation s =? ORIENTATION_90 then
    of_outcome (cv2_rotate drv img ROTATE_90_CLOCKWISE)
  else ret img.

Definition count_corrupt_frame : M State unit :=
  modify (fun s => upd_io_error_counter (_io_error_counter s + 1) s) ;;;
  modify (fun s => upd_consecutive_corrupt_frames (_consecutive_corrupt_frames s + 1) s).

Definition reset_error_counters : M State unit :=
  modify (upd_io_error_counter 0) ;;;
  modify (upd_consecutive_corrupt_frames 0).

(** The body of the [try] of [_process_frame_to_base64]. *)
Definition process_frame (file_data : FileData) : M State (option string) :=
  match _trim_to_eoi file_data with
  | None | Some [] =>
      count_corrupt_frame ;;;
      now <- time_now ;;
      s <- get ;;
      when (now - _last_corrupt_frame_log s >? 1000) (modify (upd_last_corrupt_frame_log now)) ;;;
      ret None
  | Some normalized =>
      s <- get ;;
      if orientation s =? ORIENTATION_NORMAL then
        reset_error_counters ;;;
        ret (Some (data_uri_prefix ++ Base64.b64encode normalized))
      else
        img <- of_outcome (cv2_imdecode drv normalized) ;;
        match img with
        | None =>
            count_corrupt_frame ;;;
            ret None
        | Some img =>
            img <- _apply_rotation img ;;
            encoded <- of_outcome (cv2_imencode drv img) ;;
            if negb (fst encoded) then ret None
            else
              reset_error_counters ;;;
              ret (Some (data_uri_prefix ++ Base64.b64encode (snd encoded)))
        end
  end.

Definition _process_frame_to_base64 (file_data : FileData) : M State (option string) :=
  try_except (process_frame file_data)
    (fun e =>
       let err_str := exc_str e in
       if is_usb_lost err_str then
         modify (upd_lost_device true) ;;;
         try_pass release ;;;
         notify_disconnect err_str ;;;
         ret None
       else if is_fatal err_str then
         modify (upd_lost_device true) ;;;
         try_pass release ;;;
         notify_disconnect err_str ;;;
         ret None
       else ret None).

Definition get_frame_base64 : M State (option string) :=
  s <- get ;;
  match camera s with
  | None => ret None
  | Some _ =>
      file_data <- _capture_preview_with_retry ;;
      match file_data with
      | None => ret None
      | Some file_data =>
          if negb (truthy_data file_data) then ret None
          else _process_frame_to_base64 file_data
      end
  end.

End Handler.

(** The calls of a log that reach the device for a capture or a download. *)
Definition is_capture_or_download (c : Call) : bool :=
  match c with
  | CallCapturePreview | CallFileGetData | CallFileGet _ _ => true
  | _ => false
  end.

End CameraHandler.


(** ** The device watcher: [start_watch], [stop_watch], [_watch_loop] *)

Module Watcher.
Import Py PyStr CameraHandler.
Local Open Scope string_scope.
Local Open Scope Z_scope.
Local Open Scope py_scope.

(** The handler together with the attributes [start_watch] gives it (the
    stop event is read as set or not set; without the attribute the loop
    takes a fresh event, which is not set), and the log of the calls of the
    watch callback. *)
Record Watch : Type := mkWatch {
  handler : State;
  _watch_callback : option nat;
  _watch_running : bool;
  _watch_stop_event : bool;
  watch_calls : list (bool * string)
}.

Definition set_handler (v : State) (w : Watch) : Watch :=
  mkWatch v (_watch_callback w) (_watch_running w) (_watch_stop_event w) (watch_calls w).

Definition set_watch_callback (v : option nat) (w : Watch) : Watch :=
  mkWatch (handler w) v (_watch_running w) (_watch_stop_event w) (watch_calls w).

Definition set_watch_running (v : bool) (w : Watch) : Watch :=
  mkWatch (handler w) (_watch_callback w) v (_watch_stop_event w) (watch_calls w).

Definition set_watch_stop_event (v : bool) (w : Watch) : Watch :=
  mkWatch (handler w) (_watch_callback w) (_watch_running w) v (watch_calls w).

Definition set_watch_calls (v : list (bool * string)) (w : Watch) : Watch :=
  mkWatch (handler w) (_watch_callback w) (_watch_running w) (_watch_stop_event w) v.

(** A handler that no watcher has been started on. *)
Definition unwatched (s : State) : Watch := mkWatch s None false false [].

(** A method of the handler, run on the watched handler. *)
Definition lift {A} (c : M State A) : M Watch A :=
  fun w => let '(r, s') := c (handler w) in (r, set_handler s' w).

Section Watcher.
Variable drv : Driver.

(** What the watch callback answers, from the number of calls made to it
    before. *)
Variable watch_callback_result : nat -> Outcome unit.

Definition call_watch_callback (success : bool) (msg : string) : M Watch unit :=
  fun w =>
    let w' := set_watch_calls (watch_calls w ++ [(success, msg)])%list w in
    match watch_callback_result (length (watch_calls w)) with
    | Returns a => (inr a, w')
    | Raises e => (inl e, w')
    end.

(** The thread that [start_watch] starts runs [_watch_loop]; its
    iterations are taken one at a time. *)
Definition start_watch (callback : option nat) : M Watch unit :=
  w <- get ;;
  if _watch_running w then ret tt
  else
    modify (set_watch_callback callback) ;;;
    modify (set_watch_stop_event false) ;;;
    modify (set_watch_running true).

Definition stop_watch : M Watch unit :=
  w <- get ;;
  if _watch_running w then
    modify (set_watch_stop_event true) ;;;
    modify (set_watch_running false)
  else ret tt.

(** The body of the [while] loop. *)
Definition watch_iteration (poll_interval : Z) : M Watch unit :=
  try_except
    (w <- get ;;
     (if negb (bool_decide (is_Some (camera (handler w)))) || lost_device (handler w) then
        r <- lift (connect drv) ;;
        if fst r then
          try_pass
            (w <- get ;;
             match _watch_callback w with
             | Some _ => call_watch_callback (fst r) (snd r)
             | None => ret tt
             end) ;;;
          try_pass
            (w <- get ;;
             if negb (_tether_running (handler w)) then lift (start_tether None)
             else ret tt)
        else ret tt
      else ret tt) ;;;
     lift (sleep poll_interval))
    (fun _ => lift (sleep poll_interval)).

(** [n] turns of the loop, as long as the stop event is not set. *)
Fixpoint _watch_loop (n : nat) (poll_interval : Z) : M Watch unit :=
  match n with
  | O => ret tt
  | S n' =>
      w <- get ;;
      if _watch_stop_event w then ret tt
      else
        watch_iteration poll_interval ;;;
        _watch_loop n' poll_interval
  end.

End Watcher.

End Watcher.

(** ** The tethered preview cache: [image_preview.py] *)

Module ImagePreview.
Import Py PyBytes PyStr.
Local Open Scope string_scope.
Local Open Scope Z_scope.
Local Open Scope py_scope.

Definition RAW_EXTENSIONS : list string :=
  [".arw"; ".nef"; ".cr2"; ".cr3"; ".rw2"; ".raf"; ".orf"; ".dng"; ".pef"; ".srw"].
Definition JPEG_EXTENSIONS : list string := [".jpg"; ".jpeg"].

(** [ext in EXTENSIONS] *)
Definition ext_in (ext : string) (exts : list string) : bool :=
  existsb (String.eqb ext) exts.

Record CachedImage : Type := mkCachedImage {
  filepath : string;
  filename : string;
  timestamp : Z;
  is_raw : bool
}.

#[global] Instance CachedImage_eq_dec : EqDecision CachedImage.
Proof. solve_decision. Defined.

(** Images held by PIL and thumbnails held by rawpy are foreign objects;
    the model keeps a handle to them. *)
Inductive PilImage : Type := PilImg (id : nat).

Inductive Thumb : Type :=
| ThumbJpeg (data : bytes)
| ThumbBitmap (array : nat)
| ThumbOther.

Inductive Transpose : Type := FLIP_LEFT_RIGHT | FLIP_TOP_BOTTOM.

(** File-system calls that can fail for reasons outside the model. *)
Inductive IoOp : Type :=
| OpRename (src dst : string)
| OpRemove (path : string)
| OpWrite (path : string)
| OpMakedirs (path : string).

(** The libraries and the platform around the manager. Times are in
    milliseconds. *)
Record Env : Type := mkEnv {
  HAS_PIL : bool;
  HAS_RAWPY : bool;
  abspath : string -> string;
  getmtime : string -> Outcome Z;
  io_fails : IoOp -> option PyExc;
  pil_open : bytes -> Outcome PilImage;
  pil_exif_orientation : PilImage -> Outcome (option Z);
  pil_transpose : PilImage -> Transpose -> Outcome PilImage;
  pil_rotate : PilImage -> Z -> Outcome PilImage;
  pil_save_jpeg : PilImage -> Outcome bytes;
  rawpy_extract_thumb : bytes -> Outcome Thumb;
  pil_bitmap_to_jpeg : nat -> Outcome bytes
}.

(** Background work started by the manager and not run yet: the thread
    that extracts a RAW thumbnail, and the timer that clears a pending RAW
    entry once [due] is reached. *)
Inductive Task : Type :=
| ThreadProcessRaw (path : string)
| TimerClearPending (due : Z) (base_name : string).

(** The manager ([ImagePreviewManager]) together with what it acts on:
    the files and directories of durable storage, the clock, the log of
    preview-callback invocations and the started background tasks. *)
Record State : Type := mkState {
  download_dir : string;
  max_cache_size : Z;
  _cache : list CachedImage;
  _current_index : Z;
  _preview_callback : option nat;
  _pending_raw : gmap string (string * Z);
  _pair_timeout : Z;
  fs : gmap string bytes;
  dirs : gset string;
  clock : Z;
  shown : list (nat * CachedImage);
  tasks : list Task
}.

Definition set_cache (v : list CachedImage) (s : State) : State :=
  mkState (download_dir s) (max_cache_size s) v (_current_index s)
    (_preview_callback s) (_pending_raw s) (_pair_timeout s) (fs s) (dirs s)
    (clock s) (shown s) (tasks s).

Definition set_current_index (v : Z) (s : State) : State :=
  mkState (download_dir s) (max_cache_size s) (_cache s) v
    (_preview_callback s) (_pending_raw s) (_pair_timeout s) (fs s) (dirs s)
    (clock s) (shown s) (tasks s).

Definition set_preview_callback (v : option nat) (s : State) : State :=
  mkState (download_dir s) (max_cache_size s) (_cache s) (_current_index s)
    v (_pending_raw s) (_pair_timeout s) (fs s) (dirs s)
    (clock s) (shown s) (tasks s).

Definition set_pending_raw (v : gmap string (string * Z)) (s : State) : State :=
  mkState (download_dir s) (max_cache_size s) (_cache s) (_current_index s)
    (_preview_callback s) v (_pair_timeout s) (fs s) (dirs s)
    (clock s) (shown s) (tasks s).

Definition set_fs (v : gmap string bytes) (s : State) : State :=
  mkState (download_dir s) (max_cache_size s) (_cache s) (_current_index s)
    (_preview_callback s) (_pending_raw s) (_pair_timeout s) v (dirs s)
    (clock s) (shown s) (tasks s).

Definition set_dirs (v : gset string) (s : State) : State :=
  mkState (download_dir s) (max_cache_size s) (_cache s) (_current_index s)
    (_preview_callback s) (_pending_raw s) (_pair_timeout s) (fs s) v
    (clock s) (shown s) (tasks s).

Definition set_clock (v : Z) (s : State) : State :=
  mkState (download_dir s) (max_cache_size s) (_cache s) (_current_index s)
    (_preview_callback s) (_pending_raw s) (_pair_timeout s) (fs s) (dirs s)
    v (shown s) (tasks s).

Definition set_shown (v : list (nat * CachedImage)) (s : State) : State :=
  mkState (download_dir s) (max_cache_size s) (_cache s) (_current_index s)
    (_preview_callback s) (_pending_raw s) (_pair_timeout s) (fs s) (dirs s)
    (clock s) v (tasks s).

Definition set_tasks (v : list Task) (s : State) : State :=
  mkState (download_dir s) (max_cache_size s) (_cache s) (_current_index s)
    (_preview_callback s) (_pending_raw s) (_pair_timeout s) (fs s) (dirs s)
    (clock s) (shown s) v.

(** [ImagePreviewManager(download_dir, max_cache_size)] on a given disk. *)
Definition init (dir : string) (max : Z) (files : gmap string bytes)
    (folders : gset string) (now : Z) : State :=
  mkState dir max [] (-1) None ∅ 2000 files folders now [] [].

Definition len_cache (s : State) : Z := Z.of_nat (length (_cache s)).

(** [l[i]] with Python's negative indices; [None] is an [IndexError]. *)
Definition py_index {A} (l : list A) (i : Z) : option A :=
  if 0 <=? i then l !! Z.to_nat i
  else if - Z.of_nat (length l) <=? i then l !! Z.to_nat (Z.of_nat (length l) + i)
  else None.

Definition list_index_error : PyExc := mkExc "list index out of range" None.

(** [return self._cache[self._current_index]] *)
Definition return_current : M State (option CachedImage) :=
  s <- get ;;
  match py_index (_cache s) (_current_index s) with
  | Some c => ret (Some c)
  | None => raise list_index_error
  end.

(** [os.path.exists], [os.path.isfile] *)
Definition path_exists (s : State) (p : string) : bool :=
  bool_decide (is_Some (fs s !! p)) || bool_decide (p ∈ dirs s).

Definition isfile (s : State) (p : string) : bool :=
  bool_decide (is_Some (fs s !! p)).

Definition FileNotFoundError (p : string) : PyExc :=
  mkExc ("[Errno 2] No such file or directory: " ++ p) None.
Definition IsADirectoryError (p : string) : PyExc :=
  mkExc ("[Errno 21] Is a directory: " ++ p) None.
Definition SameFileError (p : string) : PyExc :=
  mkExc (p ++ " and " ++ p ++ " are the same file") None.

(** The first maximum of [max(jpegs, key=len)]. *)
Fixpoint max_by_len (best : bytes) (l : list bytes) : bytes :=
  match l with
  | [] => best
  | x :: l' => max_by_len (if (length best <? length x)%nat then x else best) l'
  end.

(** [data.find(sub, start)] *)
Definition find_from (data sub : bytes) (start : Z) : Z :=
  find_at (drop (Z.to_nat start) data) sub start.

(** The scan of the manual extraction: every SOI...EOI range of more than
    10000 bytes, left to right. Each round moves [start] forward, so
    [fuel] rounds with [fuel] above the length of [data] reach the end. *)
Fixpoint scan_jpegs (fuel : nat) (data : bytes) (start : Z) : list bytes :=
  match fuel with
  | O => []
  | S fuel' =>
      let soi := find_from data Jpeg.SOI start in
      if soi =? -1 then []
      else
        let eoi := find_from data Jpeg.EOI (soi + 2) in
        if eoi =? -1 then []
        else
          let jpeg_data := slice data soi (eoi + 2) in
          let rest := scan_jpegs fuel' data (eoi + 2) in
          if len jpeg_data >? 10000 then jpeg_data :: rest else rest
  end.

(** Insertion sort of the (path, name) pairs, in Python's tuple order. *)
Definition pair_leb (a b : string * string) : bool :=
  match String.compare (fst a) (fst b) with
  | Lt => true
  | Gt => false
  | Eq => String.leb (snd a) (snd b)
  end.

Fixpoint insert_sorted (x : string * string) (l : list (string * string)) :=
  match l with
  | [] => [x]
  | y :: l' => if pair_leb x y then x :: l else y :: insert_sorted x l'
  end.

Definition sort_pairs (l : list (string * string)) : list (string * string) :=
  fold_right insert_sorted [] l.

Section Manager.
Variable env : Env.

(** *** File system *)

Definition read_file (p : string) : M State bytes :=
  s <- get ;;
  match fs s !! p with
  | Some content => ret content
  | None => raise (FileNotFoundError p)
  end.

Definition write_file (p : string) (data : bytes) : M State unit :=
  match io_fails env (OpWrite p) with
  | Some e => raise e
  | None => modify (fun s => set_fs (<[p := data]> (fs s)) s)
  end.

(** [os.rename(src, dst)] *)
Definition rename (src dst : string) : M State unit :=
  match io_fails env (OpRename src dst) with
  | Some e => raise e
  | None =>
      s <- get ;;
      match fs s !! src with
      | Some content => modify (set_fs (<[dst := content]> (delete src (fs s))))
      | None =>
          if bool_decide (src ∈ dirs s)
          then modify (set_dirs ({[dst]} ∪ dirs s ∖ {[src]}))
          else raise (FileNotFoundError src)
      end
  end.

(** [os.remove(p)] *)
Definition remove (p : string) : M State unit :=
  match io_fails env (OpRemove p) with
  | Some e => raise e
  | None =>
      s <- get ;;
      match fs s !! p with
      | Some _ => modify (set_fs (delete p (fs s)))
      | None =>
          if bool_decide (p ∈ dirs s) then raise (IsADirectoryError p)
          else raise (FileNotFoundError p)
      end
  end.

(** [os.makedirs(d, exist_ok=True)] *)
Definition makedirs (d : string) : M State unit :=
  match io_fails env (OpMakedirs d) with
  | Some e => raise e
  | None => modify (fun s => set_dirs ({[d]} ∪ dirs s) s)
  end.

(** [os.listdir(d)]: the names of the files directly in [d]. *)
Definition listdir (d : string) : M State (list string) :=
  s <- get ;;
  if bool_decide (d ∈ dirs s) then
    ret (omap (fun kv : string * bytes =>
                 let name := basename (fst kv) in
                 if negb (is_empty name) && String.eqb (join d name) (fst kv)
                 then Some name else None)
              (map_to_list (fs s)))
  else raise (FileNotFoundError d).

(** [shutil.copy2(src, dst)] *)
Definition copy2 (src dst : string) : M State unit :=
  content <- read_file src ;;
  if String.eqb src dst then raise (SameFileError src)
  else write_file dst content.

(** [threading.Thread(...).start()], [threading.Timer(...).start()] *)
Definition spawn (t : Task) : M State unit :=
  modify (fun s => set_tasks (tasks s ++ [t])%list s).

(** *** Cache *)

(** [while len(self._cache) > self.max_cache_size: self._cache.pop(0)];
    [None] when [pop] meets the empty list. *)
Fixpoint pop_while_over (max : Z) (cache : list CachedImage) : option (list CachedImage) :=
  if Z.of_nat (length cache) >? max then
    match cache with
    | [] => None
    | _ :: rest => pop_while_over max rest
    end
  else Some cache.

Definition trim_cache : M State unit :=
  fun s =>
    match pop_while_over (max_cache_size s) (_cache s) with
    | Some c => (inr tt, set_cache c s)
    | None => (inl IndexError, set_cache [] s)
    end.

(** The guarded call of [self._preview_callback(cached)]; what the
    callback raises is caught and logged. *)
Definition notify (cached : CachedImage) : M State unit :=
  modify (fun s =>
            match _preview_callback s with
            | Some cb => set_shown (shown s ++ [(cb, cached)])%list s
            | None => s
            end).

Definition _add_to_cache (cached : CachedImage) : M State unit :=
  modify (fun s => set_cache (_cache s ++ [cached])%list s) ;;;
  trim_cache ;;;
  modify (fun s => set_current_index (len_cache s - 1) s) ;;;
  notify cached.

Definition _replace_or_add_cached (cached : CachedImage) : M State unit :=
  let base_name := fst (splitext (filename cached)) in
  s <- get ;;
  match list_find (fun entry => fst (splitext (filename entry)) = base_name) (_cache s) with
  | Some (idx, _) =>
      modify (fun s => set_cache (<[idx := cached]> (_cache s)) s) ;;;
      modify (set_current_index (Z.of_nat idx)) ;;;
      notify cached
  | None =>
      modify (fun s => set_cache (_cache s ++ [cached])%list s) ;;;
      trim_cache ;;;
      modify (fun s => set_current_index (len_cache s - 1) s) ;;;
      notify cached
  end.

Definition _load_jpeg_to_cache (fpath fname : string) : M State unit :=
  try_pass
    (let fpath := abspath env fpath in
     mtime <- of_outcome (getmtime env fpath) ;;
     let cached := mkCachedImage fpath fname mtime false in
     modify (fun s => set_cache (_cache s ++ [cached])%list s) ;;;
     modify (fun s => set_current_index (len_cache s - 1) s)).

Definition cleanup_download_folder : M State unit :=
  try_pass
    (s <- get ;;
     ok <- (if negb (path_exists s (download_dir s))
            then try_except (makedirs (download_dir s) ;;; ret true)
                            (fun _ => ret false)
            else ret true) ;;
     if negb ok then ret tt
     else
       names <- listdir (download_dir s) ;;
       s <- get ;;
       let jpeg_files :=
         omap (fun name : string =>
                 let fpath := join (download_dir s) name in
                 if isfile s fpath
                    && ext_in (lower (snd (splitext name))) JPEG_EXTENSIONS
                 then Some (fpath, name) else None) names in
       for_each (sort_pairs jpeg_files)
                (fun pn => _load_jpeg_to_cache (fst pn) (snd pn))).

(** *** Processing of downloaded files *)

Definition _safe_delete (p : string) : M State unit :=
  try_pass
    (s <- get ;;
     if path_exists s p then remove p else ret tt).

Fixpoint find_pair_in (s : State) (dir_path base_name : string) (exts : list string)
  : option string :=
  match exts with
  | [] => None
  | ext :: rest =>
      let jpeg_path := join dir_path (base_name ++ ext) in
      if path_exists s jpeg_path then Some jpeg_path
      else
        let jpeg_path := join dir_path (base_name ++ upper ext) in
        if path_exists s jpeg_path then Some jpeg_path
        else find_pair_in s dir_path base_name rest
  end.

Definition _find_jpeg_pair (s : State) (raw_path : string) : option string :=
  let base_name := fst (splitext (basename raw_path)) in
  let dir_path := dirname raw_path in
  find_pair_in s dir_path base_name JPEG_EXTENSIONS.

(** Chaining of PIL calls, any of which can raise. *)
Definition and_then {A B} (o : Outcome A) (k : A -> Outcome B) : Outcome B :=
  match o with
  | Returns a => k a
  | Raises e => Raises e
  end.

Definition _apply_exif_rotation (img : PilImage) : PilImage :=
  match pil_exif_orientation env img with
  | Raises _ => img
  | Returns None => img
  | Returns (Some orientation) =>
      let rotated :=
        if orientation =? 2 then pil_transpose env img FLIP_LEFT_RIGHT
        else if orientation =? 3 then pil_rotate env img 180
        else if orientation =? 4 then pil_transpose env img FLIP_TOP_BOTTOM
        else if orientation =? 5 then
          and_then (pil_transpose env img FLIP_LEFT_RIGHT) (fun i => pil_rotate env i 90)
        else if orientation =? 6 then pil_rotate env img 270
        else if orientation =? 7 then
          and_then (pil_transpose env img FLIP_LEFT_RIGHT) (fun i => pil_rotate env i 270)
        else if orientation =? 8 then pil_rotate env img 90
        else Returns img in
      match rotated with
      | Returns i => i
      | Raises _ => img
      end
  end.

Definition _process_jpeg_file (fpath : string) : M State unit :=
  try_pass
    (let fname := basename fpath in
     let base_name := fst (splitext fname) in
     let jpeg_filename := base_name ++ ".jpg" in
     s <- get ;;
     let jpeg_filepath := abspath env (join (download_dir s) jpeg_filename) in
     (if HAS_PIL env then
        content <- read_file fpath ;;
        img <- of_outcome (pil_open env content) ;;
        let img := _apply_exif_rotation img in
        data <- of_outcome (pil_save_jpeg env img) ;;
        write_file jpeg_filepath data
      else copy2 fpath jpeg_filepath) ;;;
     now <- gets clock ;;
     let cached := mkCachedImage jpeg_filepath jpeg_filename now false in
     _replace_or_add_cached cached).

(** The rawpy branch of [_extract_jpeg_from_raw] on what the file holds
    ([None]: there is no such file and [imread] raises): [Some] is what
    the branch returns, [None] is falling through to the manual scan. *)
Definition rawpy_thumbnail (file : option bytes) : option bytes :=
  if HAS_RAWPY env then
    match file with
    | None => None
    | Some content =>
        match rawpy_extract_thumb env content with
        | Raises _ => None
        | Returns (ThumbJpeg data) => Some data
        | Returns (ThumbBitmap array) =>
            if HAS_PIL env then
              match pil_bitmap_to_jpeg env array with
              | Returns jpeg_data => Some jpeg_data
              | Raises _ => None
              end
            else None
        | Returns ThumbOther => None
        end
    end
  else None.

(** The manual branch: the largest embedded JPEG of more than 10000
    bytes. *)
Definition manual_thumbnail (file : option bytes) : option bytes :=
  match file with
  | None => None
  | Some data =>
      match scan_jpegs (S (length data)) data 0 with
      | [] => None
      | j :: jpegs => Some (max_by_len j jpegs)
      end
  end.

Definition _extract_jpeg_from_raw (s : State) (fpath : string) : option bytes :=
  let file := fs s !! fpath in
  match rawpy_thumbnail file with
  | Some data => Some data
  | None => manual_thumbnail file
  end.

Definition _process_raw_file (fpath : string) : M State unit :=
  try_pass
    (let fname := basename fpath in
     s <- get ;;
     match _extract_jpeg_from_raw s fpath with
     | None => ret tt
     | Some [] => ret tt
     | Some jpeg_data =>
         let base_name := fst (splitext fname) in
         let jpeg_filename := base_name ++ ".jpg" in
         let jpeg_filepath := abspath env (join (download_dir s) jpeg_filename) in
         (if HAS_PIL env then
            img <- of_outcome (pil_open env jpeg_data) ;;
            let img := _apply_exif_rotation img in
            data <- of_outcome (pil_save_jpeg env img) ;;
            write_file jpeg_filepath data
          else write_file jpeg_filepath jpeg_data) ;;;
         now <- gets clock ;;
         let cached := mkCachedImage jpeg_filepath jpeg_filename now false in
         _replace_or_add_cached cached ;;;
         try_pass (_safe_delete fpath)
     end).

Definition _clear_pending_raw (base_name : string) : M State unit :=
  s <- get ;;
  match _pending_raw s !! base_name with
  | None => ret tt
  | Some (raw_path, _) =>
      modify (fun s => set_pending_raw (delete base_name (_pending_raw s)) s) ;;;
      s <- get ;;
      if path_exists s raw_path then spawn (ThreadProcessRaw raw_path) else ret tt
  end.

Definition _check_pending_raw (base_name : string) : M State unit :=
  _clear_pending_raw base_name.

Definition process_downloaded_file (fpath filetype : string) : M State unit :=
  s <- get ;;
  if negb (path_exists s fpath) then ret tt
  else
    let fname := basename fpath in
    renamed <-
      (if startswith (lower fname) "capt_" then
         let new_filename := drop_str 5 fname in
         let new_filepath := join (dirname fpath) new_filename in
         try_except (rename fpath new_filepath ;;; ret (new_filepath, new_filename))
                    (fun _ => ret (fpath, fname))
       else ret (fpath, fname)) ;;
    let fpath := fst renamed in
    let fname := snd renamed in
    let base_name := fst (splitext fname) in
    let ext := lower (snd (splitext fname)) in
    let is_raw := ext_in ext RAW_EXTENSIONS in
    now <- gets clock ;;
    if is_raw then
      s <- get ;;
      match _find_jpeg_pair s fpath with
      | Some jpeg_path =>
          _process_jpeg_file jpeg_path ;;;
          _safe_delete fpath
      | None =>
          modify (fun s => set_pending_raw (<[base_name := (fpath, now)]> (_pending_raw s)) s) ;;;
          spawn (ThreadProcessRaw fpath) ;;;
          s <- get ;;
          spawn (TimerClearPending (clock s + _pair_timeout s) base_name)
      end
    else
      s <- get ;;
      match _pending_raw s !! base_name with
      | Some (raw_path, _) =>
          modify (fun s => set_pending_raw (delete base_name (_pending_raw s)) s) ;;;
          _process_jpeg_file fpath ;;;
          _safe_delete raw_path
      | None => _process_jpeg_file fpath
      end.

(** *** Navigation *)

Definition get_current_preview : M State (option CachedImage) :=
  s <- get ;;
  if (_current_index s <? 0) || (_current_index s >=? len_cache s) then ret None
  else return_current.

Definition get_latest_preview : M State (option CachedImage) :=
  s <- get ;;
  match _cache s with
  | [] => ret None
  | _ =>
      modify (set_current_index (len_cache s - 1)) ;;;
      return_current
  end.

Definition navigate_previous : M State (option CachedImage) :=
  s <- get ;;
  match _cache s with
  | [] => ret None
  | _ =>
      modify (fun s => set_current_index (_current_index s - 1) s) ;;;
      s <- get ;;
      when (_current_index s <? 0) (modify (set_current_index (len_cache s - 1))) ;;;
      return_current
  end.

Definition navigate_next : M State (option CachedImage) :=
  s <- get ;;
  match _cache s with
  | [] => ret None
  | _ =>
      modify (fun s => set_current_index (_current_index s + 1) s) ;;;
      s <- get ;;
      when (_current_index s >=? len_cache s) (modify (set_current_index 0)) ;;;
      return_current
  end.

Definition get_cache_info (s : State) : Z * Z := (_current_index s + 1, len_cache s).

Definition has_cached_images (s : State) : bool := len_cache s >? 0.

Definition reset_to_live_view : M State unit := modify (set_current_index (-1)).

(** *** Background tasks and the order of events

    Each notice and each started task is taken as one step: what a thread
    or a timer does once it runs is not interleaved with other steps
    (the extraction thread with a notice running inside it is in
    [ExtractionThread] below). A timer can run only once its due time is
    reached; a thread can run as soon as it is started. *)

Definition runnable (s : State) (t : Task) : bool :=
  match t with
  | ThreadProcessRaw _ => true
  | TimerClearPending due _ => due <=? clock s
  end.

Definition run_task (t : Task) : M State unit :=
  match t with
  | ThreadProcessRaw p => _process_raw_file p
  | TimerClearPending _ base_name => _clear_pending_raw base_name
  end.

Inductive Event : Type :=
| Download (path : string) (content : bytes) (filetype : string)
| Run (i : nat)
| Wait (dt : Z).

(** [Download]: the tethering side has saved [content] at [path] and
    calls [process_downloaded_file]. [Run i]: the [i]-th started task
    runs, if it can. [Wait dt]: [dt] milliseconds pass. *)
Definition step (ev : Event) : M State unit :=
  match ev with
  | Download p content filetype =>
      modify (fun s => set_fs (<[p := content]> (fs s)) s) ;;;
      process_downloaded_file p filetype
  | Run i =>
      s <- get ;;
      match tasks s !! i with
      | Some t =>
          if runnable s t then
            modify (set_tasks (delete i (tasks s))) ;;;
            run_task t
          else ret tt
      | None => ret tt
      end
  | Wait dt => modify (fun s => set_clock (clock s + Z.max 0 dt) s)
  end.

(** The state after a sequence of events (what an event raises does not
    stop the following ones: each runs on a thread of its own). *)
Fixpoint run_events (evs : list Event) (s : State) : State :=
  match evs with
  | [] => s
  | ev :: evs' => run_events evs' (snd (step ev s))
  end.

(** Entries of the cache whose base name is [base_name]. *)
Definition entries_for (base_name : string) (s : State) : list CachedImage :=
  filter (fun entry => fst (splitext (filename entry)) = base_name) (_cache s).

End Manager.

End ImagePreview.

(** ** The extraction thread beside the notices

    [process_downloaded_file] starts [_process_raw_file] on a thread of
    its own and does not wait for it, and outside
    [_replace_or_add_cached] the thread holds no lock of the manager: a
    notice can run while the thread is between two of its statements.
    Here the body of the thread is cut in two at the return of
    [_extract_jpeg_from_raw]. A run of the two parts with other steps in
    between is a run of the program; [step] above is the case where
    nothing comes in between. *)

Module ExtractionThread.
Import Py PyBytes PyStr ImagePreview.
Local Open Scope string_scope.
Local Open Scope Z_scope.
Local Open Scope py_scope.

(** The manager, and the extraction threads that have their [jpeg_data]
    and have not gone on yet, each with the path it was started on. *)
Record Threads : Type := mkThreads {
  manager : State;
  past_extraction : list (string * option bytes)
}.

Inductive Move : Type :=
| Whole (ev : Event)
| Extract (i : nat)
| Save (j : nat).

Section Thread.
Variable env : Env.

(** [_process_raw_file] up to the return of [_extract_jpeg_from_raw]. *)
Definition process_raw_file_extract (fpath : string) : M State (option bytes) :=
  s <- get ;;
  ret (_extract_jpeg_from_raw env s fpath).

(** [_process_raw_file] from there on, with the [jpeg_data] it has. *)
Definition process_raw_file_save (fpath : string) (jpeg_data : option bytes)
  : M State unit :=
  try_pass
    (let fname := basename fpath in
     match jpeg_data with
     | None => ret tt
     | Some [] => ret tt
     | Some jpeg_data =>
         s <- get ;;
         let base_name := fst (splitext fname) in
         let jpeg_filename := base_name ++ ".jpg" in
         let jpeg_filepath := abspath env (join (download_dir s) jpeg_filename) in
         (if HAS_PIL env then
            img <- of_outcome (pil_open env jpeg_data) ;;
            let img := _apply_exif_rotation env img in
            data <- of_outcome (pil_save_jpeg env img) ;;
            write_file env jpeg_filepath data
          else write_file env jpeg_filepath jpeg_data) ;;;
         now <- gets clock ;;
         let cached := mkCachedImage jpeg_filepath jpeg_filename now false in
         _replace_or_add_cached cached ;;;
         try_pass (_safe_delete env fpath)
     end).

(** [Whole ev]: the event [ev] as one step. [Extract i]: the [i]-th
    started task, an extraction thread, runs up to the return of
    [_extract_jpeg_from_raw]. [Save j]: the [j]-th thread that is past its
    extraction runs to its end. *)
Definition move (m : Move) (t : Threads) : Threads :=
  match m with
  | Whole ev => mkThreads (snd (step env ev (manager t))) (past_extraction t)
  | Extract i =>
      match tasks (manager t) !! i with
      | Some (ThreadProcessRaw p) =>
          let started := set_tasks (delete i (tasks (manager t))) (manager t) in
          match process_raw_file_extract p started with
          | (inr jpeg_data, s') => mkThreads s' (past_extraction t ++ [(p, jpeg_data)])
          | (inl _, s') => mkThreads s' (past_extraction t)
          end
      | _ => t
      end
  | Save j =>
      match past_extraction t !! j with
      | Some (p, jpeg_data) =>
          mkThreads (snd (process_raw_file_save p jpeg_data (manager t)))
                    (delete j (past_extraction t))
      | None => t
      end
  end.

Fixpoint run_moves (ms : list Move) (t : Threads) : Threads :=
  match ms with
  | [] => t
  | m :: ms' => run_moves ms' (move m t)
  end.

End Thread.

End ExtractionThread.

(** * Part II: properties *)

(** ** The frame normalizer: what it rejects and what it returns *)

Module JpegFacts.
Import PyBytes Jpeg.

Lemma startswith_nil (b : bytes) : startswith b [] = true.
Proof. destruct b; reflexivity. Qed.

Lemma startswith_EOI_nil : startswith [] EOI = false.
Proof. reflexivity. Qed.

(** [rfind_at] answers [-1] or an index of the scanned suffix. *)
Lemma rfind_at_range (b sub : bytes) (i : Z) :
  0 <= i ->
  rfind_at b sub i = -1 \/ i <= rfind_at b sub i <= i + len b.
Proof.
  revert i. induction b as [|x b IH]; intros i Hi; cbn [rfind_at].
  - destruct (startswith [] sub); unfold len; simpl; lia.
  - specialize (IH (i + 1) ltac:(lia)).
    unfold len in *. rewrite length_cons, Nat2Z.inj_succ.
    destruct (Z.eqb_spec (rfind_at b sub (i + 1)) (-1)) as [E|E].
    + destruct (startswith (x :: b) sub); lia.
    + lia.
Qed.

(** When it answers an index, [sub] occurs there. *)
Lemma rfind_at_occurs (b sub : bytes) (i : Z) :
  0 <= i -> rfind_at b sub i <> -1 ->
  occurs_at b sub (Z.to_nat (rfind_at b sub i - i)).
Proof.
  revert i. induction b as [|x b IH]; intros i Hi; cbn [rfind_at].
  - destruct (startswith [] sub) eqn:E; [|congruence].
    intros _. rewrite Z.sub_diag. exact E.
  - destruct (Z.eqb_spec (rfind_at b sub (i + 1)) (-1)) as [E|E].
    + destruct (startswith (x :: b) sub) eqn:E'; [|congruence].
      intros _. rewrite Z.sub_diag. exact E'.
    + intros _. specialize (IH (i + 1) ltac:(lia) E).
      destruct (rfind_at_range b sub (i + 1) ltac:(lia)) as [?|R]; [congruence|].
      replace (Z.to_nat (rfind_at b sub (i + 1) - i))
        with (S (Z.to_nat (rfind_at b sub (i + 1) - (i + 1)))) by lia.
      exact IH.
Qed.

(** No occurrence lies above the answer; none at all when it is [-1]. *)
Lemma rfind_at_last (b sub : bytes) (i : Z) (j : nat) :
  0 <= i -> (j <= length b)%nat -> occurs_at b sub j ->
  rfind_at b sub i <> -1 /\ i + Z.of_nat j <= rfind_at b sub i.
Proof.
  revert i j. induction b as [|x b IH]; intros i j Hi Hj Hocc.
  - simpl in Hj. assert (j = 0%nat) by lia. subst j.
    unfold occurs_at in Hocc. cbn [rfind_at]. rewrite drop_0 in Hocc.
    rewrite Hocc. lia.
  - cbn [rfind_at]. destruct j as [|j].
    + unfold occurs_at in Hocc. rewrite drop_0 in Hocc. rewrite Hocc.
      destruct (Z.eqb_spec (rfind_at b sub (i + 1)) (-1)) as [E|E]; [lia|].
      destruct (rfind_at_range b sub (i + 1) ltac:(lia)); lia.
    + unfold occurs_at in Hocc. cbn [drop] in Hocc. simpl in Hj.
      destruct (IH (i + 1) j ltac:(lia) ltac:(lia) Hocc) as [N L].
      destruct (Z.eqb_spec (rfind_at b sub (i + 1)) (-1)) as [E|E]; [congruence|].
      split; [exact E | lia].
Qed.

(** An occurrence of the two-byte EOI marker lies inside the buffer. *)
Lemma occurs_at_EOI_lt (b : bytes) (j : nat) :
  occurs_at b EOI j -> (j + 2 <= length b)%nat.
Proof.
  unfold occurs_at. intros H.
  destruct (drop j b) as [|x [|y l]] eqn:E; cbn [startswith EOI] in H.
  - discriminate.
  - rewrite andb_false_r in H. discriminate.
  - assert (L : length (drop j b) = S (S (length l))) by (rewrite E; reflexivity).
    rewrite length_drop in L. lia.
Qed.

(** The marker test read byte by byte. *)
Lemma occurs_at_EOI_lookup (b : bytes) (j : nat) :
  occurs_at b EOI j <-> b !! j = Some xff /\ b !! S j = Some xd9.
Proof.
  unfold occurs_at.
  rewrite <- (Nat.add_0_r j) at 2. rewrite <- (Nat.add_1_r j).
  rewrite <- !lookup_drop.
  destruct (drop j b) as [|x [|y l]]; cbn [startswith EOI lookup list_lookup].
  - split; [discriminate | intros [? _]; discriminate].
  - rewrite andb_false_r. split; [discriminate | intros [_ ?]; discriminate].
  - rewrite startswith_nil, andb_true_r, andb_true_iff.
    split.
    + intros [Hx Hy]. apply Byte.byte_dec_bl in Hx, Hy. subst. auto.
    + intros [Hx Hy]. inversion Hx; inversion Hy; subst. auto.
Qed.

(** What [rfind] of the EOI marker answers: [-1] exactly when the marker
    does not occur, and otherwise the index of its last occurrence. *)
Lemma rfind_EOI_spec (b : bytes) :
  (rfind b EOI = -1 /\ forall j, ~ occurs_at b EOI j) \/
  (exists i : nat, rfind b EOI = Z.of_nat i /\ occurs_at b EOI i /\
                   forall j, occurs_at b EOI j -> (j <= i)%nat).
Proof.
  unfold rfind.
  destruct (Z.eq_dec (rfind_at b EOI 0) (-1)) as [E|E].
  - left. split; [exact E|]. intros j Hj.
    pose proof (occurs_at_EOI_lt b j Hj).
    destruct (rfind_at_last b EOI 0 j ltac:(lia) ltac:(lia) Hj) as [N _].
    contradiction.
  - right.
    destruct (rfind_at_range b EOI 0 ltac:(lia)) as [?|R]; [contradiction|].
    exists (Z.to_nat (rfind_at b EOI 0)).
    split; [lia|]. split.
    + pose proof (rfind_at_occurs b EOI 0 ltac:(lia) E) as H.
      rewrite Z.sub_0_r in H. exact H.
    + intros j Hj. pose proof (occurs_at_EOI_lt b j Hj).
      destruct (rfind_at_last b EOI 0 j ltac:(lia) ltac:(lia) Hj) as [_ L]. lia.
Qed.

(** The normalizer on a byte buffer: when it fails and what it returns. *)
Lemma trim_bytes_spec (b : bytes) :
  (trim_bytes b = None <->
     (length b < 4)%nat \/ startswith b SOI = false \/
     ~ (exists i : nat, (2 <= i)%nat /\ occurs_at b EOI i))
  /\
  (forall r, trim_bytes b = Some r ->
     exists i : nat,
       occurs_at b EOI i /\ (forall j, occurs_at b EOI j -> (j <= i)%nat) /\
       r = take (i + 2) b).
Proof.
  unfold trim_bytes, len, slice_to.
  destruct (Z.ltb_spec (Z.of_nat (length b)) 4) as [L|L].
  { split; [|discriminate]. split; [intros _; left; lia | reflexivity]. }
  destruct (startswith b SOI) eqn:S0; cbn [negb].
  2:{ split; [|discriminate]. split; [intros _; right; left; reflexivity | reflexivity]. }
  destruct (rfind_EOI_spec b) as [[E N]|(i & E & Hi & Hlast)]; rewrite E.
  - cbn. split; [|discriminate].
    split; [|reflexivity]. intros _. right; right. intros (i & _ & Hi).
    exact (N i Hi).
  - destruct (Z.eqb_spec (Z.of_nat i) (-1)) as [?|_]; [lia|]. cbn [orb].
    destruct (Z.ltb_spec (Z.of_nat i) 2) as [Lt|Ge].
    + split; [|discriminate]. split; [|reflexivity].
      intros _. right; right. intros (j & Hj2 & Hj).
      specialize (Hlast j Hj). lia.
    + split.
      * split; [discriminate|].
        intros [?|[?|N]]; [lia | discriminate |].
        exfalso. apply N. exists i. split; [lia | exact Hi].
      * intros r [= <-]. exists i. repeat split; auto.
        f_equal. lia.
Qed.

(** A normalized frame holds at least the two markers. *)
Lemma trim_bytes_length (b r : bytes) :
  trim_bytes b = Some r -> (4 <= length r)%nat.
Proof.
  intros H. destruct (proj2 (trim_bytes_spec b) r H) as (i & Hi & _ & ->).
  pose proof (occurs_at_EOI_lt b i Hi).
  assert (i <> 0%nat /\ i <> 1%nat) as [N0 N1].
  { unfold trim_bytes in H.
    destruct (len b <? 4); [discriminate|].
    destruct (startswith b SOI) eqn:S0; [|discriminate]. cbn [negb] in H.
    apply occurs_at_EOI_lookup in Hi. destruct Hi as [Hi0 Hi1].
    destruct b as [|x [|y b]]; [discriminate ..|].
    cbn [startswith SOI] in S0. rewrite andb_true_iff in S0. destruct S0 as [Sx Sy].
    rewrite andb_true_iff in Sy. destruct Sy as [Sy _].
    apply Byte.byte_dec_bl in Sx, Sy. subst x y.
    split; intros ->; cbn in Hi0, Hi1; discriminate. }
  rewrite length_take. lia.
Qed.

Lemma trim_to_eoi_length (file_data : FileData) (r : bytes) :
  _trim_to_eoi file_data = Some r -> (4 <= length r)%nat.
Proof.
  destruct file_data; cbn [_trim_to_eoi]; try discriminate; apply trim_bytes_length.
Qed.

(** C1. [_trim_to_eoi] fails exactly on a buffer shorter than 4 bytes, or
    one that does not start with FF D8, or one with no FF D9 at offset 2 or
    later; in every other case it returns the prefix that ends with the
    last FF D9 of the buffer, dropping what follows it. *)
Theorem trim_to_eoi_spec (b : bytes) :
  (_trim_to_eoi (FDBytes b) = None <->
     (length b < 4)%nat \/ startswith b SOI = false \/
     ~ (exists i : nat, (2 <= i)%nat /\ occurs_at b EOI i))
  /\
  (forall r, _trim_to_eoi (FDBytes b) = Some r ->
     exists i : nat,
       occurs_at b EOI i /\ (forall j, occurs_at b EOI j -> (j <= i)%nat) /\
       r = take (i + 2) b).
Proof. exact (trim_bytes_spec b). Qed.

End JpegFacts.

(** ** [base64.b64encode]: decoding gives the bytes back *)

Module Base64Facts.
Import PyBytes Base64.
Local Open Scope N_scope.

Definition sextets : list N := map N.of_nat (seq 0 64).

Lemma sextets_complete (n : N) : n < 64 -> In n sextets.
Proof.
  intros H. unfold sextets. apply in_map_iff. exists (N.to_nat n).
  split; [lia|]. apply in_seq. lia.
Qed.

Definition option_N_eqb (a b : option N) : bool :=
  match a, b with
  | Some x, Some y => N.eqb x y
  | None, None => true
  | _, _ => false
  end.

Lemma b64index_b64char (n : N) : n < 64 -> b64index (b64char n) = Some n.
Proof.
  intros H.
  assert (A : forallb (fun n => option_N_eqb (b64index (b64char n)) (Some n)) sextets = true)
    by (vm_compute; reflexivity).
  rewrite forallb_forall in A. specialize (A n (sextets_complete n H)).
  destruct (b64index (b64char n)) as [m|]; [|discriminate].
  simpl in A. apply N.eqb_eq in A. congruence.
Qed.

Lemma b64char_not_pad (n : N) : n < 64 -> is_pad (b64char n) = false.
Proof.
  intros H.
  assert (A : forallb (fun n => negb (is_pad (b64char n))) sextets = true)
    by (vm_compute; reflexivity).
  rewrite forallb_forall in A. specialize (A n (sextets_complete n H)).
  destruct (is_pad (b64char n)); [discriminate | reflexivity].
Qed.

Lemma byte_lt_256 (x : byte) : Byte.to_N x < 256.
Proof. pose proof (Byte.to_N_bounded x). lia. Qed.

Ltac div_mod_lia :=
  zify; Z.to_euclidean_division_equations; lia.

Section Sextets.
Variables x y z : N.
Hypothesis Hx : x < 256.
Hypothesis Hy : y < 256.
Hypothesis Hz : z < 256.

Lemma sextet1_lt : x / 4 < 64.
Proof. clear Hy Hz. div_mod_lia. Qed.
Lemma sextet2_lt : (x mod 4) * 16 + y / 16 < 64.
Proof. clear Hz. div_mod_lia. Qed.
Lemma sextet3_lt : (y mod 16) * 4 + z / 64 < 64.
Proof. clear Hx. div_mod_lia. Qed.
Lemma sextet4_lt : z mod 64 < 64.
Proof. clear Hx Hy. div_mod_lia. Qed.

Lemma join1 : x / 4 * 4 + ((x mod 4) * 16 + y / 16) / 16 = x.
Proof. clear Hz. div_mod_lia. Qed.
Lemma join2 : (((x mod 4) * 16 + y / 16) mod 16) * 16 + ((y mod 16) * 4 + z / 64) / 4 = y.
Proof. div_mod_lia. Qed.
Lemma join3 : (((y mod 16) * 4 + z / 64) mod 4) * 64 + z mod 64 = z.
Proof. clear Hx. div_mod_lia. Qed.

(** The same for the padded last group. *)
Lemma sextet2_pad_lt : (x mod 4) * 16 < 64.
Proof. clear Hy Hz. div_mod_lia. Qed.
Lemma sextet3_pad_lt : (y mod 16) * 4 < 64.
Proof. clear Hx Hz. div_mod_lia. Qed.
Lemma join1_pad : x / 4 * 4 + ((x mod 4) * 16) / 16 = x.
Proof. clear Hy Hz. div_mod_lia. Qed.
Lemma join2_pad : (((x mod 4) * 16 + y / 16) mod 16) * 16 + ((y mod 16) * 4) / 4 = y.
Proof. clear Hz. div_mod_lia. Qed.
End Sextets.

Example b64encode_Man :
  b64encode [x4d; x61; x6e] = "TWFu"%string /\
  b64encode [x4d; x61] = "TWE="%string /\
  b64encode [x4d] = "TQ=="%string.
Proof. repeat split. Qed.

(** Decoding what the encoder wrote gives the bytes back. *)
Lemma b64decode_b64encode (b : bytes) : b64decode (b64encode b) = Some b.
Proof.
  remember (length b) as n eqn:Hn. revert b Hn.
  induction n as [n IH] using lt_wf_ind. intros b Hn.
  destruct b as [|x [|y [|z rest]]].
  - reflexivity.
  - pose proof (byte_lt_256 x) as Hx.
    cbn [b64encode b64decode].
    rewrite (b64index_b64char _ (sextet1_lt _ Hx)).
    rewrite (b64index_b64char _ (sextet2_pad_lt _ Hx)).
    cbn [mbind option_bind]. unfold is_pad. cbn [Ascii.eqb pad Bool.eqb].
    unfold byte1. rewrite (join1_pad _ Hx), Byte.of_to_N. reflexivity.
  - pose proof (byte_lt_256 x) as Hx. pose proof (byte_lt_256 y) as Hy.
    cbn [b64encode b64decode].
    rewrite (b64index_b64char _ (sextet1_lt _ Hx)).
    rewrite (b64index_b64char _ (sextet2_lt _ _ Hx Hy)).
    cbn [mbind option_bind].
    rewrite (b64char_not_pad _ (sextet3_pad_lt _ Hy)).
    rewrite (b64index_b64char _ (sextet3_pad_lt _ Hy)).
    cbn [mbind option_bind]. unfold is_pad. cbn [Ascii.eqb pad Bool.eqb].
    unfold byte1, byte2.
    rewrite (join1 _ _ Hx Hy), (join2_pad _ _ Hx Hy), !Byte.of_to_N.
    reflexivity.
  - pose proof (byte_lt_256 x) as Hx. pose proof (byte_lt_256 y) as Hy.
    pose proof (byte_lt_256 z) as Hz.
    cbn [b64encode b64decode].
    rewrite (b64index_b64char _ (sextet1_lt _ Hx)).
    rewrite (b64index_b64char _ (sextet2_lt _ _ Hx Hy)).
    cbn [mbind option_bind].
    rewrite (b64char_not_pad _ (sextet3_lt _ _ Hy Hz)).
    rewrite (b64index_b64char _ (sextet3_lt _ _ Hy Hz)).
    cbn [mbind option_bind].
    rewrite (b64char_not_pad _ (sextet4_lt _ Hz)).
    rewrite (b64index_b64char _ (sextet4_lt _ Hz)).
    cbn [mbind option_bind]. unfold byte1, byte2, byte3.
    rewrite (join1 _ _ Hx Hy), (join2 _ _ _ Hx Hy Hz), (join3 _ _ Hy Hz), !Byte.of_to_N.
    cbn [mbind option_bind].
    rewrite (IH (length rest)) by (subst n; simpl; lia || reflexivity).
    reflexivity.
Qed.

End Base64Facts.

(** ** Strings and paths on concrete inputs *)

Module PyStrExamples.
Import PyStr.
Local Open Scope string_scope.

Example splitext_ex :
  splitext "IMG_1.ARW" = ("IMG_1", ".ARW") /\
  splitext "/a.b/c" = ("/a.b/c", "") /\
  splitext ".bashrc" = (".bashrc", "") /\
  splitext "/d/..x.jpg" = ("/d/..x", ".jpg") /\
  splitext "a.tar.gz" = ("a.tar", ".gz").
Proof. repeat split. Qed.

Example path_ex :
  basename "/dl/capt_IMG.arw" = "capt_IMG.arw" /\
  dirname "/dl/capt_IMG.arw" = "/dl" /\
  dirname "IMG.arw" = "" /\
  dirname "/IMG.arw" = "/" /\
  join "/dl" "IMG.jpg" = "/dl/IMG.jpg" /\
  join "/dl/" "IMG.jpg" = "/dl/IMG.jpg" /\
  join "" "IMG.jpg" = "IMG.jpg" /\
  join "/dl" "/x/IMG.jpg" = "/x/IMG.jpg".
Proof. repeat split. Qed.

Example contains_ex :
  contains "[-110] I/O in progress" "-110" = true /\
  contains "Unspecified error (-1)" "-1" = true /\
  contains "timeout" "-1" = false /\
  lower "Capt_IMG.JPG" = "capt_img.jpg".
Proof. repeat split. Qed.

End PyStrExamples.

(** ** Facts about statements that can raise *)

Module PyFacts.
Import Py.
Local Open Scope py_scope.

Section NoRaise.
Context {S : Type}.

Lemma bind_run {A B} (c : M S A) (k : A -> M S B) (s s1 : S) (a : A) :
  c s = (inr a, s1) -> bind c k s = k a s1.
Proof. intros H. unfold bind. rewrite H. reflexivity. Qed.

Lemma bind_raise {A B} (c : M S A) (k : A -> M S B) (s s1 : S) (e : PyExc) :
  c s = (inl e, s1) -> bind c k s = (inl e, s1).
Proof. intros H. unfold bind. rewrite H. reflexivity. Qed.

Lemma try_pass_run (c : M S unit) (s s1 : S) (r : PyExc + unit) :
  c s = (r, s1) -> try_pass c s = (inr tt, s1).
Proof.
  intros H. unfold try_pass, try_except. rewrite H.
  destruct r as [e|[]]; reflexivity.
Qed.

Lemma no_raise_ret {A} (a : A) : no_raise (S := S) (ret a).
Proof. intros s. eexists _, _. reflexivity. Qed.

Lemma no_raise_bind {A B} (c : M S A) (k : A -> M S B) :
  no_raise c -> (forall a, no_raise (k a)) -> no_raise (bind c k).
Proof.
  intros Hc Hk s. unfold bind.
  destruct (Hc s) as (a & s1 & ->). apply Hk.
Qed.

Lemma no_raise_try_except {A} (c : M S A) (h : PyExc -> M S A) :
  (forall e, no_raise (h e)) -> no_raise (try_except c h).
Proof.
  intros Hh s. unfold try_except.
  destruct (c s) as [[e|a] s1]; [apply Hh | eexists _, _; reflexivity].
Qed.

Lemma no_raise_try_pass (c : M S unit) : no_raise (try_pass c).
Proof. apply no_raise_try_except. intros e. apply no_raise_ret. Qed.

Lemma no_raise_caught {A} (c : M S A) : no_raise (caught c).
Proof.
  intros s. unfold caught. destruct (c s) as [r s1]. eexists _, _. reflexivity.
Qed.

Lemma no_raise_get : no_raise (S := S) get.
Proof. intros s. eexists _, _. reflexivity. Qed.

Lemma no_raise_gets {A} (f : S -> A) : no_raise (gets f).
Proof. intros s. eexists _, _. reflexivity. Qed.

Lemma no_raise_modify (f : S -> S) : no_raise (modify f).
Proof. intros s. eexists _, _. reflexivity. Qed.

Lemma no_raise_when (b : bool) (c : M S unit) : no_raise c -> no_raise (when b c).
Proof. intros H. destruct b; [exact H | apply no_raise_ret]. Qed.

Lemma no_raise_if {A} (b : bool) (c1 c2 : M S A) :
  no_raise c1 -> no_raise c2 -> no_raise (if b then c1 else c2).
Proof. destruct b; auto. Qed.

Lemma no_raise_for_each {A} (l : list A) (body : A -> M S unit) :
  (forall x, no_raise (body x)) -> no_raise (for_each l body).
Proof.
  intros H. induction l as [|x l IH]; cbn [for_each].
  - apply no_raise_ret.
  - apply no_raise_bind; auto.
Qed.

End NoRaise.

Create HintDb no_raise.
#[export] Hint Resolve no_raise_ret no_raise_try_pass no_raise_caught no_raise_get
  no_raise_gets no_raise_modify : no_raise.
#[export] Hint Resolve no_raise_bind no_raise_try_except no_raise_when no_raise_if
  no_raise_for_each : no_raise.

End PyFacts.

(** ** The manual thumbnail scan *)

Module ScanFacts.
Import PyBytes Jpeg ImagePreview.
Local Open Scope Z_scope.

(** [find] answers [-1] or an index at which a two-byte marker fits. *)
Lemma find_at_marker_range (b : bytes) (x y : byte) (i : Z) :
  find_at b [x; y] i = -1 \/ (i <= find_at b [x; y] i /\ find_at b [x; y] i + 2 <= i + len b).
Proof.
  revert i. induction b as [|a b IH]; intros i; cbn [find_at].
  - left. reflexivity.
  - destruct (startswith (a :: b) [x; y]) eqn:E.
    + right. unfold len. cbn [length]. destruct b as [|a' b].
      * cbn in E. rewrite andb_false_r in E. discriminate.
      * cbn [length]. lia.
    + destruct (IH (i + 1)) as [->|R]; [left; reflexivity|].
      right. unfold len in *. cbn [length]. lia.
Qed.

Lemma find_from_marker_range (data : bytes) (x y : byte) (start : Z) :
  0 <= start ->
  find_from data [x; y] start = -1 \/
  (start <= find_from data [x; y] start /\ find_from data [x; y] start + 2 <= len data).
Proof.
  intros H. unfold find_from.
  destruct (find_at_marker_range (drop (Z.to_nat start) data) x y start) as [->|[R1 R2]];
    [left; reflexivity|].
  right. split; [exact R1|]. unfold len in *. rewrite length_drop in R2. lia.
Qed.

(** Each round moves the start forward by 4 bytes at least, so the scan
    does not depend on the fuel once the fuel exceeds what is left of the
    data. *)
Lemma scan_jpegs_fuel (data : bytes) (fuel fuel' : nat) (start : Z) :
  0 <= start ->
  len data - start < Z.of_nat fuel ->
  len data - start < Z.of_nat fuel' ->
  scan_jpegs fuel data start = scan_jpegs fuel' data start.
Proof.
  revert fuel' start. induction fuel as [|fuel IH]; intros fuel' start H0 H1 H2.
  - destruct fuel' as [|fuel']; [reflexivity|]. cbn [scan_jpegs].
    destruct (find_from_marker_range data xff xd8 start H0) as [E|[R1 R2]].
    + unfold SOI. rewrite E. reflexivity.
    + lia.
  - destruct fuel' as [|fuel'].
    + cbn [scan_jpegs].
      destruct (find_from_marker_range data xff xd8 start H0) as [E|[R1 R2]].
      * unfold SOI. rewrite E. reflexivity.
      * lia.
    + cbn [scan_jpegs]. unfold SOI, EOI.
      destruct (find_from_marker_range data xff xd8 start H0) as [E|[R1 R2]].
      { rewrite E. reflexivity. }
      destruct (Z.eqb_spec (find_from data [xff; xd8] start) (-1)) as [E|_]; [reflexivity|].
      set (soi := find_from data [xff; xd8] start) in *.
      destruct (find_from_marker_range data xff xd9 (soi + 2) ltac:(lia)) as [E|[R3 R4]].
      { rewrite E. reflexivity. }
      destruct (Z.eqb_spec (find_from data [xff; xd9] (soi + 2)) (-1)) as [E|_]; [reflexivity|].
      set (eoi := find_from data [xff; xd9] (soi + 2)) in *.
      rewrite (IH fuel' (eoi + 2)) by lia. reflexivity.
Qed.

(** The fuel [_extract_jpeg_from_raw] is run with is enough. *)
Lemma scan_jpegs_enough (data : bytes) (more : nat) :
  scan_jpegs (S (length data) + more) data 0 = scan_jpegs (S (length data)) data 0.
Proof. apply scan_jpegs_fuel; unfold len; lia. Qed.

End ScanFacts.

(** ** The preview cache: bound, replacement and navigation *)

Module CacheFacts.
Import Py PyBytes PyStr ImagePreview.
Local Open Scope Z_scope.

Ltac run_monad :=
  unfold bind, get, gets, modify, ret, raise, when, try_pass, try_except; cbn.

Lemma set_current_index_same (s : State) : set_current_index (_current_index s) s = s.
Proof. destruct s; reflexivity. Qed.

Lemma set_current_index_twice (a b : Z) (s : State) :
  set_current_index a (set_current_index b s) = set_current_index a s.
Proof. reflexivity. Qed.

(** *** Trimming *)

Ltac case_gtb :=
  match goal with
  | |- context [?a >? ?b] => destruct (Z.gtb_spec a b)
  end.

Lemma pop_while_over_fits (max : Z) (cache : list CachedImage) :
  Z.of_nat (length cache) <= max -> pop_while_over max cache = Some cache.
Proof.
  intros H. destruct cache; cbn [pop_while_over]; case_gtb; (reflexivity || lia).
Qed.

(** With a non-negative bound the loop stops on the last [max] entries. *)
Lemma pop_while_over_drop (max : Z) (cache : list CachedImage) :
  0 <= max ->
  pop_while_over max cache = Some (drop (length cache - Z.to_nat max) cache).
Proof.
  intros Hmax. induction cache as [|c cache IH]; cbn [pop_while_over]; case_gtb.
  - cbn [length] in *. lia.
  - reflexivity.
  - rewrite IH. cbn [length] in *.
    replace (S (length cache) - Z.to_nat max)%nat
      with (S (length cache - Z.to_nat max)) by lia.
    reflexivity.
  - cbn [length] in *.
    replace (S (length cache) - Z.to_nat max)%nat with 0%nat by lia.
    reflexivity.
Qed.

(** With a negative bound the loop empties the list and [pop] raises. *)
Lemma pop_while_over_negative (max : Z) (cache : list CachedImage) :
  max < 0 -> pop_while_over max cache = None.
Proof.
  intros Hmax. induction cache as [|c cache IH]; cbn [pop_while_over]; case_gtb;
    try reflexivity; try exact IH; cbn [length] in *; lia.
Qed.

Lemma trim_cache_spec (s : State) :
  0 <= max_cache_size s ->
  trim_cache s =
    (inr tt, set_cache (drop (length (_cache s) - Z.to_nat (max_cache_size s)) (_cache s)) s).
Proof.
  intros H. unfold trim_cache. rewrite pop_while_over_drop by exact H. reflexivity.
Qed.

(** *** [_add_to_cache] *)

Definition appended (cached : CachedImage) (s : State) : list CachedImage :=
  drop (S (length (_cache s)) - Z.to_nat (max_cache_size s)) (_cache s ++ [cached]).

Definition notified (cached : CachedImage) (s : State) : list (nat * CachedImage) :=
  match _preview_callback s with
  | Some cb => shown s ++ [(cb, cached)]
  | None => shown s
  end.

Lemma add_to_cache_spec (cached : CachedImage) (s : State) :
  0 <= max_cache_size s ->
  _add_to_cache cached s =
    (inr tt,
     set_shown (notified cached s)
       (set_current_index (Z.of_nat (length (appended cached s)) - 1)
          (set_cache (appended cached s) s))).
Proof.
  intros H. unfold _add_to_cache, notify. run_monad.
  rewrite trim_cache_spec by exact H. cbn.
  rewrite length_app, Nat.add_1_r. unfold notified, appended.
  destruct (_preview_callback s); reflexivity.
Qed.

Lemma appended_length (cached : CachedImage) (s : State) :
  0 <= max_cache_size s ->
  Z.of_nat (length (appended cached s)) =
    Z.min (Z.of_nat (length (_cache s)) + 1) (max_cache_size s).
Proof.
  intros H. unfold appended. rewrite length_drop, length_app, Nat.add_1_r. lia.
Qed.

Lemma last_drop_lt {A} (n : nat) (l : list A) :
  (n < length l)%nat -> last (drop n l) = last l.
Proof.
  intros H. rewrite !last_lookup, lookup_drop, length_drop. f_equal. lia.
Qed.

Lemma appended_last (cached : CachedImage) (s : State) :
  1 <= max_cache_size s -> last (appended cached s) = Some cached.
Proof.
  intros H. unfold appended. rewrite last_drop_lt.
  - apply last_snoc.
  - rewrite length_app, Nat.add_1_r. lia.
Qed.

(** Inserting into a cache that holds exactly [max_cache_size] entries
    drops the entry at index 0 and nothing else. *)
Lemma appended_full (cached : CachedImage) (s : State) :
  1 <= max_cache_size s ->
  Z.of_nat (length (_cache s)) = max_cache_size s ->
  appended cached s = tail (_cache s) ++ [cached].
Proof.
  intros H1 H. unfold appended.
  replace (S (length (_cache s)) - Z.to_nat (max_cache_size s))%nat with 1%nat by lia.
  destruct (_cache s) as [|c l]; [cbn in H; lia | reflexivity].
Qed.

(** *** [_replace_or_add_cached] *)

(** The base name under which an entry is matched. *)
Definition base_of (entry : CachedImage) : string := fst (splitext (filename entry)).

Lemma replace_found (cached entry : CachedImage) (idx : nat) (s : State) :
  list_find (fun e => base_of e = base_of cached) (_cache s) = Some (idx, entry) ->
  _replace_or_add_cached cached s =
    (inr tt,
     set_shown (notified cached s)
       (set_current_index (Z.of_nat idx)
          (set_cache (<[idx := cached]> (_cache s)) s))).
Proof.
  intros H. unfold _replace_or_add_cached, notify. run_monad.
  unfold base_of in H. rewrite H. cbn. unfold notified.
  destruct (_preview_callback s); reflexivity.
Qed.

Lemma replace_not_found (cached : CachedImage) (s : State) :
  list_find (fun e => base_of e = base_of cached) (_cache s) = None ->
  _replace_or_add_cached cached s = _add_to_cache cached s.
Proof.
  intros H. unfold _replace_or_add_cached, _add_to_cache. run_monad.
  unfold base_of in H. rewrite H. reflexivity.
Qed.

Lemma py_index_last {A} (l : list A) (x : A) :
  last l = Some x -> py_index l (Z.of_nat (length l) - 1) = Some x.
Proof.
  intros H. unfold py_index. rewrite last_lookup in H.
  destruct l as [|a l]; [discriminate|].
  cbn [length] in *.
  destruct (Z.leb_spec 0 (Z.of_nat (S (length l)) - 1)); [|lia].
  rewrite <- H. f_equal. lia.
Qed.

(** C5. A new image whose base name is that of a cached entry overwrites
    the first such entry where it stands: the other entries and the size
    stay, the cursor goes to that index and the callback receives the new
    image. With no such entry the image is appended (the oldest entries
    leave if the bound is exceeded), the cursor goes to the appended entry
    and the callback receives the new image. *)
Theorem replace_or_add_cached_spec (cached : CachedImage) (s : State) (cb : nat) :
  _preview_callback s = Some cb ->
  (forall (idx : nat) (entry : CachedImage),
      _cache s !! idx = Some entry ->
      base_of entry = base_of cached ->
      (forall j e, _cache s !! j = Some e -> (j < idx)%nat -> base_of e <> base_of cached) ->
      exists s',
        _replace_or_add_cached cached s = (inr tt, s') /\
        _cache s' = <[idx := cached]> (_cache s) /\
        length (_cache s') = length (_cache s) /\
        _cache s' !! idx = Some cached /\
        _current_index s' = Z.of_nat idx /\
        shown s' = shown s ++ [(cb, cached)])
  /\
  ((forall e, e ∈ _cache s -> base_of e <> base_of cached) ->
   1 <= max_cache_size s ->
   exists s',
     _replace_or_add_cached cached s = (inr tt, s') /\
     _cache s' =
       drop (S (length (_cache s)) - Z.to_nat (max_cache_size s)) (_cache s ++ [cached]) /\
     last (_cache s') = Some cached /\
     _current_index s' = Z.of_nat (length (_cache s')) - 1 /\
     py_index (_cache s') (_current_index s') = Some cached /\
     shown s' = shown s ++ [(cb, cached)]).
Proof.
  intros Hcb. split.
  - intros idx entry Hidx Hbase Hfirst.
    assert (F : list_find (fun e => base_of e = base_of cached) (_cache s) = Some (idx, entry)).
    { apply list_find_Some. repeat split; auto. }
    eexists. split; [apply (replace_found _ _ _ _ F)|].
    cbn. unfold notified. rewrite Hcb.
    repeat split.
    + apply length_insert.
    + apply list_lookup_insert_eq. eapply lookup_lt_Some; eauto.
  - intros Hnone Hmax.
    assert (F : list_find (fun e => base_of e = base_of cached) (_cache s) = None).
    { apply list_find_None. apply Forall_forall. intros e He. apply Hnone.
      exact He. }
    eexists. split.
    { rewrite (replace_not_found _ _ F). apply add_to_cache_spec. lia. }
    cbn. unfold notified. rewrite Hcb.
    pose proof (appended_last cached s Hmax) as L.
    repeat split; auto.
    apply py_index_last. exact L.
Qed.

(** *** Navigation *)

(** The state after [n] calls of [c] in a row. *)
Fixpoint repeat_call {A} (n : nat) (c : M State A) (s : State) : State :=
  match n with
  | O => s
  | S n' => repeat_call n' c (snd (c s))
  end.

Lemma py_index_in_range {A} (l : list A) (i : Z) :
  0 <= i < Z.of_nat (length l) -> exists x, py_index l i = Some x /\ l !! Z.to_nat i = Some x.
Proof.
  intros H. unfold py_index. destruct (Z.leb_spec 0 i); [|lia].
  destruct (lookup_lt_is_Some_2 l (Z.to_nat i) ltac:(lia)) as [x Hx].
  exists x. auto.
Qed.

Lemma len_cache_set_current_index (c : Z) (s : State) :
  len_cache (set_current_index c s) = len_cache s.
Proof. reflexivity. Qed.

Lemma len_cache_pos (s : State) : _cache s <> [] <-> 0 < len_cache s.
Proof.
  unfold len_cache. destruct (_cache s); cbn [length]; split; (congruence || lia).
Qed.

(** What [return self._cache[self._current_index]] gives for a cursor
    inside the cache. *)
Lemma return_current_in_range (s : State) :
  0 <= _current_index s < len_cache s ->
  exists e, _cache s !! Z.to_nat (_current_index s) = Some e /\
            return_current s = (inr (Some e), s).
Proof.
  intros H. unfold return_current. run_monad.
  destruct (py_index_in_range (_cache s) (_current_index s) H) as (x & -> & Hx).
  exists x. auto.
Qed.

(** The cursor [navigate_next] moves to, and the one [navigate_previous]
    moves to. *)
Definition next_index (s : State) : Z :=
  if _current_index s + 1 >=? len_cache s then 0 else _current_index s + 1.

Definition previous_index (s : State) : Z :=
  if _current_index s - 1 <? 0 then len_cache s - 1 else _current_index s - 1.

Lemma navigate_next_unfold (s : State) :
  _cache s <> [] ->
  navigate_next s = return_current (set_current_index (next_index s) s).
Proof.
  intros H. unfold navigate_next. run_monad.
  destruct (_cache s) as [|c0 l] eqn:E; [congruence|]. rewrite <- E. clear E.
  rewrite len_cache_set_current_index. unfold next_index.
  cbn [_current_index set_current_index].
  destruct (_current_index s + 1 >=? len_cache s); reflexivity.
Qed.

Lemma navigate_previous_unfold (s : State) :
  _cache s <> [] ->
  navigate_previous s = return_current (set_current_index (previous_index s) s).
Proof.
  intros H. unfold navigate_previous. run_monad.
  destruct (_cache s) as [|c0 l] eqn:E; [congruence|]. rewrite <- E. clear E.
  rewrite len_cache_set_current_index. unfold previous_index.
  cbn [_current_index set_current_index].
  destruct (_current_index s - 1 <? 0); reflexivity.
Qed.

Lemma next_index_mod (s : State) :
  0 <= _current_index s < len_cache s ->
  next_index s = (_current_index s + 1) mod len_cache s.
Proof.
  intros H. unfold next_index.
  destruct (Z.geb_spec (_current_index s + 1) (len_cache s)).
  - replace (_current_index s + 1) with (len_cache s) by lia.
    rewrite Z.mod_same by lia. reflexivity.
  - rewrite Z.mod_small by lia. reflexivity.
Qed.

Lemma previous_index_mod (s : State) :
  0 <= _current_index s < len_cache s ->
  previous_index s = (_current_index s - 1) mod len_cache s.
Proof.
  intros H. unfold previous_index.
  destruct (Z.ltb_spec (_current_index s - 1) 0).
  - replace (_current_index s - 1) with (-1) by lia.
    apply Z.mod_unique with (q := -1); lia.
  - rewrite Z.mod_small by lia. reflexivity.
Qed.

Lemma navigate_next_in_range (s : State) :
  0 <= _current_index s < len_cache s ->
  exists e,
    _cache s !! Z.to_nat ((_current_index s + 1) mod len_cache s) = Some e /\
    navigate_next s =
      (inr (Some e), set_current_index ((_current_index s + 1) mod len_cache s) s).
Proof.
  intros H. rewrite navigate_next_unfold by (apply len_cache_pos; lia).
  rewrite next_index_mod by exact H.
  apply (return_current_in_range (set_current_index _ s)).
  cbn [_current_index set_current_index]. rewrite len_cache_set_current_index.
  apply Z.mod_pos_bound. lia.
Qed.

Lemma navigate_previous_in_range (s : State) :
  0 <= _current_index s < len_cache s ->
  exists e,
    _cache s !! Z.to_nat ((_current_index s - 1) mod len_cache s) = Some e /\
    navigate_previous s =
      (inr (Some e), set_current_index ((_current_index s - 1) mod len_cache s) s).
Proof.
  intros H. rewrite navigate_previous_unfold by (apply len_cache_pos; lia).
  rewrite previous_index_mod by exact H.
  apply (return_current_in_range (set_current_index _ s)).
  cbn [_current_index set_current_index]. rewrite len_cache_set_current_index.
  apply Z.mod_pos_bound. lia.
Qed.

Lemma repeat_navigate_next (n : nat) (s : State) :
  0 <= _current_index s < len_cache s ->
  repeat_call n navigate_next s =
    set_current_index ((_current_index s + Z.of_nat n) mod len_cache s) s.
Proof.
  revert s. induction n as [|n IH]; intros s H.
  - cbn [repeat_call]. rewrite Z.add_0_r, Z.mod_small by lia.
    symmetry. apply set_current_index_same.
  - cbn [repeat_call].
    destruct (navigate_next_in_range s H) as (e & _ & ->). cbn [snd].
    rewrite IH.
    + cbn [_current_index set_current_index]. rewrite len_cache_set_current_index.
      rewrite Z.add_mod_idemp_l by lia. rewrite set_current_index_twice.
      f_equal. f_equal. lia.
    + cbn [_current_index set_current_index]. rewrite len_cache_set_current_index.
      apply Z.mod_pos_bound. lia.
Qed.

Lemma repeat_navigate_previous (n : nat) (s : State) :
  0 <= _current_index s < len_cache s ->
  repeat_call n navigate_previous s =
    set_current_index ((_current_index s - Z.of_nat n) mod len_cache s) s.
Proof.
  revert s. induction n as [|n IH]; intros s H.
  - cbn [repeat_call]. rewrite Z.sub_0_r, Z.mod_small by lia.
    symmetry. apply set_current_index_same.
  - cbn [repeat_call].
    destruct (navigate_previous_in_range s H) as (e & _ & ->). cbn [snd].
    rewrite IH.
    + cbn [_current_index set_current_index]. rewrite len_cache_set_current_index.
      rewrite Zminus_mod_idemp_l. rewrite set_current_index_twice.
      f_equal. f_equal. lia.
    + cbn [_current_index set_current_index]. rewrite len_cache_set_current_index.
      apply Z.mod_pos_bound. lia.
Qed.

(** C4. In a cache of [k >= 1] entries with the cursor on an entry,
    [k] calls of [navigate_next] bring the state back, and so do [k] calls
    of [navigate_previous]; [navigate_previous] goes from the oldest entry
    to the newest and [navigate_next] from the newest to the oldest; on an
    empty cache the three navigation calls return [None] and change
    nothing. *)
Theorem navigation_spec (s : State) :
  (forall k : nat,
      length (_cache s) = k -> (1 <= k)%nat -> 0 <= _current_index s < Z.of_nat k ->
      repeat_call k navigate_next s = s /\ repeat_call k navigate_previous s = s)
  /\
  (forall newest, last (_cache s) = Some newest -> _current_index s = 0 ->
      navigate_previous s = (inr (Some newest), set_current_index (len_cache s - 1) s))
  /\
  (forall oldest, head (_cache s) = Some oldest -> _current_index s = len_cache s - 1 ->
      navigate_next s = (inr (Some oldest), set_current_index 0 s))
  /\
  (_cache s = [] ->
      navigate_next s = (inr None, s) /\
      navigate_previous s = (inr None, s) /\
      get_latest_preview s = (inr None, s)).
Proof.
  repeat split.
  - intros. rewrite repeat_navigate_next by (unfold len_cache; lia).
    unfold len_cache. rewrite H.
    replace (_current_index s + Z.of_nat k) with (_current_index s + 1 * Z.of_nat k) by lia.
    rewrite Z.mod_add, Z.mod_small by lia. apply set_current_index_same.
  - intros. rewrite repeat_navigate_previous by (unfold len_cache; lia).
    unfold len_cache. rewrite H.
    replace (_current_index s - Z.of_nat k) with (_current_index s + (-1) * Z.of_nat k) by lia.
    rewrite Z.mod_add, Z.mod_small by lia. apply set_current_index_same.
  - intros newest Hl Hc.
    assert (N : _cache s <> []) by (intros E; rewrite E in Hl; discriminate).
    rewrite navigate_previous_unfold by exact N.
    unfold previous_index. rewrite Hc.
    destruct (Z.ltb_spec (0 - 1) 0); [|lia].
    unfold return_current, bind, get.
    cbn [_cache _current_index set_current_index]. unfold len_cache.
    rewrite (py_index_last _ _ Hl). reflexivity.
  - intros oldest Hh Hc.
    assert (N : _cache s <> []) by (intros E; rewrite E in Hh; discriminate).
    rewrite navigate_next_unfold by exact N.
    unfold next_index. rewrite Hc.
    destruct (Z.geb_spec (len_cache s - 1 + 1) (len_cache s)); [|lia].
    unfold return_current, bind, get.
    cbn [_cache _current_index set_current_index].
    destruct (_cache s); [discriminate|]. cbn in Hh. injection Hh as ->. reflexivity.
  - unfold navigate_next. run_monad. rewrite H. reflexivity.
  - unfold navigate_previous. run_monad. rewrite H. reflexivity.
  - unfold get_latest_preview. run_monad. rewrite H. reflexivity.
Qed.

End CacheFacts.

(** ** The preview cache on concrete inputs *)

Module CacheExamples.
Import Py PyBytes PyStr ImagePreview CacheFacts.
Local Open Scope string_scope.
Local Open Scope Z_scope.

(** A platform on which every library call succeeds: PIL re-encodes a
    file to the bytes it read behind a one-byte tag, rawpy returns the
    embedded JPEG that follows the first 4 bytes of a RAW file. *)
Definition env_ok : Env :=
  mkEnv true true (fun p => p) (fun _ => Returns 0) (fun _ => None)
    (fun content => Returns (PilImg (length content)))
    (fun _ => Returns None)
    (fun img _ => Returns img) (fun img _ => Returns img)
    (fun img => match img with PilImg n => Returns (repeat x4a n) end)
    (fun content => Returns (ThumbJpeg (drop 4 content)))
    (fun _ => Returns []).

Definition two_digits (n : nat) : string :=
  String (ascii_of_nat (48 + n / 10)) (String (ascii_of_nat (48 + n mod 10)) "").

Definition img_name (n : nat) : string := "IMG_" ++ two_digits n ++ ".jpg".

Definition img (n : nat) : CachedImage :=
  mkCachedImage (join "/dl" (img_name n)) (img_name n) 0 false.

Definition tiny_jpeg : bytes := [xff; xd8; xff; xd9].

(** A download folder that holds [n] JPEG files. *)
Definition folder_of (n : nat) : gmap string bytes :=
  list_to_map (map (fun i => (join "/dl" (img_name i), tiny_jpeg)) (seq 0 n)).

(** The manager as the GUI builds it (default bound of 50). *)
Definition fresh (files : gmap string bytes) : State :=
  set_preview_callback (Some 7%nat) (init "/dl" 50 files {["/dl"]} 0).

Definition three : State :=
  set_current_index 1 (set_cache [img 0; img 1; img 2] (fresh ∅)).

(** One image cached, then back to live view. *)
Definition live_view_one : State :=
  snd (reset_to_live_view (snd (_add_to_cache (img 0) (fresh ∅)))).

Example live_view_one_state :
  _cache live_view_one = [img 0] /\ _current_index live_view_one = -1.
Proof. split; reflexivity. Qed.

(** C4, as stated, fails for the cursor of live view: in a cache of one
    entry one [navigate_next] moves the cursor from -1 to 0, and so does
    one [navigate_previous]. *)
Lemma navigation_cycle_any_cursor_fails :
  ~ (forall (s : State) (k : nat),
        length (_cache s) = k -> (1 <= k)%nat ->
        _current_index (repeat_call k navigate_next s) = _current_index s /\
        _current_index (repeat_call k navigate_previous s) = _current_index s).
Proof.
  intros H. destruct (H live_view_one 1%nat eq_refl (le_n 1)) as [Hn _].
  vm_compute in Hn. discriminate.
Qed.

Lemma navigation_spec_witness :
  repeat_call 3 navigate_next three = three /\
  repeat_call 3 navigate_previous three = three.
Proof.
  apply (proj1 (navigation_spec three) 3%nat);
    [reflexivity | lia | cbn; lia].
Defined.

Lemma replace_or_add_cached_spec_witness :
  (exists s',
      _replace_or_add_cached (mkCachedImage "/dl/IMG_01.jpg" "IMG_01.jpg" 9 false) three
        = (inr tt, s') /\
      _cache s' = <[1%nat := mkCachedImage "/dl/IMG_01.jpg" "IMG_01.jpg" 9 false]> (_cache three) /\
      length (_cache s') = length (_cache three) /\
      _cache s' !! 1%nat = Some (mkCachedImage "/dl/IMG_01.jpg" "IMG_01.jpg" 9 false) /\
      _current_index s' = 1 /\
      shown s' = (shown three ++ [(7%nat, mkCachedImage "/dl/IMG_01.jpg" "IMG_01.jpg" 9 false)])%list)
  /\
  (exists s',
      _replace_or_add_cached (img 5) three = (inr tt, s') /\
      _cache s' = drop (4 - 50) (_cache three ++ [img 5])%list /\
      last (_cache s') = Some (img 5) /\
      _current_index s' = Z.of_nat (length (_cache s')) - 1 /\
      py_index (_cache s') (_current_index s') = Some (img 5) /\
      shown s' = (shown three ++ [(7%nat, img 5)])%list).
Proof.
  split.
  - apply (proj1 (replace_or_add_cached_spec
                    (mkCachedImage "/dl/IMG_01.jpg" "IMG_01.jpg" 9 false) three 7%nat eq_refl)
             1%nat (img 1)).
    + reflexivity.
    + reflexivity.
    + intros j e Hj Hlt. assert (j = 0%nat) by lia. subst j.
      cbn in Hj. injection Hj as <-. vm_compute. discriminate.
  - apply (proj2 (replace_or_add_cached_spec (img 5) three 7%nat eq_refl)).
    + intros e He. cbn in He.
      rewrite !elem_of_cons in He.
      destruct He as [->|[->|[->|He]]]; [vm_compute; discriminate ..|].
      inversion He.
    + cbn. lia.
Defined.

End CacheExamples.

(** ** The bound of the preview cache *)

Module CacheBound.
Import Py PyBytes PyStr ImagePreview CacheFacts CacheExamples.
Local Open Scope Z_scope.

(** The two insertion paths keep the cache within the bound. *)
Lemma add_to_cache_bounded (cached : CachedImage) (s : State) :
  0 <= max_cache_size s ->
  len_cache (snd (_add_to_cache cached s)) <= max_cache_size s.
Proof.
  intros H. rewrite add_to_cache_spec by exact H. cbn [snd].
  unfold len_cache. cbn [_cache set_shown set_current_index set_cache].
  rewrite appended_length by exact H. lia.
Qed.

Lemma replace_or_add_cached_bounded (cached : CachedImage) (s : State) :
  0 <= max_cache_size s ->
  len_cache s <= max_cache_size s ->
  len_cache (snd (_replace_or_add_cached cached s)) <= max_cache_size s.
Proof.
  intros H Hs.
  destruct (list_find (fun e => base_of e = base_of cached) (_cache s)) as [[idx e]|] eqn:F.
  - rewrite (replace_found _ _ _ _ F). cbn [snd]. unfold len_cache in *.
    cbn [_cache set_shown set_current_index set_cache max_cache_size].
    rewrite length_insert. exact Hs.
  - rewrite (replace_not_found _ _ F). apply add_to_cache_bounded. exact H.
Qed.

(** Inserting into a full cache drops exactly the entry at index 0. *)
Lemma add_to_cache_evicts_oldest (cached : CachedImage) (s : State) :
  1 <= max_cache_size s ->
  len_cache s = max_cache_size s ->
  _cache (snd (_add_to_cache cached s)) = tail (_cache s) ++ [cached] /\
  len_cache (snd (_add_to_cache cached s)) = max_cache_size s.
Proof.
  intros H1 H. rewrite add_to_cache_spec by lia. cbn [snd]. unfold len_cache in *.
  cbn [_cache set_shown set_current_index set_cache].
  rewrite appended_length by lia. split; [apply appended_full; assumption | lia].
Qed.

(** Loading an existing JPEG appends and never trims. *)
Lemma load_jpeg_to_cache_appends (env : Env) (fpath fname : string) (mtime : Z) (s : State) :
  getmtime env (abspath env fpath) = Returns mtime ->
  _load_jpeg_to_cache env fpath fname s =
    (inr tt,
     set_current_index (len_cache s + 1 - 1)
       (set_cache (_cache s ++ [mkCachedImage (abspath env fpath) fname mtime false]) s)).
Proof.
  intros H. unfold _load_jpeg_to_cache. run_monad. rewrite H. cbn.
  unfold len_cache. cbn [_cache set_cache]. rewrite length_app, Nat.add_1_r.
  repeat f_equal. lia.
Qed.

Lemma load_jpeg_to_cache_grows (env : Env) (fpath fname : string) (mtime : Z) (s : State) :
  getmtime env (abspath env fpath) = Returns mtime ->
  len_cache (snd (_load_jpeg_to_cache env fpath fname s)) = len_cache s + 1.
Proof.
  intros H. rewrite (load_jpeg_to_cache_appends _ _ _ _ _ H). cbn [snd].
  unfold len_cache. cbn [_cache set_cache set_current_index].
  rewrite length_app, Nat.add_1_r. lia.
Qed.

(** C2. The start-up load breaks the bound: with the default bound of 50
    and 51 JPEG files in the download folder, [cleanup_download_folder]
    leaves 51 entries in the cache. *)
Theorem cleanup_download_folder_exceeds_bound :
  max_cache_size (fresh (folder_of 51)) = 50 /\
  len_cache (fresh (folder_of 51)) = 0 /\
  len_cache (snd (cleanup_download_folder env_ok (fresh (folder_of 51)))) = 51.
Proof. vm_compute. repeat split. Qed.

End CacheBound.

(** ** The frame acquisition engine: errors, session state and frames *)

Module HandlerFacts.
Import Py PyFacts PyBytes PyStr Jpeg JpegFacts CameraHandler.
Local Open Scope string_scope.
Local Open Scope Z_scope.
Local Open Scope py_scope.

(** What a consumer of the frame string does: strip the data-URI prefix
    and decode the base64 payload. *)
Definition decode_data_uri (uri : string) : option bytes :=
  if String.prefix data_uri_prefix uri
  then Base64.b64decode (drop_str (String.length data_uri_prefix) uri)
  else None.

Lemma decode_data_uri_encode (b : bytes) :
  decode_data_uri (data_uri_prefix ++ Base64.b64encode b) = Some b.
Proof.
  unfold decode_data_uri.
  replace (String.prefix data_uri_prefix (data_uri_prefix ++ Base64.b64encode b)) with true.
  - change (drop_str (String.length data_uri_prefix) (data_uri_prefix ++ Base64.b64encode b))
      with (Base64.b64encode b).
    apply Base64Facts.b64decode_b64encode.
  - cbn. destruct (Base64.b64encode b); reflexivity.
Qed.

Section Handler.
Variable drv : Driver.

(** *** What cannot raise *)

Lemma no_raise_call_returns {A} (c : Call) (f : nat -> A) :
  no_raise (call (A := A) c (fun t => Returns (f t))).
Proof. intros s. unfold call. eexists _, _. reflexivity. Qed.

Lemma no_raise_time_now : no_raise (time_now drv).
Proof. apply no_raise_call_returns. Qed.

Lemma no_raise_sleep (ms : Z) : 0 <= ms -> no_raise (sleep ms).
Proof.
  intros H. unfold sleep. destruct (Z.ltb_spec ms 0); [lia|].
  apply (no_raise_call_returns _ (fun _ => tt)).
Qed.

(** The rate gate sleeps for a positive time only. *)
Lemma no_raise_rate_gate (elapsed interval : Z) :
  no_raise (when (elapsed <? interval) (sleep (interval - elapsed))).
Proof.
  destruct (Z.ltb_spec elapsed interval); cbn [when].
  - apply no_raise_sleep. lia.
  - apply no_raise_ret.
Qed.

Lemma no_raise_safe_unref (func_name : string) : no_raise (_safe_unref drv func_name).
Proof. apply no_raise_try_pass. Qed.

Lemma no_raise_notify_disconnect (err_str : string) :
  no_raise (notify_disconnect drv err_str).
Proof. apply no_raise_try_pass. Qed.

Lemma no_raise_release : no_raise (release drv).
Proof.
  unfold release.
  repeat (apply no_raise_bind; [|intros]);
    auto using no_raise_safe_unref with no_raise.
  - destruct (camera a0); auto with no_raise.
    apply no_raise_bind; [|intros; apply no_raise_safe_unref].
    apply no_raise_try_except. intros e. apply no_raise_try_pass.
  - destruct (context a2); auto using no_raise_safe_unref with no_raise.
Qed.

Lemma no_raise_handle_capture_error (e : PyExc) (attempt max_attempts : Z) :
  no_raise (_handle_capture_error drv e attempt max_attempts).
Proof.
  unfold _handle_capture_error.
  repeat apply no_raise_if;
    repeat (apply no_raise_bind; [|intros]);
    auto using no_raise_notify_disconnect with no_raise.
Qed.

Lemma no_raise_exceeded_retries : no_raise exceeded_retries.
Proof.
  unfold exceeded_retries. apply no_raise_bind; [apply no_raise_get|].
  intros s. apply no_raise_bind; auto with no_raise.
Qed.

(** The back-off delays of a well-formed handler are not negative. *)
Definition delays_ok (s : State) : Prop := Forall (fun delay => 0 <= delay) (_retry_delays s).

Lemma no_raise_retry_loop (delays : list Z) (attempt max_attempts : Z) :
  Forall (fun delay => 0 <= delay) delays ->
  no_raise (retry_loop drv delays attempt max_attempts).
Proof.
  intros Hd. revert attempt.
  induction Hd as [|delay rest Hdelay Hrest IH]; intros attempt; cbn [retry_loop].
  - apply no_raise_exceeded_retries.
  - apply no_raise_bind; [apply no_raise_caught|].
    intros [e|file_data]; [|apply no_raise_ret].
    apply no_raise_bind; [apply no_raise_handle_capture_error|].
    intros again. apply no_raise_if; [|apply no_raise_ret].
    apply no_raise_bind; [apply no_raise_sleep; exact Hdelay | intros _; apply IH].
Qed.

Lemma capture_preview_with_retry_returns (s : State) :
  delays_ok s ->
  exists file_data s', _capture_preview_with_retry drv s = (inr file_data, s').
Proof.
  intros Hd. unfold _capture_preview_with_retry, bind at 1, get at 1.
  apply no_raise_retry_loop. exact Hd.
Qed.

Lemma no_raise_process_frame_to_base64 (file_data : FileData) :
  no_raise (_process_frame_to_base64 drv file_data).
Proof.
  unfold _process_frame_to_base64. apply no_raise_try_except. intros e.
  repeat apply no_raise_if;
    repeat (apply no_raise_bind; [|intros]);
    auto using no_raise_notify_disconnect with no_raise.
Qed.


(** *** [release] *)

(** The assignments that end [release]. *)
Definition reset_state (s : State) : State :=
  upd_last_capture_ts 0
    (upd_io_error_counter 0
       (upd_orientation ORIENTATION_NORMAL
          (upd_lost_device false
             (upd_is_streaming false (upd_context None (upd_camera None s)))))).

(** [release] returns, and its last statements are the resets. *)
Lemma release_resets (s : State) :
  exists s1, release drv s = (inr tt, reset_state s1).
Proof.
  unfold release.
  destruct (no_raise_try_pass stop_tether s) as ([] & s1 & E1).
  rewrite (bind_run _ _ _ _ _ E1).
  unfold bind at 1, get at 1.
  assert (N2 : no_raise
            (match camera s1 with
             | Some _ =>
                 try_except (call CallCameraExit (camera_exit drv))
                   (fun _ => try_pass (call CallCameraExitMethod (camera_exit_method drv))) ;;;
                 _safe_unref drv "gp_camera_unref"
             | None => ret tt
             end)).
  { destruct (camera s1); [|apply no_raise_ret].
    apply no_raise_bind; [|intros; apply no_raise_safe_unref].
    apply no_raise_try_except. intros e. apply no_raise_try_pass. }
  destruct (N2 s1) as ([] & s2 & E2). rewrite (bind_run _ _ _ _ _ E2).
  unfold bind at 1, get at 1.
  assert (N3 : no_raise
            (match context s2 with
             | Some _ => _safe_unref drv "gp_context_unref"
             | None => ret tt
             end)).
  { destruct (context s2); [apply no_raise_safe_unref | apply no_raise_ret]. }
  destruct (N3 s2) as ([] & s3 & E3). rewrite (bind_run _ _ _ _ _ E3).
  exists s3. reflexivity.
Qed.

(** The teardown on a USB-lost or fatal capture error ends with [release]
    and the guarded callback, which only adds to the log of calls. *)
Lemma teardown_resets (err_str : string) (s : State) :
  exists s1 log,
    (modify (upd_lost_device true) ;;;
     try_pass (release drv) ;;;
     notify_disconnect drv err_str ;;;
     ret false) s = (inr false, upd_calls log (reset_state s1)).
Proof.
  unfold bind at 1, modify at 1.
  destruct (release_resets (upd_lost_device true s)) as (s1 & E1).
  assert (E1' : try_pass (release drv) (upd_lost_device true s) = (inr tt, reset_state s1)).
  { unfold try_pass, try_except. rewrite E1. reflexivity. }
  rewrite (bind_run _ _ _ _ _ E1').
  unfold notify_disconnect, try_pass, try_except, bind, get, ret, call.
  cbn [_disconnect_callback reset_state upd_last_capture_ts upd_io_error_counter
       upd_orientation upd_lost_device upd_is_streaming upd_context upd_camera].
  destruct (_disconnect_callback s1).
  - destruct (disconnect_callback_result drv _); eexists s1, _; reflexivity.
  - exists s1, (calls (reset_state s1)). destruct s1; reflexivity.
Qed.

(** C10. [release] always returns and leaves the session reset: no
    camera, no context, not streaming, not lost, normal orientation and an
    error counter of 0. The teardown on a session-loss error sets
    [lost_device] and then calls [release], so the flag reads false once
    the error handler has returned. *)
Theorem release_resets_session (s : State) :
  (exists s',
      release drv s = (inr tt, s') /\
      camera s' = None /\ context s' = None /\ is_streaming s' = false /\
      lost_device s' = false /\ orientation s' = ORIENTATION_NORMAL /\
      _io_error_counter s' = 0)
  /\
  (forall (e : PyExc) (attempt max_attempts : Z),
      is_io_busy e = false ->
      is_usb_lost (exc_str e) || is_fatal (exc_str e) = true ->
      exists s',
        _handle_capture_error drv e attempt max_attempts s = (inr false, s') /\
        lost_device s' = false /\ camera s' = None /\ context s' = None /\
        is_streaming s' = false /\ orientation s' = ORIENTATION_NORMAL /\
        _io_error_counter s' = 0).
Proof.
  split.
  - destruct (release_resets s) as (s1 & E). eexists. split; [exact E|].
    repeat split.
  - intros e attempt max_attempts Hbusy Hlost.
    unfold _handle_capture_error. rewrite Hbusy.
    destruct (teardown_resets (exc_str e) s) as (s1 & log & E).
    destruct (is_usb_lost (exc_str e)).
    + eexists. split; [exact E|]. repeat split.
    + cbn [orb] in Hlost. rewrite Hlost.
      eexists. split; [exact E|]. repeat split.
Qed.

(** *** The fast path of normal orientation *)

(** C6. With normal orientation a frame that passes the normalizer is
    returned without decoding or re-encoding: the result is the data URI
    of the base64 text of the normalized bytes, whatever OpenCV would
    answer, no call leaves the handler, and decoding the payload gives the
    normalized bytes back. *)
Theorem normal_orientation_fast_path
    (file_data : FileData) (normalized : bytes) (s : State) :
  orientation s = ORIENTATION_NORMAL ->
  _trim_to_eoi file_data = Some normalized ->
  exists frame s',
    _process_frame_to_base64 drv file_data s = (inr (Some frame), s') /\
    frame = data_uri_prefix ++ Base64.b64encode normalized /\
    decode_data_uri frame = Some normalized /\
    calls s' = calls s.
Proof.
  intros Ho Ht.
  pose proof (trim_to_eoi_length _ _ Ht) as L.
  unfold _process_frame_to_base64, try_except, process_frame. rewrite Ht.
  destruct normalized as [|x normalized]; [cbn in L; lia|].
  unfold bind at 1, get at 1. rewrite Ho. cbn [Z.eqb ORIENTATION_NORMAL Pos.eqb].
  eexists _, _. split; [reflexivity|].
  split; [reflexivity|]. split; [apply decode_data_uri_encode | reflexivity].
Qed.

(** *** Session loss *)

Lemma exceeded_retries_spec (s : State) :
  exceeded_retries s =
    (inr None,
     if _io_error_counter s >=? _io_error_threshold s then upd_lost_device true s else s).
Proof.
  unfold exceeded_retries, bind, get, when, modify, ret.
  destruct (_io_error_counter s >=? _io_error_threshold s); reflexivity.
Qed.

(** When every attempt meets an I/O-busy error the loop uses up the
    schedule, and the code after it marks the session lost if the counter
    has reached the threshold. *)
Lemma retry_loop_all_busy (delays : list Z) :
  Forall (fun delay => 0 <= delay) delays ->
  (forall s, exists e s1, capture_attempt drv s = (inl e, s1) /\ is_io_busy e = true) ->
  forall (attempt max_attempts : Z) (s : State),
  exists s',
    retry_loop drv delays attempt max_attempts s = (inr None, s') /\
    (_io_error_threshold s' <= _io_error_counter s' -> lost_device s' = true).
Proof.
  intros Hd Hbusy.
  induction Hd as [|delay rest Hdelay Hrest IH]; intros attempt max_attempts s;
    cbn [retry_loop].
  - rewrite exceeded_retries_spec. eexists. split; [reflexivity|].
    destruct (Z.geb_spec (_io_error_counter s) (_io_error_threshold s)) as [G|G].
    + intros _. reflexivity.
    + intros F. lia.
  - destruct (Hbusy s) as (e & s1 & E & B).
    assert (E1 : caught (capture_attempt drv) s = (inr (inl e), s1))
      by (unfold caught; rewrite E; reflexivity).
    rewrite (bind_run _ _ _ _ _ E1).
    unfold _handle_capture_error. rewrite B.
    unfold bind at 1. unfold bind at 1. unfold modify at 1. unfold ret at 1.
    unfold bind at 1, sleep at 1. destruct (Z.ltb_spec delay 0); [lia|].
    unfold call at 1. apply IH.
Qed.

Lemma no_raise_poll_events_unlocked : no_raise (_poll_events_unlocked drv).
Proof.
  unfold _poll_events_unlocked. apply no_raise_bind; [apply no_raise_get|].
  intros s. apply no_raise_if; [apply no_raise_ret|].
  destruct (camera s); [apply no_raise_try_pass | apply no_raise_ret].
Qed.

(** A driver whose preview capture always fails with [e] makes every
    attempt end with [e]. *)
Lemma capture_attempt_raises (e : PyExc) :
  (forall t, capture_preview drv t = Raises e) ->
  forall s, exists s1, capture_attempt drv s = (inl e, s1).
Proof.
  intros H s. unfold capture_attempt.
  destruct (no_raise_time_now s) as (now & s1 & E1). rewrite (bind_run _ _ _ _ _ E1).
  unfold bind at 1, get at 1.
  assert (N2 : no_raise
            (when (now - _last_capture_ts s1 <? _min_frame_interval s1)
               (sleep (_min_frame_interval s1 - (now - _last_capture_ts s1)))))
    by apply no_raise_rate_gate.
  destruct (N2 s1) as ([] & s2 & E2). rewrite (bind_run _ _ _ _ _ E2).
  destruct (no_raise_poll_events_unlocked s2) as ([] & s3 & E3).
  rewrite (bind_run _ _ _ _ _ E3).
  unfold bind at 1, call at 1. rewrite H. eexists. reflexivity.
Qed.


End Handler.

End HandlerFacts.

(** ** The frame acquisition engine on concrete inputs *)

Module HandlerExamples.
Import Py PyBytes PyStr Jpeg CameraHandler HandlerFacts.
Local Open Scope string_scope.
Local Open Scope Z_scope.

(** A frame as a camera sends it: SOI, two bytes of image data, EOI and
    two bytes of padding. *)
Definition padded_frame : bytes := [xff; xd8; x01; x02; xff; xd9; x00; x00].

Definition busy : PyExc := mkExc "[-110] I/O in progress" (Some (-110)).
Definition usb_gone : PyExc := mkExc "[-52] Could not find the requested device on the USB port" (Some (-52)).

(** A driver that answers every call, one second apart, except that the
    preview capture follows [capture]. *)
Definition driver (capture : nat -> Outcome nat) : Driver :=
  mkDriver (fun t => 1000 * Z.of_nat t)
    (fun _ => Returns 1%nat) (fun _ => Returns 2%nat) (fun _ => Returns tt)
    (fun _ => Returns ["Sony ILCE-7M3"])
    (fun _ => []) capture (fun _ => Returns (FDMemoryview padded_frame))
    (fun _ => Returns tt) (fun _ => Returns tt) (fun _ => Returns tt)
    (fun _ => Returns tt) (fun _ => Returns tt)
    (fun _ => Returns tt) (fun _ => Returns tt) (fun _ => true) (fun _ => Returns tt)
    (fun _ => Returns None) (fun img _ => Returns img) (fun _ => Returns (false, [])).

Definition driver_ok : Driver := driver (fun _ => Returns 3%nat).
Definition driver_busy : Driver := driver (fun _ => Raises busy).

(** Busy for the first [n] calls, then answering. *)
Definition driver_busy_until (n : nat) : Driver :=
  driver (fun t => if (t <? n)%nat then Raises busy else Returns 3%nat).

(** The handler after a [connect] that succeeded. *)
Definition connected : State := snd (connect driver_ok init).

Example connected_state :
  camera connected = Some 2%nat /\ lost_device connected = false.
Proof. split; reflexivity. Qed.

Example get_frame_ok :
  fst (get_frame_base64 driver_ok connected) = inr (Some "data:image/jpeg;base64,/9gBAv/Z").
Proof. vm_compute. reflexivity. Qed.

(** Two ticks of three busy attempts each: the counter reaches 6 and the
    second tick marks the session lost; the camera handle stays. *)
Definition after_two_busy_ticks : State :=
  snd (get_frame_base64 (driver_busy_until 22)
         (snd (get_frame_base64 (driver_busy_until 22) connected))).

Example after_two_busy_ticks_state :
  lost_device after_two_busy_ticks = true /\
  _io_error_counter after_two_busy_ticks = 6 /\
  camera after_two_busy_ticks = Some 2%nat /\
  length (calls after_two_busy_ticks) = 22%nat.
Proof. vm_compute. repeat split. Qed.


Example capture_after_lost_returns_frame :
  fst (get_frame_base64 (driver_busy_until 22) after_two_busy_ticks)
  = inr (Some "data:image/jpeg;base64,/9gBAv/Z").
Proof. vm_compute. reflexivity. Qed.


Example busy_schedule_marks_lost :
  lost_device (snd (_capture_preview_with_retry driver_busy (upd_io_error_counter 2 connected)))
  = true.
Proof. vm_compute. reflexivity. Qed.


Lemma normal_orientation_fast_path_witness :
  exists frame s',
    _process_frame_to_base64 driver_ok (FDBytes padded_frame) connected
      = (inr (Some frame), s') /\
    frame = data_uri_prefix ++ Base64.b64encode [xff; xd8; x01; x02; xff; xd9] /\
    decode_data_uri frame = Some [xff; xd8; x01; x02; xff; xd9] /\
    calls s' = calls connected.
Proof.
  apply (normal_orientation_fast_path driver_ok (FDBytes padded_frame)
           [xff; xd8; x01; x02; xff; xd9] connected); reflexivity.
Defined.

Lemma release_resets_session_witness :
  exists s',
    _handle_capture_error driver_ok usb_gone 1 3 connected = (inr false, s') /\
    lost_device s' = false /\ camera s' = None /\ context s' = None /\
    is_streaming s' = false /\ orientation s' = ORIENTATION_NORMAL /\
    _io_error_counter s' = 0.
Proof.
  apply (proj2 (release_resets_session driver_ok connected) usb_gone 1 3);
    reflexivity.
Defined.

End HandlerExamples.

(** ** RAW and JPEG pairing *)

Module PairingFacts.
Import Py PyFacts PyBytes PyStr ImagePreview CacheFacts.
Local Open Scope string_scope.
Local Open Scope Z_scope.
Local Open Scope py_scope.

(** The state [_replace_or_add_cached] leaves (with a bound that is not
    negative). *)
Definition cache_insert (cached : CachedImage) (s : State) : State :=
  match list_find (fun e => base_of e = base_of cached) (_cache s) with
  | Some (idx, _) =>
      set_shown (notified cached s)
        (set_current_index (Z.of_nat idx) (set_cache (<[idx := cached]> (_cache s)) s))
  | None =>
      set_shown (notified cached s)
        (set_current_index (Z.of_nat (length (appended cached s)) - 1)
           (set_cache (appended cached s) s))
  end.

Lemma replace_or_add_cached_run (cached : CachedImage) (s : State) :
  0 <= max_cache_size s ->
  _replace_or_add_cached cached s = (inr tt, cache_insert cached s).
Proof.
  intros H. unfold cache_insert.
  destruct (list_find (fun e => base_of e = base_of cached) (_cache s)) as [[idx e]|] eqn:F.
  - apply (replace_found _ _ _ _ F).
  - rewrite (replace_not_found _ _ F). apply add_to_cache_spec. exact H.
Qed.

(** It touches the cache, the cursor and the callback log only. *)
Lemma cache_insert_frame (cached : CachedImage) (s : State) :
  fs (cache_insert cached s) = fs s /\
  dirs (cache_insert cached s) = dirs s /\
  _pending_raw (cache_insert cached s) = _pending_raw s /\
  tasks (cache_insert cached s) = tasks s /\
  clock (cache_insert cached s) = clock s /\
  download_dir (cache_insert cached s) = download_dir s /\
  max_cache_size (cache_insert cached s) = max_cache_size s /\
  _pair_timeout (cache_insert cached s) = _pair_timeout s /\
  _preview_callback (cache_insert cached s) = _preview_callback s.
Proof.
  unfold cache_insert.
  destruct (list_find _ _) as [[idx e]|]; repeat split.
Qed.

Section FilterInsert.
Context {A : Type} (P : A -> Prop) `{!forall x, Decision (P x)}.

Lemma filter_nil_drop (n : nat) (l : list A) :
  filter P l = [] -> filter P (drop n l) = [].
Proof.
  intros E. rewrite <- (take_drop n l), filter_app in E.
  apply app_eq_nil in E. tauto.
Qed.

Lemma filter_insert_single (l : list A) (i : nat) (x y : A) :
  l !! i = Some y -> P y -> P x -> length (filter P l) = 1%nat ->
  filter P (<[i := x]> l) = [x].
Proof.
  revert i. induction l as [|a l IH]; intros i Hi Hy Hx Hone; [discriminate|].
  destruct i as [|i]; cbn in Hi; cbn [insert list_insert].
  - injection Hi as ->. rewrite filter_cons_True in Hone by exact Hy.
    rewrite filter_cons_True by exact Hx.
    cbn in Hone. destruct (filter P l); [reflexivity | discriminate].
  - destruct (decide (P a)) as [Pa|Pa].
    + rewrite filter_cons_True in Hone by exact Pa. cbn in Hone.
      assert (E : filter P l = []) by (destruct (filter P l); [reflexivity | discriminate]).
      exfalso. apply (filter_nil_not_elem_of P l y E Hy).
      apply list_elem_of_lookup. eauto.
    + rewrite filter_cons_False in Hone by exact Pa.
      rewrite filter_cons_False by exact Pa.
      apply IH; assumption.
Qed.

End FilterInsert.

(** After the insertion the cache holds exactly one entry of the base
    name of the new image, the new image itself, if it held at most one
    before. *)
Lemma entries_for_cache_insert (cached : CachedImage) (s : State) :
  1 <= max_cache_size s ->
  (length (entries_for (base_of cached) s) <= 1)%nat ->
  entries_for (base_of cached) (cache_insert cached s) = [cached].
Proof.
  intros Hmax Hone. unfold entries_for in *. unfold cache_insert.
  change (fun entry => fst (splitext (filename entry)) = base_of cached)
    with (fun e => base_of e = base_of cached) in *.
  destruct (list_find (fun e => base_of e = base_of cached) (_cache s)) as [[idx e]|] eqn:F;
    cbn [_cache set_shown set_current_index set_cache].
  - apply list_find_Some in F. destruct F as (Hidx & He & _).
    apply (filter_insert_single _ _ _ _ e); auto.
    destruct (filter _ (_cache s)) as [|a [|b l]] eqn:E;
      [|reflexivity | cbn in Hone; lia].
    exfalso. eapply (filter_nil_not_elem_of _ _ e E He).
    apply list_elem_of_lookup. eauto.
  - apply list_find_None in F.
    assert (E : filter (fun e => base_of e = base_of cached) (_cache s) = []).
    { destruct (filter _ (_cache s)) as [|a l] eqn:E; [reflexivity|].
      assert (In : a ∈ a :: l) by left.
      rewrite <- E in In.
      apply list_elem_of_filter in In. destruct In as [Pa Ia].
      rewrite Forall_forall in F. exfalso. exact (F a Ia Pa). }
    unfold appended. rewrite drop_app_le by lia.
    rewrite filter_app, (filter_nil_drop _ _ _ E).
    cbn [app]. rewrite filter_cons_True by reflexivity. reflexivity.
Qed.

(** *** Files *)

Lemma path_exists_file (s : State) (p : string) (content : bytes) :
  fs s !! p = Some content -> path_exists s p = true.
Proof. intros H. unfold path_exists. rewrite H. reflexivity. Qed.

(** Deleting what is not a file changes nothing: there is no such path,
    or [os.remove] raises and the exception is swallowed. *)
Lemma safe_delete_missing (env : Env) (p : string) (s : State) :
  fs s !! p = None -> _safe_delete env p s = (inr tt, s).
Proof.
  intros H. unfold _safe_delete, try_pass, try_except, bind, get.
  destruct (path_exists s p); [|reflexivity].
  unfold remove. destruct (io_fails env (OpRemove p)); [reflexivity|].
  unfold bind, get. rewrite H. destruct (bool_decide (p ∈ dirs s)); reflexivity.
Qed.

Lemma safe_delete_file (env : Env) (p : string) (content : bytes) (s : State) :
  fs s !! p = Some content -> io_fails env (OpRemove p) = None ->
  _safe_delete env p s = (inr tt, set_fs (delete p (fs s)) s).
Proof.
  intros H Hio. unfold _safe_delete, try_pass, try_except, bind, get.
  rewrite (path_exists_file _ _ _ H). unfold remove. rewrite Hio.
  unfold bind, get. rewrite H. reflexivity.
Qed.

(** *** What the two processing paths write *)

Definition thumbnail_of (env : Env) (file : option bytes) : option bytes :=
  match rawpy_thumbnail env file with
  | Some data => Some data
  | None => manual_thumbnail file
  end.

Lemma thumbnail_of_missing (env : Env) : thumbnail_of env None = None.
Proof. unfold thumbnail_of, rawpy_thumbnail. destruct (HAS_RAWPY env); reflexivity. Qed.

(** Open with PIL, rotate as EXIF says, save as JPEG. *)
Definition pil_reencode (env : Env) (data : bytes) : Outcome bytes :=
  and_then (pil_open env data)
           (fun img => pil_save_jpeg env (_apply_exif_rotation env img)).

(** The bytes [_process_raw_file] stores for an extracted thumbnail. *)
Definition stored_thumbnail (env : Env) (thumb : bytes) : Outcome bytes :=
  if HAS_PIL env then pil_reencode env thumb else Returns thumb.

(** The bytes [_process_jpeg_file] stores for the JPEG at [src]. *)
Definition stored_jpeg (env : Env) (src dst : string) (content : bytes) : Outcome bytes :=
  if HAS_PIL env then pil_reencode env content
  else if String.eqb src dst then Raises (SameFileError src)
  else Returns content.

(** Where the processed image of a base name is stored. *)
Definition normalized_path (env : Env) (s : State) (base_name : string) : string :=
  abspath env (join (download_dir s) (base_name ++ ".jpg")).

Section Processing.
Variable env : Env.

Lemma process_raw_file_missing (raw_path : string) (s : State) :
  fs s !! raw_path = None -> _process_raw_file env raw_path s = (inr tt, s).
Proof.
  intros H. unfold _process_raw_file, try_pass, try_except, bind, get.
  unfold _extract_jpeg_from_raw. rewrite H.
  fold (thumbnail_of env None). rewrite thumbnail_of_missing. reflexivity.
Qed.

Lemma process_raw_file_ok
    (raw_path : string) (content thumb data : bytes) (s : State) :
  fs s !! raw_path = Some content ->
  thumbnail_of env (Some content) = Some thumb ->
  thumb <> [] ->
  stored_thumbnail env thumb = Returns data ->
  let base_name := fst (splitext (basename raw_path)) in
  let jpeg_filepath := normalized_path env s base_name in
  let cached := mkCachedImage jpeg_filepath (base_name ++ ".jpg") (clock s) false in
  io_fails env (OpWrite jpeg_filepath) = None ->
  io_fails env (OpRemove raw_path) = None ->
  0 <= max_cache_size s ->
  _process_raw_file env raw_path s =
    (inr tt,
     set_fs (delete raw_path (<[jpeg_filepath := data]> (fs s)))
       (cache_insert cached (set_fs (<[jpeg_filepath := data]> (fs s)) s))).
Proof.
  intros Hfs Hthumb Hne Hstored base_name jpeg_filepath cached Hw Hr Hmax.
  unfold _process_raw_file. eapply try_pass_run.
  unfold bind at 1, get at 1. unfold _extract_jpeg_from_raw. rewrite Hfs.
  fold (thumbnail_of env (Some content)). rewrite Hthumb.
  destruct thumb as [|t0 thumb]; [congruence|].
  fold base_name. fold (normalized_path env s base_name). fold jpeg_filepath.
  assert (W : (if HAS_PIL env
               then img <- of_outcome (pil_open env (t0 :: thumb)) ;;
                    data0 <- of_outcome (pil_save_jpeg env (_apply_exif_rotation env img)) ;;
                    write_file env jpeg_filepath data0
               else write_file env jpeg_filepath (t0 :: thumb)) s
              = (inr tt, set_fs (<[jpeg_filepath := data]> (fs s)) s)).
  { unfold stored_thumbnail, pil_reencode in Hstored.
    destruct (HAS_PIL env).
    - unfold bind, of_outcome, write_file.
      destruct (pil_open env (t0 :: thumb)) as [img|e]; [|discriminate].
      cbn [and_then] in Hstored. unfold ret at 1. rewrite Hstored. unfold ret at 1.
      rewrite Hw. reflexivity.
    - injection Hstored as <-. unfold write_file. rewrite Hw. reflexivity. }
  rewrite (bind_run _ _ _ _ _ W).
  unfold bind at 1, gets at 1. cbn [clock set_fs]. fold cached.
  rewrite (bind_run _ _ _ _ _
             (replace_or_add_cached_run cached (set_fs (<[jpeg_filepath:=data]> (fs s)) s) Hmax)).
  destruct (cache_insert_frame cached (set_fs (<[jpeg_filepath:=data]> (fs s)) s)) as (F & _).
  cbn [fs set_fs] in F.
  set (s2 := cache_insert cached (set_fs (<[jpeg_filepath:=data]> (fs s)) s)) in *.
  assert (D : _safe_delete env raw_path s2 = (inr tt, set_fs (delete raw_path (fs s2)) s2)).
  { apply safe_delete_file with (content := match decide (raw_path = jpeg_filepath) with
                                            | left _ => data | right _ => content end);
      [|exact Hr].
    rewrite F. destruct (decide (raw_path = jpeg_filepath)) as [E|N].
    - rewrite E. apply lookup_insert_eq.
    - rewrite lookup_insert_ne by congruence. exact Hfs. }
  rewrite (try_pass_run _ _ _ _ D), F. reflexivity.
Qed.

Lemma read_file_ok (p : string) (content : bytes) (s : State) :
  fs s !! p = Some content -> read_file p s = (inr content, s).
Proof. intros H. unfold read_file, bind, get. rewrite H. reflexivity. Qed.

Lemma process_jpeg_file_ok (jpeg_path : string) (content data : bytes) (s : State) :
  fs s !! jpeg_path = Some content ->
  let base_name := fst (splitext (basename jpeg_path)) in
  let jpeg_filepath := normalized_path env s base_name in
  let cached := mkCachedImage jpeg_filepath (base_name ++ ".jpg") (clock s) false in
  stored_jpeg env jpeg_path jpeg_filepath content = Returns data ->
  io_fails env (OpWrite jpeg_filepath) = None ->
  0 <= max_cache_size s ->
  _process_jpeg_file env jpeg_path s =
    (inr tt, cache_insert cached (set_fs (<[jpeg_filepath := data]> (fs s)) s)).
Proof.
  intros Hfs base_name jpeg_filepath cached Hstored Hw Hmax.
  unfold _process_jpeg_file. eapply try_pass_run.
  fold base_name. unfold bind at 1, get at 1.
  fold (normalized_path env s base_name). fold jpeg_filepath.
  assert (W : (if HAS_PIL env
               then content0 <- read_file jpeg_path ;;
                    img <- of_outcome (pil_open env content0) ;;
                    data0 <- of_outcome (pil_save_jpeg env (_apply_exif_rotation env img)) ;;
                    write_file env jpeg_filepath data0
               else copy2 env jpeg_path jpeg_filepath) s
              = (inr tt, set_fs (<[jpeg_filepath := data]> (fs s)) s)).
  { unfold stored_jpeg, pil_reencode in Hstored.
    destruct (HAS_PIL env).
    - rewrite (bind_run _ _ _ _ _ (read_file_ok _ _ _ Hfs)).
      unfold bind, of_outcome, write_file.
      destruct (pil_open env content) as [img|e]; [|discriminate].
      cbn [and_then] in Hstored. unfold ret at 1. rewrite Hstored. unfold ret at 1.
      rewrite Hw. reflexivity.
    - unfold copy2. rewrite (bind_run _ _ _ _ _ (read_file_ok _ _ _ Hfs)).
      unfold write_file.
      destruct (String.eqb jpeg_path jpeg_filepath); [discriminate|].
      injection Hstored as <-. rewrite Hw. reflexivity. }
  rewrite (bind_run _ _ _ _ _ W).
  unfold bind at 1, gets at 1. cbn [clock set_fs]. fold cached.
  apply (replace_or_add_cached_run cached (set_fs (<[jpeg_filepath:=data]> (fs s)) s) Hmax).
Qed.

(** *** Notices *)

(** A RAW file with no JPEG sibling on disk: it is recorded as pending,
    and the extraction thread and the timer are started. *)
Lemma raw_notice (raw_path filetype : string) (s : State) :
  path_exists s raw_path = true ->
  startswith (lower (basename raw_path)) "capt_" = false ->
  ext_in (lower (snd (splitext (basename raw_path)))) RAW_EXTENSIONS = true ->
  _find_jpeg_pair s raw_path = None ->
  let base_name := fst (splitext (basename raw_path)) in
  process_downloaded_file env raw_path filetype s =
    (inr tt,
     set_tasks (tasks s ++ [ThreadProcessRaw raw_path;
                            TimerClearPending (clock s + _pair_timeout s) base_name])%list
       (set_pending_raw (<[base_name := (raw_path, clock s)]> (_pending_raw s)) s)).
Proof.
  intros He Hcapt Hraw Hpair base_name.
  unfold process_downloaded_file. unfold bind at 1, get at 1. rewrite He. cbn [negb].
  rewrite Hcapt. unfold bind at 1, ret at 1. cbn [fst snd].
  rewrite Hraw. unfold bind at 1, gets at 1. unfold bind at 1, get at 1.
  rewrite Hpair. fold base_name.
  unfold bind, spawn, get, modify. cbn [tasks set_tasks set_pending_raw clock _pair_timeout].
  rewrite <- app_assoc. reflexivity.
Qed.

(** A JPEG whose base name is pending: the pending entry is consumed, the
    JPEG is processed and the RAW file is deleted. *)
Lemma jpeg_notice_pending (jpeg_path filetype raw_path : string) (t : Z) (s : State) :
  path_exists s jpeg_path = true ->
  startswith (lower (basename jpeg_path)) "capt_" = false ->
  ext_in (lower (snd (splitext (basename jpeg_path)))) RAW_EXTENSIONS = false ->
  let base_name := fst (splitext (basename jpeg_path)) in
  _pending_raw s !! base_name = Some (raw_path, t) ->
  process_downloaded_file env jpeg_path filetype s =
    (_process_jpeg_file env jpeg_path ;;; _safe_delete env raw_path)
      (set_pending_raw (delete base_name (_pending_raw s)) s).
Proof.
  intros He Hcapt Hjpeg base_name Hpending.
  unfold process_downloaded_file. unfold bind at 1, get at 1. rewrite He. cbn [negb].
  rewrite Hcapt. unfold bind at 1, ret at 1. cbn [fst snd].
  rewrite Hjpeg. unfold bind at 1, gets at 1. unfold bind at 1, get at 1.
  fold base_name. rewrite Hpending.
  unfold bind at 1, modify at 1. reflexivity.
Qed.

(** *** The timer *)

Lemma clear_pending_raw_absent (base_name : string) (s : State) :
  _pending_raw s !! base_name = None -> _clear_pending_raw base_name s = (inr tt, s).
Proof.
  intros H. unfold _clear_pending_raw, bind, get. rewrite H. reflexivity.
Qed.

Lemma clear_pending_raw_gone (base_name raw_path : string) (t : Z) (s : State) :
  _pending_raw s !! base_name = Some (raw_path, t) ->
  path_exists s raw_path = false ->
  _clear_pending_raw base_name s =
    (inr tt, set_pending_raw (delete base_name (_pending_raw s)) s).
Proof.
  intros H He. unfold _clear_pending_raw, bind, get, modify. rewrite H.
  change (path_exists (set_pending_raw _ s) raw_path) with (path_exists s raw_path).
  rewrite He. reflexivity.
Qed.

(** *** Events *)

Lemma step_download (p filetype : string) (content : bytes) (s : State) :
  step env (Download p content filetype) s =
    process_downloaded_file env p filetype (set_fs (<[p := content]> (fs s)) s).
Proof. reflexivity. Qed.

Lemma step_run_thread (i : nat) (p : string) (s : State) :
  tasks s !! i = Some (ThreadProcessRaw p) ->
  step env (Run i) s = _process_raw_file env p (set_tasks (delete i (tasks s)) s).
Proof.
  intros H. cbn [step]. unfold bind at 1, get at 1. rewrite H. reflexivity.
Qed.

Lemma step_run_timer_due (i : nat) (due : Z) (base_name : string) (s : State) :
  tasks s !! i = Some (TimerClearPending due base_name) ->
  due <= clock s ->
  step env (Run i) s = _clear_pending_raw base_name (set_tasks (delete i (tasks s)) s).
Proof.
  intros H Hdue. cbn [step]. unfold bind at 1, get at 1. rewrite H. cbn [runnable].
  destruct (Z.leb_spec due (clock s)); [reflexivity | lia].
Qed.

Lemma step_run_timer_early (i : nat) (due : Z) (base_name : string) (s : State) :
  tasks s !! i = Some (TimerClearPending due base_name) ->
  clock s < due ->
  step env (Run i) s = (inr tt, s).
Proof.
  intros H Hdue. cbn [step]. unfold bind at 1, get at 1. rewrite H. cbn [runnable].
  destruct (Z.leb_spec due (clock s)); [lia | reflexivity].
Qed.

End Processing.

Lemma lookup_started {A} (l : list A) (x : A) (rest : list A) :
  (l ++ x :: rest)%list !! length l = Some x.
Proof. rewrite lookup_app_r by lia. rewrite Nat.sub_diag. reflexivity. Qed.

Lemma delete_started {A} (l : list A) (x : A) (rest : list A) :
  delete (length l) (l ++ x :: rest)%list = (l ++ rest)%list.
Proof.
  induction l as [|a l IH]; [reflexivity|]. cbn. f_equal. exact IH.
Qed.

(** The entry a processing path makes for the file at [path] at time [t]. *)
Definition processed_entry (env : Env) (s : State) (path : string) (t : Z) : CachedImage :=
  let base_name := fst (splitext (basename path)) in
  mkCachedImage (normalized_path env s base_name) (base_name ++ ".jpg") t false.

(** Projections through the setters. *)
Ltac state_simpl :=
  cbn [download_dir max_cache_size _cache _current_index _preview_callback _pending_raw
       _pair_timeout fs dirs clock shown tasks
       set_cache set_current_index set_preview_callback set_pending_raw set_fs set_dirs
       set_clock set_shown set_tasks] in *.

(** *** A RAW file alone *)

Section Pairing.
Variable env : Env.
Variable s : State.
Variables raw_path filetype : string.
Variables content thumb data : bytes.

Let base_name := fst (splitext (basename raw_path)).
Let jpeg_filepath := normalized_path env s base_name.
Let cached := processed_entry env s raw_path (clock s).
Let due := clock s + _pair_timeout s.

Hypothesis Hcapt : startswith (lower (basename raw_path)) "capt_" = false.
Hypothesis Hraw :
  ext_in (lower (snd (splitext (basename raw_path)))) RAW_EXTENSIONS = true.
Hypothesis Hpair :
  _find_jpeg_pair (set_fs (<[raw_path := content]> (fs s)) s) raw_path = None.
Hypothesis Hne : raw_path <> jpeg_filepath.
Hypothesis Hthumb : thumbnail_of env (Some content) = Some thumb.
Hypothesis Hthumb_ne : thumb <> [].
Hypothesis Hstored : stored_thumbnail env thumb = Returns data.
Hypothesis Hwrite : io_fails env (OpWrite jpeg_filepath) = None.
Hypothesis Hremove : io_fails env (OpRemove raw_path) = None.
Hypothesis Hmax : 1 <= max_cache_size s.

(** After the notice: pending, thread and timer started. *)
Definition raw_noticed : State :=
  set_tasks (tasks s ++ [ThreadProcessRaw raw_path; TimerClearPending due base_name])%list
    (set_pending_raw (<[base_name := (raw_path, clock s)]> (_pending_raw s))
       (set_fs (<[raw_path := content]> (fs s)) s)).

Lemma raw_noticed_run :
  step env (Download raw_path content filetype) s = (inr tt, raw_noticed).
Proof.
  rewrite step_download. apply raw_notice; auto.
  apply path_exists_file with (content := content). cbn [fs set_fs].
  apply lookup_insert_eq.
Qed.

(** After the thread has run: thumbnail stored and cached, RAW deleted. *)
Definition raw_extracted : State :=
  let s1 :=
    set_tasks (tasks s ++ [TimerClearPending due base_name])%list
      (set_pending_raw (<[base_name := (raw_path, clock s)]> (_pending_raw s))
         (set_fs (<[raw_path := content]> (fs s)) s)) in
  set_fs (delete raw_path (<[jpeg_filepath := data]> (fs s1)))
    (cache_insert cached (set_fs (<[jpeg_filepath := data]> (fs s1)) s1)).

Lemma raw_extracted_run :
  step env (Run (length (tasks s))) raw_noticed = (inr tt, raw_extracted).
Proof.
  rewrite (step_run_thread env _ raw_path) by (cbn [tasks raw_noticed set_tasks]; apply lookup_started).
  cbn [tasks raw_noticed set_tasks]. rewrite delete_started.
  apply (process_raw_file_ok env raw_path content thumb data); auto.
  - unfold raw_noticed. cbn [fs set_tasks set_pending_raw set_fs]. apply lookup_insert_eq.
  - unfold raw_noticed. cbn [max_cache_size set_tasks set_pending_raw set_fs]. lia.
Qed.

Hypothesis Hdirs : raw_path ∉ dirs s.
Hypothesis Htimeout : 0 < _pair_timeout s.
Hypothesis Hfresh : entries_for (base_of cached) s = [].

Lemma raw_extracted_frame :
  fs raw_extracted = delete raw_path (<[jpeg_filepath := data]> (<[raw_path := content]> (fs s))) /\
  dirs raw_extracted = dirs s /\
  _pending_raw raw_extracted = <[base_name := (raw_path, clock s)]> (_pending_raw s) /\
  tasks raw_extracted = (tasks s ++ [TimerClearPending due base_name])%list /\
  clock raw_extracted = clock s.
Proof.
  unfold raw_extracted. cbv zeta.
  match goal with
  | |- context [cache_insert ?c ?x] =>
      destruct (cache_insert_frame c x) as (F1 & F2 & F3 & F4 & F5 & _)
  end.
  cbn [fs dirs _pending_raw tasks clock set_fs]. rewrite F2, F3, F4, F5.
  repeat split.
Qed.

Lemma raw_extracted_config :
  download_dir raw_extracted = download_dir s /\
  max_cache_size raw_extracted = max_cache_size s.
Proof.
  unfold raw_extracted. cbv zeta.
  match goal with
  | |- context [cache_insert ?c ?x] =>
      destruct (cache_insert_frame c x) as (_ & _ & _ & _ & _ & F6 & F7 & _)
  end.
  cbn [download_dir max_cache_size set_fs]. rewrite F6, F7. repeat split.
Qed.

Lemma raw_extracted_entries :
  entries_for (base_of cached) raw_extracted = [cached].
Proof.
  unfold raw_extracted. cbv zeta. unfold entries_for. cbn [_cache set_fs].
  match goal with
  | |- context [cache_insert ?c ?x] =>
      apply (entries_for_cache_insert c x)
  end.
  - cbn [max_cache_size set_fs set_tasks set_pending_raw]. exact Hmax.
  - unfold entries_for in *. cbn [_cache set_fs set_tasks set_pending_raw].
    rewrite Hfresh. cbn. lia.
Qed.

Lemma raw_extracted_files :
  fs raw_extracted !! jpeg_filepath = Some data /\
  fs raw_extracted !! raw_path = None /\
  path_exists raw_extracted raw_path = false.
Proof.
  destruct raw_extracted_frame as (F & D & _). rewrite F.
  assert (N : delete raw_path (<[jpeg_filepath:=data]> (<[raw_path:=content]> (fs s)))
              !! raw_path = None) by apply lookup_delete_eq.
  repeat split.
  - rewrite lookup_delete_ne by exact Hne. apply lookup_insert_eq.
  - exact N.
  - unfold path_exists. rewrite F, N, D.
    rewrite (bool_decide_eq_false_2 _ Hdirs). reflexivity.
Qed.

(** Before its due time the timer cannot run. *)
Lemma timer_early_run :
  step env (Run (length (tasks s))) raw_extracted = (inr tt, raw_extracted).
Proof.
  destruct raw_extracted_frame as (_ & _ & _ & T & C).
  apply (step_run_timer_early env _ due base_name).
  - rewrite T. apply lookup_started.
  - rewrite C. unfold due. lia.
Qed.

(** After the timeout the timer only clears the pending entry. *)
Definition raw_cleared (dt : Z) : State :=
  set_pending_raw (delete base_name (_pending_raw raw_extracted))
    (set_tasks (tasks s) (set_clock (clock raw_extracted + Z.max 0 dt) raw_extracted)).

Lemma raw_cleared_run (dt : Z) :
  _pair_timeout s <= dt ->
  run_events env [Wait dt; Run (length (tasks s))] raw_extracted = raw_cleared dt.
Proof.
  intros Hdt. destruct raw_extracted_frame as (_ & _ & P & T & C).
  destruct raw_extracted_files as (_ & _ & E).
  cbn [run_events]. change (snd (step env (Wait dt) raw_extracted))
    with (set_clock (clock raw_extracted + Z.max 0 dt) raw_extracted).
  rewrite (step_run_timer_due env _ due base_name).
  - cbn [tasks set_clock]. rewrite T, delete_started, app_nil_r.
    rewrite (clear_pending_raw_gone base_name raw_path (clock s)).
    + reflexivity.
    + cbn [_pending_raw set_tasks set_clock]. rewrite P. apply lookup_insert_eq.
    + exact E.
  - cbn [tasks set_clock]. rewrite T. apply lookup_started.
  - cbn [clock set_clock]. rewrite C. unfold due. lia.
Qed.

Lemma raw_extracted_shown : shown raw_extracted = notified cached s.
Proof.
  unfold raw_extracted, cache_insert. cbv zeta.
  destruct (list_find _ _) as [[idx e]|]; reflexivity.
Qed.

Lemma raw_only_run :
  run_events env [Download raw_path content filetype; Run (length (tasks s))] s
  = raw_extracted.
Proof.
  cbn [run_events]. rewrite raw_noticed_run. cbn [snd].
  rewrite raw_extracted_run. reflexivity.
Qed.

(** C7. A RAW file alone, with no JPEG sibling on disk: the thread that
    the notice starts extracts, stores and caches the embedded thumbnail
    and deletes the RAW file as soon as it runs, while the timer is not
    due yet and the entry is still pending; when the timer runs after the
    timeout it clears the pending entry and processes nothing. The cache
    then holds exactly one entry of that base name, the one the thread
    made. *)
Theorem raw_only_processed_before_timeout (dt : Z) :
  _pair_timeout s <= dt ->
  let k := length (tasks s) in
  let s2 := run_events env [Download raw_path content filetype; Run k] s in
  let s4 := run_events env [Wait dt; Run k] s2 in
  (entries_for (base_of cached) s2 = [cached] /\
   shown s2 = notified cached s /\
   fs s2 !! jpeg_filepath = Some data /\
   fs s2 !! raw_path = None /\
   clock s2 < due /\
   tasks s2 = (tasks s ++ [TimerClearPending due base_name])%list /\
   _pending_raw s2 !! base_name = Some (raw_path, clock s) /\
   step env (Run k) s2 = (inr tt, s2))
  /\
  (_cache s4 = _cache s2 /\
   shown s4 = shown s2 /\
   fs s4 = fs s2 /\
   _pending_raw s4 !! base_name = None /\
   tasks s4 = tasks s).
Proof.
  intros Hdt k s2 s4. subst s4 s2 k.
  rewrite raw_only_run, (raw_cleared_run dt Hdt).
  destruct raw_extracted_frame as (F & D & P & T & C).
  destruct raw_extracted_files as (F1 & F2 & _).
  split; [repeat split|repeat split].
  - apply raw_extracted_entries.
  - apply raw_extracted_shown.
  - exact F1.
  - exact F2.
  - rewrite C. unfold due. lia.
  - exact T.
  - rewrite P. apply lookup_insert_eq.
  - apply timer_early_run.
  - unfold raw_cleared. cbn [_pending_raw set_pending_raw]. apply lookup_delete_eq.
Qed.

(** *** A RAW file, then its JPEG sibling *)

Variables jpeg_path jpeg_filetype : string.
Variables jpeg_content jpeg_data : bytes.
Variable dt1 : Z.

Let jpeg_cached := processed_entry env s jpeg_path (clock s + dt1).

Hypothesis Jcapt : startswith (lower (basename jpeg_path)) "capt_" = false.
Hypothesis Jext :
  ext_in (lower (snd (splitext (basename jpeg_path)))) RAW_EXTENSIONS = false.
Hypothesis Jbase : fst (splitext (basename jpeg_path)) = base_name.
Hypothesis Jstored : stored_jpeg env jpeg_path jpeg_filepath jpeg_content = Returns jpeg_data.
Hypothesis Hdt1 : 0 <= dt1 < _pair_timeout s.

Lemma jpeg_path_not_raw : jpeg_path <> raw_path.
Proof. intros E. rewrite E in Jext. rewrite Hraw in Jext. discriminate. Qed.

Lemma jpeg_cached_base : base_of jpeg_cached = base_of cached.
Proof.
  unfold jpeg_cached, cached, processed_entry, base_of. cbn [filename].
  fold base_name. rewrite Jbase. reflexivity.
Qed.

(** The JPEG notice on a state [x] that differs from [s] in its cache,
    files, tasks, pending entries and clock only, and where the RAW entry
    is pending. *)
Lemma jpeg_notice_run (x : State) :
  download_dir x = download_dir s ->
  max_cache_size x = max_cache_size s ->
  clock x = clock s + dt1 ->
  _pending_raw x !! base_name = Some (raw_path, clock s) ->
  let x1 := set_pending_raw (delete base_name (_pending_raw x))
              (set_fs (<[jpeg_path := jpeg_content]> (fs x)) x) in
  let x2 := cache_insert jpeg_cached
              (set_fs (<[jpeg_filepath := jpeg_data]> (<[jpeg_path := jpeg_content]> (fs x))) x1) in
  step env (Download jpeg_path jpeg_content jpeg_filetype) x =
    _safe_delete env raw_path x2.
Proof.
  intros Hd Hm Hc Hp x1 x2. rewrite step_download.
  rewrite (jpeg_notice_pending env jpeg_path jpeg_filetype raw_path (clock s)); auto.
  - fold x1 || idtac.
    assert (P : _process_jpeg_file env jpeg_path
                  (set_pending_raw
                     (delete (fst (splitext (basename jpeg_path)))
                        (_pending_raw (set_fs (<[jpeg_path:=jpeg_content]> (fs x)) x)))
                     (set_fs (<[jpeg_path:=jpeg_content]> (fs x)) x))
                = (inr tt, x2)).
    { rewrite Jbase. cbn [_pending_raw set_fs]. fold x1.
      rewrite (process_jpeg_file_ok env jpeg_path jpeg_content jpeg_data x1).
      - unfold x2, jpeg_cached, processed_entry, normalized_path.
        rewrite Jbase. subst x1. cbn [download_dir clock fs set_pending_raw set_fs].
        rewrite Hd, Hc. reflexivity.
      - subst x1. cbn [fs set_pending_raw set_fs]. apply lookup_insert_eq.
      - rewrite Jbase. unfold normalized_path. subst x1.
        cbn [download_dir set_pending_raw set_fs]. rewrite Hd. exact Jstored.
      - rewrite Jbase. unfold normalized_path. subst x1.
        cbn [download_dir set_pending_raw set_fs]. rewrite Hd. exact Hwrite.
      - subst x1. cbn [max_cache_size set_pending_raw set_fs]. rewrite Hm. lia. }
    rewrite (bind_run _ _ _ _ _ P). reflexivity.
  - apply path_exists_file with (content := jpeg_content). cbn [fs set_fs].
    apply lookup_insert_eq.
  - cbn [_pending_raw set_fs]. rewrite Jbase. exact Hp.
Qed.

(** What the JPEG notice leaves, whether or not the RAW file is still
    there. *)
Lemma jpeg_notice_outcome (x : State) :
  download_dir x = download_dir s ->
  max_cache_size x = max_cache_size s ->
  clock x = clock s + dt1 ->
  _pending_raw x !! base_name = Some (raw_path, clock s) ->
  (length (entries_for (base_of cached) x) <= 1)%nat ->
  let z := snd (step env (Download jpeg_path jpeg_content jpeg_filetype) x) in
  _pending_raw z !! base_name = None /\
  entries_for (base_of jpeg_cached) z = [jpeg_cached] /\
  fs z !! jpeg_filepath = Some jpeg_data /\
  fs z !! raw_path = None /\
  tasks z = tasks x /\ clock z = clock x.
Proof.
  intros Hd Hm Hc Hp Hone z. subst z.
  rewrite (jpeg_notice_run x Hd Hm Hc Hp). cbv zeta.
  match goal with
  | |- context [cache_insert ?c ?y] =>
      set (x2 := cache_insert c y);
      destruct (cache_insert_frame c y) as (F1 & _ & F3 & F4 & F5 & _);
      pose proof (entries_for_cache_insert c y) as En
  end.
  fold x2 in F1, F3, F4, F5, En.
  cbn [fs _pending_raw tasks clock max_cache_size set_fs set_pending_raw] in F1, F3, F4, F5, En.
  assert (E2 : entries_for (base_of jpeg_cached) x2 = [jpeg_cached]).
  { apply En; [rewrite Hm; exact Hmax|]. rewrite jpeg_cached_base. exact Hone. }
  assert (P2 : _pending_raw x2 !! base_name = None) by (rewrite F3; apply lookup_delete_eq).
  assert (J2 : fs x2 !! jpeg_filepath = Some jpeg_data) by (rewrite F1; apply lookup_insert_eq).
  destruct (fs x2 !! raw_path) as [c|] eqn:R.
  - rewrite (safe_delete_file env raw_path c x2 R Hremove). cbn [snd].
    cbn [_pending_raw fs tasks clock set_fs]. unfold entries_for in *. cbn [_cache set_fs].
    repeat split; auto.
    + rewrite lookup_delete_ne by exact Hne. exact J2.
    + apply lookup_delete_eq.
  - rewrite (safe_delete_missing env raw_path x2 R). cbn [snd]. repeat split; auto.
Qed.

(** Once the pending entry is consumed the timer has nothing to do. *)
Lemma timer_after_pairing (z : State) (dt2 : Z) :
  _pending_raw z !! base_name = None ->
  tasks z = (tasks s ++ [TimerClearPending due base_name])%list ->
  clock z = clock s + dt1 ->
  0 <= dt2 -> _pair_timeout s <= dt1 + dt2 ->
  run_events env [Wait dt2; Run (length (tasks s))] z
  = set_tasks (tasks s) (set_clock (clock z + Z.max 0 dt2) z).
Proof.
  intros Hp Ht Hc H2 Hsum. cbn [run_events].
  change (snd (step env (Wait dt2) z)) with (set_clock (clock z + Z.max 0 dt2) z).
  rewrite (step_run_timer_due env _ due base_name).
  - cbn [tasks set_clock]. rewrite Ht, delete_started, app_nil_r.
    rewrite clear_pending_raw_absent; [reflexivity|].
    cbn [_pending_raw set_tasks set_clock]. exact Hp.
  - cbn [tasks set_clock]. rewrite Ht. apply lookup_started.
  - cbn [clock set_clock]. rewrite Hc. unfold due. lia.
Qed.

(** The extraction thread that runs after the RAW file is gone does
    nothing. *)
Lemma thread_after_pairing (z : State) :
  fs z !! raw_path = None ->
  tasks z = (tasks s ++ [ThreadProcessRaw raw_path; TimerClearPending due base_name])%list ->
  step env (Run (length (tasks s))) z
  = (inr tt, set_tasks (tasks s ++ [TimerClearPending due base_name])%list z).
Proof.
  intros Hf Ht. rewrite (step_run_thread env _ raw_path) by (rewrite Ht; apply lookup_started).
  rewrite Ht, delete_started. apply process_raw_file_missing. exact Hf.
Qed.

Lemma run_events_app (evs1 evs2 : list Event) (x : State) :
  run_events env (evs1 ++ evs2) x = run_events env evs2 (run_events env evs1 x).
Proof.
  revert x. induction evs1 as [|ev evs1 IH]; intros x; [reflexivity|].
  cbn [app run_events]. apply IH.
Qed.

(** A RAW notice, then the notice of its JPEG sibling before the
    timeout, with the extraction thread running as a whole before the
    JPEG notice or after it: the JPEG notice consumes the pending entry,
    the cache holds exactly one entry of that base name, made from the
    JPEG, whose stored file holds the processed JPEG, and the RAW file is
    gone; the timer, when it runs after the timeout, changes nothing. *)
Theorem raw_then_jpeg_paired (dt2 : Z) (before_timer : list Event) :
  0 <= dt2 -> _pair_timeout s <= dt1 + dt2 ->
  let k := length (tasks s) in
  before_timer = [Download raw_path content filetype; Run k; Wait dt1;
                  Download jpeg_path jpeg_content jpeg_filetype]
  \/ before_timer = [Download raw_path content filetype; Wait dt1;
                     Download jpeg_path jpeg_content jpeg_filetype; Run k] ->
  let s3 := run_events env before_timer s in
  let s5 := run_events env [Wait dt2; Run k] s3 in
  (_pending_raw s3 !! base_name = None /\
   entries_for (base_of jpeg_cached) s3 = [jpeg_cached] /\
   fs s3 !! jpeg_filepath = Some jpeg_data /\
   fs s3 !! raw_path = None /\
   tasks s3 = (tasks s ++ [TimerClearPending due base_name])%list)
  /\
  (_cache s5 = _cache s3 /\
   shown s5 = shown s3 /\
   fs s5 = fs s3 /\
   _pending_raw s5 = _pending_raw s3 /\
   tasks s5 = tasks s).
Proof.
  intros H2 Hsum k Horder s3 s5.
  assert (Hmax1 : Z.max 0 dt1 = dt1) by lia.
  assert (Main : _pending_raw s3 !! base_name = None /\
                 entries_for (base_of jpeg_cached) s3 = [jpeg_cached] /\
                 fs s3 !! jpeg_filepath = Some jpeg_data /\
                 fs s3 !! raw_path = None /\
                 tasks s3 = (tasks s ++ [TimerClearPending due base_name])%list /\
                 clock s3 = clock s + dt1).
  { subst s3. destruct Horder as [-> | ->].
    - change [Download raw_path content filetype; Run k; Wait dt1;
              Download jpeg_path jpeg_content jpeg_filetype]
        with ([Download raw_path content filetype; Run k]
                ++ [Wait dt1; Download jpeg_path jpeg_content jpeg_filetype])%list.
      rewrite run_events_app. subst k. rewrite raw_only_run. cbn [run_events].
      change (snd (step env (Wait dt1) raw_extracted))
        with (set_clock (clock raw_extracted + Z.max 0 dt1) raw_extracted).
      destruct raw_extracted_frame as (_ & _ & P & T & C).
      destruct raw_extracted_config as (Dd & Mm).
      set (x := set_clock (clock raw_extracted + Z.max 0 dt1) raw_extracted).
      assert (Tx : tasks x = (tasks s ++ [TimerClearPending due base_name])%list)
        by exact T.
      assert (Cx : clock x = clock s + dt1)
        by (subst x; cbn [clock set_clock]; rewrite C, Hmax1; reflexivity).
      destruct (jpeg_notice_outcome x) as (O1 & O2 & O3 & O4 & O5 & O6).
      + exact Dd.
      + exact Mm.
      + exact Cx.
      + subst x. cbn [_pending_raw set_clock]. rewrite P. apply lookup_insert_eq.
      + pose proof raw_extracted_entries as En. unfold entries_for in *.
        subst x. cbn [_cache set_clock]. rewrite En. cbn. lia.
      + rewrite Tx in O5. rewrite Cx in O6. repeat split; assumption.
    - cbn [run_events]. rewrite raw_noticed_run. cbn [snd].
      change (snd (step env (Wait dt1) raw_noticed))
        with (set_clock (clock raw_noticed + Z.max 0 dt1) raw_noticed).
      set (y := set_clock (clock raw_noticed + Z.max 0 dt1) raw_noticed).
      assert (Ty : tasks y = (tasks s ++ [ThreadProcessRaw raw_path;
                                          TimerClearPending due base_name])%list)
        by reflexivity.
      assert (Cy : clock y = clock s + dt1)
        by (subst y; unfold raw_noticed;
            cbn [clock set_clock set_tasks set_pending_raw set_fs]; rewrite Hmax1; reflexivity).
      destruct (jpeg_notice_outcome y) as (O1 & O2 & O3 & O4 & O5 & O6).
      + reflexivity.
      + reflexivity.
      + exact Cy.
      + subst y. unfold raw_noticed. cbn [_pending_raw set_clock set_tasks set_pending_raw].
        apply lookup_insert_eq.
      + unfold entries_for in *. subst y. unfold raw_noticed.
        cbn [_cache set_clock set_tasks set_pending_raw set_fs]. rewrite Hfresh. cbn. lia.
      + rewrite Ty in O5. rewrite Cy in O6.
        subst k. rewrite (thread_after_pairing _ O4 O5). cbn [snd].
        unfold entries_for in *. cbn [_pending_raw _cache fs tasks clock set_tasks].
        repeat split; assumption. }
  destruct Main as (M1 & M2 & M3 & M4 & M5 & M6).
  split; [repeat split; assumption|].
  subst s5 k. rewrite (timer_after_pairing s3 dt2 M1 M5 M6 H2 Hsum).
  repeat split.
Qed.

End Pairing.

End PairingFacts.

(** ** RAW and JPEG pairing on concrete inputs *)

Module PairingExamples.
Import Py PyBytes PyStr ImagePreview CacheFacts CacheExamples PairingFacts.
Local Open Scope string_scope.
Local Open Scope Z_scope.

(** A RAW file: a 4-byte header and an embedded JPEG of 5 bytes. *)
Definition raw_file : bytes := [x49; x49; x2a; x00; xff; xd8; x10; xff; xd9].

(** The JPEG the camera sends for the same shot, 7 bytes. *)
Definition jpeg_file : bytes := [xff; xd8; x01; x02; x03; xff; xd9].

Definition raw_01 : string := "/dl/IMG_01.ARW".
Definition jpeg_01 : string := "/dl/IMG_01.JPG".

Definition raw_notice_01 : Event := Download raw_01 raw_file "arw".
Definition jpeg_notice_01 : Event := Download jpeg_01 jpeg_file "jpg".

(** C7, as stated, fails: once the thread started by the RAW notice has
    run, the entry is in the cache although no time has passed; the timer
    (due at 2000 ms) is still waiting and cannot run yet. *)
Lemma raw_entry_appears_before_timeout :
  let s2 := run_events env_ok [raw_notice_01; Run 0] (fresh ∅) in
  entries_for "IMG_01" s2 = [mkCachedImage "/dl/IMG_01.jpg" "IMG_01.jpg" 0 false] /\
  clock s2 = 0 /\
  tasks s2 = [TimerClearPending 2000 "IMG_01"] /\
  fst (step env_ok (Run 0) s2) = inr tt /\
  tasks (snd (step env_ok (Run 0) s2)) = [TimerClearPending 2000 "IMG_01"].
Proof. vm_compute. repeat split. Qed.

(** The thread as a whole before the JPEG notice, and after it: the
    stored file holds the 7 bytes made from the JPEG, not the 5 made from
    the thumbnail. *)
Example paired_thread_first :
  let s5 := run_events env_ok
              [raw_notice_01; Run 0; Wait 500; jpeg_notice_01; Wait 1500; Run 0] (fresh ∅) in
  _cache s5 = [mkCachedImage "/dl/IMG_01.jpg" "IMG_01.jpg" 500 false] /\
  map_to_list (fs s5) = [("/dl/IMG_01.jpg", repeat x4a 7); (jpeg_01, jpeg_file)] /\
  map_to_list (_pending_raw s5) = [] /\ tasks s5 = [].
Proof. vm_compute. repeat split. Qed.

Example paired_jpeg_first :
  let s5 := run_events env_ok
              [raw_notice_01; Wait 500; jpeg_notice_01; Run 0; Wait 1500; Run 0] (fresh ∅) in
  _cache s5 = [mkCachedImage "/dl/IMG_01.jpg" "IMG_01.jpg" 500 false] /\
  map_to_list (fs s5) = [("/dl/IMG_01.jpg", repeat x4a 7); (jpeg_01, jpeg_file)] /\
  map_to_list (_pending_raw s5) = [] /\ tasks s5 = [].
Proof. vm_compute. repeat split. Qed.

(** The premises of the two pairing theorems on this input. *)
Lemma raw_01_no_prefix : startswith (lower (basename raw_01)) "capt_" = false.
Proof. reflexivity. Qed.

Lemma raw_01_is_raw :
  ext_in (lower (snd (splitext (basename raw_01)))) RAW_EXTENSIONS = true.
Proof. reflexivity. Qed.

Lemma raw_01_no_sibling :
  _find_jpeg_pair (set_fs (<[raw_01 := raw_file]> (fs (fresh ∅))) (fresh ∅)) raw_01 = None.
Proof. vm_compute. reflexivity. Qed.

Lemma raw_01_not_normalized :
  raw_01 <> normalized_path env_ok (fresh ∅) (fst (splitext (basename raw_01))).
Proof. vm_compute. discriminate. Qed.

Lemma raw_01_thumbnail : thumbnail_of env_ok (Some raw_file) = Some (drop 4 raw_file).
Proof. reflexivity. Qed.

Lemma raw_01_thumbnail_not_empty : drop 4 raw_file <> [].
Proof. discriminate. Qed.

Lemma raw_01_stored : stored_thumbnail env_ok (drop 4 raw_file) = Returns (repeat x4a 5).
Proof. reflexivity. Qed.

Lemma raw_01_not_dir : raw_01 ∉ dirs (fresh ∅).
Proof. cbn. set_solver. Qed.

Lemma fresh_bound : 1 <= max_cache_size (fresh ∅).
Proof. cbn. lia. Qed.

Lemma fresh_timeout : 0 < _pair_timeout (fresh ∅) /\ _pair_timeout (fresh ∅) <= 2000.
Proof. cbn. lia. Qed.

Lemma fresh_no_entry :
  entries_for (base_of (processed_entry env_ok (fresh ∅) raw_01 (clock (fresh ∅)))) (fresh ∅)
  = [].
Proof. reflexivity. Qed.

Lemma jpeg_01_no_prefix : startswith (lower (basename jpeg_01)) "capt_" = false.
Proof. reflexivity. Qed.

Lemma jpeg_01_not_raw :
  ext_in (lower (snd (splitext (basename jpeg_01)))) RAW_EXTENSIONS = false.
Proof. reflexivity. Qed.

Lemma jpeg_01_same_base :
  fst (splitext (basename jpeg_01)) = fst (splitext (basename raw_01)).
Proof. reflexivity. Qed.

Lemma jpeg_01_stored :
  stored_jpeg env_ok jpeg_01
    (normalized_path env_ok (fresh ∅) (fst (splitext (basename raw_01)))) jpeg_file
  = Returns (repeat x4a 7).
Proof. reflexivity. Qed.

Lemma raw_only_processed_before_timeout_witness :
  let s := fresh ∅ in
  let cached := processed_entry env_ok s raw_01 (clock s) in
  let s2 := run_events env_ok [raw_notice_01; Run (length (tasks s))] s in
  let s4 := run_events env_ok [Wait 2000; Run (length (tasks s))] s2 in
  entries_for (base_of cached) s2 = [cached] /\
  fs s2 !! raw_01 = None /\
  clock s2 < clock s + _pair_timeout s /\
  _cache s4 = _cache s2 /\
  tasks s4 = tasks s.
Proof.
  pose proof (raw_only_processed_before_timeout env_ok (fresh ∅) raw_01 "arw"
                raw_file (drop 4 raw_file) (repeat x4a 5)
                raw_01_no_prefix raw_01_is_raw raw_01_no_sibling raw_01_not_normalized
                raw_01_thumbnail raw_01_thumbnail_not_empty raw_01_stored eq_refl eq_refl
                fresh_bound raw_01_not_dir (proj1 fresh_timeout) fresh_no_entry
                2000 (proj2 fresh_timeout)) as H.
  cbv zeta in H. destruct H as ((H1 & _ & _ & H4 & H5 & _) & (H6 & _ & _ & _ & H9)).
  intros s cached s2 s4.
  split; [exact H1|]. split; [exact H4|]. split; [exact H5|]. split; [exact H6 | exact H9].
Defined.

Lemma raw_then_jpeg_paired_witness :
  let s := fresh ∅ in
  let jpeg_cached := processed_entry env_ok s jpeg_01 (clock s + 500) in
  let s3 := run_events env_ok [raw_notice_01; Run (length (tasks s)); Wait 500; jpeg_notice_01] s in
  let s5 := run_events env_ok [Wait 1500; Run (length (tasks s))] s3 in
  _pending_raw s3 !! fst (splitext (basename raw_01)) = None /\
  entries_for (base_of jpeg_cached) s3 = [jpeg_cached] /\
  fs s3 !! raw_01 = None /\
  _cache s5 = _cache s3 /\
  tasks s5 = tasks s.
Proof.
  pose proof (raw_then_jpeg_paired env_ok (fresh ∅) raw_01 "arw"
                raw_file (drop 4 raw_file) (repeat x4a 5)
                raw_01_no_prefix raw_01_is_raw raw_01_no_sibling raw_01_not_normalized
                raw_01_thumbnail raw_01_thumbnail_not_empty raw_01_stored eq_refl eq_refl
                fresh_bound fresh_no_entry
                jpeg_01 "jpg" jpeg_file (repeat x4a 7) 500
                jpeg_01_no_prefix jpeg_01_not_raw jpeg_01_same_base jpeg_01_stored
                ltac:(cbn; lia)
                1500 _ ltac:(lia) ltac:(cbn; lia) (or_introl eq_refl)) as H.
  cbv zeta in H. destruct H as ((H1 & H2 & _ & H4 & _) & (H5 & _ & _ & _ & H9)).
  intros s jpeg_cached s3 s5.
  split; [exact H1|]. split; [exact H2|]. split; [exact H4|]. split; [exact H5 | exact H9].
Defined.

End PairingExamples.

(** ** The extraction thread beside the notices: a late save *)

Module ThreadFacts.
Import Py PyFacts PyBytes PyStr ImagePreview CacheFacts PairingFacts ExtractionThread.
Local Open Scope string_scope.
Local Open Scope Z_scope.
Local Open Scope py_scope.

Section Thread.
Variable env : Env.

(** The two parts, one after the other, are [_process_raw_file]. *)
Lemma process_raw_file_cut (fpath : string) (s : State) :
  (jpeg_data <- process_raw_file_extract env fpath ;;
   process_raw_file_save env fpath jpeg_data) s
  = _process_raw_file env fpath s.
Proof.
  unfold process_raw_file_extract, process_raw_file_save, _process_raw_file.
  unfold try_pass, try_except, bind, get, ret.
  destruct (_extract_jpeg_from_raw env s fpath) as [[|b d]|]; reflexivity.
Qed.

(** A thread that goes on at once is the task run as one step. *)
Lemma extract_then_save (i : nat) (p : string) (t : Threads) :
  tasks (manager t) !! i = Some (ThreadProcessRaw p) ->
  run_moves env [Extract i; Save (length (past_extraction t))] t
  = mkThreads (snd (step env (Run i) (manager t))) (past_extraction t).
Proof.
  intros H. cbn [run_moves].
  set (started := set_tasks (delete i (tasks (manager t))) (manager t)).
  assert (E : move env (Extract i) t
              = mkThreads started
                  (past_extraction t ++ [(p, _extract_jpeg_from_raw env started p)])).
  { unfold move. rewrite H. reflexivity. }
  rewrite E. unfold move. cbn [past_extraction manager].
  rewrite lookup_started, delete_started, app_nil_r. f_equal.
  rewrite (step_run_thread env i p _ H), <- process_raw_file_cut. reflexivity.
Qed.

(** Moves that are whole events are the events. *)
Lemma run_moves_whole (evs : list Event) (t : Threads) :
  run_moves env (map Whole evs) t
  = mkThreads (run_events env evs (manager t)) (past_extraction t).
Proof.
  revert t. induction evs as [|ev evs IH]; intros t; [destruct t; reflexivity|].
  cbn [map run_moves run_events]. rewrite IH. reflexivity.
Qed.

Lemma try_pass_snd {S : Type} (c : M S unit) (s : S) :
  try_pass c s = (inr tt, snd (c s)).
Proof.
  destruct (c s) as [r s1] eqn:E. apply (try_pass_run c s s1 r E).
Qed.

Lemma safe_delete_cases (p : string) (s : State) :
  _safe_delete env p s = (inr tt, s) \/
  _safe_delete env p s = (inr tt, set_fs (delete p (fs s)) s).
Proof.
  unfold _safe_delete, try_pass, try_except, bind, get.
  destruct (path_exists s p); [|left; reflexivity].
  unfold remove. destruct (io_fails env (OpRemove p)); [left; reflexivity|].
  unfold bind, get, modify.
  destruct (fs s !! p); [right; reflexivity|].
  destruct (bool_decide (p ∈ dirs s)); left; reflexivity.
Qed.

(** The second part on the state it finds, whatever ran since the
    extraction: the thumbnail it holds is stored and cached, then the RAW
    file is deleted if it is still there. *)
Lemma process_raw_file_save_run (raw_path : string) (thumb data : bytes) (z : State) :
  thumb <> [] ->
  stored_thumbnail env thumb = Returns data ->
  let jpeg_filepath := normalized_path env z (fst (splitext (basename raw_path))) in
  let cached := processed_entry env z raw_path (clock z) in
  io_fails env (OpWrite jpeg_filepath) = None ->
  0 <= max_cache_size z ->
  process_raw_file_save env raw_path (Some thumb) z =
    (inr tt,
     snd (_safe_delete env raw_path
            (cache_insert cached (set_fs (<[jpeg_filepath := data]> (fs z)) z)))).
Proof.
  intros Hne Hstored jpeg_filepath cached Hw Hmax.
  unfold process_raw_file_save. eapply try_pass_run.
  destruct thumb as [|t0 thumb]; [congruence|].
  unfold bind at 1, get at 1.
  fold (normalized_path env z (fst (splitext (basename raw_path)))). fold jpeg_filepath.
  assert (W : (if HAS_PIL env
               then img <- of_outcome (pil_open env (t0 :: thumb)) ;;
                    data0 <- of_outcome (pil_save_jpeg env (_apply_exif_rotation env img)) ;;
                    write_file env jpeg_filepath data0
               else write_file env jpeg_filepath (t0 :: thumb)) z
              = (inr tt, set_fs (<[jpeg_filepath := data]> (fs z)) z)).
  { unfold stored_thumbnail, pil_reencode in Hstored.
    destruct (HAS_PIL env).
    - unfold bind, of_outcome, write_file.
      destruct (pil_open env (t0 :: thumb)) as [img|e]; [|discriminate].
      cbn [and_then] in Hstored. unfold ret at 1. rewrite Hstored. unfold ret at 1.
      rewrite Hw. reflexivity.
    - injection Hstored as <-. unfold write_file. rewrite Hw. reflexivity. }
  rewrite (bind_run _ _ _ _ _ W).
  unfold bind at 1, gets at 1. cbn [clock set_fs].
  change (mkCachedImage jpeg_filepath (fst (splitext (basename raw_path)) ++ ".jpg")
            (clock z) false) with cached.
  rewrite (bind_run _ _ _ _ _
             (replace_or_add_cached_run cached (set_fs (<[jpeg_filepath:=data]> (fs z)) z) Hmax)).
  apply try_pass_snd.
Qed.

(** So a save that comes late puts the thumbnail over whatever was
    stored under the normalized name in between, and its entry over the
    entry of that base name. *)
Lemma late_save_stores_thumbnail (raw_path : string) (thumb data : bytes) (z : State) :
  thumb <> [] ->
  stored_thumbnail env thumb = Returns data ->
  let jpeg_filepath := normalized_path env z (fst (splitext (basename raw_path))) in
  let cached := processed_entry env z raw_path (clock z) in
  io_fails env (OpWrite jpeg_filepath) = None ->
  raw_path <> jpeg_filepath ->
  1 <= max_cache_size z ->
  (length (entries_for (base_of cached) z) <= 1)%nat ->
  let z' := snd (process_raw_file_save env raw_path (Some thumb) z) in
  fs z' !! jpeg_filepath = Some data /\
  entries_for (base_of cached) z' = [cached].
Proof.
  intros Hne Hstored jpeg_filepath cached Hw Hp Hmax Hone z'. subst z'.
  rewrite (process_raw_file_save_run raw_path thumb data z Hne Hstored Hw) by lia.
  cbn [snd]. fold jpeg_filepath. fold cached.
  set (x := set_fs (<[jpeg_filepath := data]> (fs z)) z).
  destruct (cache_insert_frame cached x) as (F & _).
  assert (En : entries_for (base_of cached) (cache_insert cached x) = [cached])
    by (apply entries_for_cache_insert; [exact Hmax | exact Hone]).
  assert (J : fs (cache_insert cached x) !! jpeg_filepath = Some data)
    by (rewrite F; apply lookup_insert_eq).
  destruct (safe_delete_cases raw_path (cache_insert cached x)) as [E|E]; rewrite E; cbn [snd].
  - split; assumption.
  - split; [|exact En]. cbn [fs set_fs]. rewrite lookup_delete_ne by exact Hp. exact J.
Qed.

End Thread.

End ThreadFacts.

(** ** The extraction thread and the JPEG notice on concrete inputs *)

Module PairingRace.
Import Py PyBytes PyStr ImagePreview CacheFacts CacheExamples PairingFacts PairingExamples.
Import ExtractionThread.
Local Open Scope string_scope.
Local Open Scope Z_scope.

(** The RAW notice; its thread extracts the thumbnail; 500 ms later the
    JPEG notice runs to its end; 100 ms later the thread goes on. *)
Definition overlapped : list Move :=
  [Whole raw_notice_01; Extract 0; Whole (Wait 500); Whole jpeg_notice_01;
   Whole (Wait 100); Save 0].

(** The same steps with the thread not interrupted. *)
Example thread_not_interrupted :
  let t := run_moves env_ok
             [Whole raw_notice_01; Extract 0; Save 0; Whole (Wait 500); Whole jpeg_notice_01;
              Whole (Wait 100)] (mkThreads (fresh ∅) []) in
  _cache (manager t) = [mkCachedImage "/dl/IMG_01.jpg" "IMG_01.jpg" 500 false] /\
  fs (manager t) !! "/dl/IMG_01.jpg" = Some (repeat x4a 7) /\
  past_extraction t = [].
Proof. vm_compute. repeat split. Qed.

(** C8. The pairing fails when the extraction thread overlaps the JPEG
    notice. The thread started by the RAW notice has extracted the
    thumbnail when the JPEG notice comes; the JPEG notice consumes the
    pending entry, stores and caches the JPEG (7 bytes here) and deletes
    the RAW file; then the thread goes on, stores the thumbnail (5 bytes)
    under the same name and puts its entry in the place of the JPEG's.
    The cache holds one entry of that base name, made from the thumbnail
    and not from the JPEG; the preview callback has been given both. The
    timer, after the timeout, changes nothing. *)
Theorem late_thumbnail_replaces_jpeg :
  let from_jpeg := mkCachedImage "/dl/IMG_01.jpg" "IMG_01.jpg" 500 false in
  let from_thumbnail := mkCachedImage "/dl/IMG_01.jpg" "IMG_01.jpg" 600 false in
  let t3 := run_moves env_ok
              [Whole raw_notice_01; Extract 0; Whole (Wait 500); Whole jpeg_notice_01]
              (mkThreads (fresh ∅) []) in
  let t4 := run_moves env_ok overlapped (mkThreads (fresh ∅) []) in
  let t5 := run_moves env_ok [Whole (Wait 1400); Whole (Run 0)] t4 in
  (past_extraction t3 = [(raw_01, Some (drop 4 raw_file))] /\
   _cache (manager t3) = [from_jpeg] /\
   fs (manager t3) !! "/dl/IMG_01.jpg" = Some (repeat x4a 7) /\
   stored_jpeg env_ok jpeg_01 "/dl/IMG_01.jpg" jpeg_file = Returns (repeat x4a 7))
  /\
  (_cache (manager t4) = [from_thumbnail] /\
   entries_for "IMG_01" (manager t4) = [from_thumbnail] /\
   fs (manager t4) !! "/dl/IMG_01.jpg" = Some (repeat x4a 5) /\
   stored_thumbnail env_ok (drop 4 raw_file) = Returns (repeat x4a 5) /\
   shown (manager t4) = [(7%nat, from_jpeg); (7%nat, from_thumbnail)] /\
   fs (manager t4) !! raw_01 = None /\
   map_to_list (_pending_raw (manager t4)) = [] /\
   clock (manager t4) = 600 /\
   tasks (manager t4) = [TimerClearPending 2000 "IMG_01"] /\
   past_extraction t4 = [])
  /\
  (clock (manager t5) = 2000 /\
   _cache (manager t5) = [from_thumbnail] /\
   fs (manager t5) !! "/dl/IMG_01.jpg" = Some (repeat x4a 5) /\
   tasks (manager t5) = [] /\
   past_extraction t5 = []).
Proof. vm_compute. repeat split. Qed.

End PairingRace.

(** * Part III: further properties of the two modules *)

(** ** Relations that every statement of a block respects *)

Module Frames.
Import Py.
Local Open Scope py_scope.

Section Respects.
Context {S : Type} (R : S -> S -> Prop) `{!PreOrder R}.

(** Whatever state [c] starts in, the state it leaves (returning or
    raising) is related to it. *)
Definition respects {A} (c : M S A) : Prop := forall s, R s (snd (c s)).

Lemma respects_ret {A} (a : A) : respects (ret a).
Proof. intros s. cbn. reflexivity. Qed.

Lemma respects_raise {A} (e : PyExc) : respects (raise (A := A) e).
Proof. intros s. cbn. reflexivity. Qed.

Lemma respects_get : respects get.
Proof. intros s. cbn. reflexivity. Qed.

Lemma respects_gets {A} (f : S -> A) : respects (gets f).
Proof. intros s. cbn. reflexivity. Qed.

Lemma respects_modify (f : S -> S) : (forall s, R s (f s)) -> respects (modify f).
Proof. intros H s. apply H. Qed.

Lemma respects_bind {A B} (c : M S A) (k : A -> M S B) :
  respects c -> (forall a, respects (k a)) -> respects (bind c k).
Proof.
  intros Hc Hk s. unfold bind. specialize (Hc s).
  destruct (c s) as [[e|a] s1]; cbn in *; [exact Hc|].
  etransitivity; [exact Hc | apply Hk].
Qed.

Lemma respects_try_except {A} (c : M S A) (h : PyExc -> M S A) :
  respects c -> (forall e, respects (h e)) -> respects (try_except c h).
Proof.
  intros Hc Hh s. unfold try_except. specialize (Hc s).
  destruct (c s) as [[e|a] s1]; cbn in *; [|exact Hc].
  etransitivity; [exact Hc | apply Hh].
Qed.

Lemma respects_try_pass (c : M S unit) : respects c -> respects (try_pass c).
Proof. intros Hc. apply respects_try_except; [exact Hc|]. intros e. apply respects_ret. Qed.

Lemma respects_caught {A} (c : M S A) : respects c -> respects (caught c).
Proof. intros Hc s. unfold caught. specialize (Hc s). destruct (c s). exact Hc. Qed.

Lemma respects_of_outcome {A} (o : Outcome A) : respects (of_outcome o).
Proof. destruct o; [apply respects_ret | apply respects_raise]. Qed.

Lemma respects_when (b : bool) (c : M S unit) : respects c -> respects (when b c).
Proof. intros H. destruct b; [exact H | apply respects_ret]. Qed.

Lemma respects_for_each {A} (l : list A) (body : A -> M S unit) :
  (forall x, respects (body x)) -> respects (for_each l body).
Proof.
  intros H. induction l as [|x l IH]; cbn [for_each].
  - apply respects_ret.
  - apply respects_bind; auto.
Qed.

(** A statement that cannot raise ends in a related state. *)
Lemma run_respects {A} (c : M S A) (s : S) :
  no_raise c -> respects c -> exists a s', c s = (inr a, s') /\ R s s'.
Proof.
  intros Hn Hr. destruct (Hn s) as (a & s' & E). exists a, s'. split; [exact E|].
  specialize (Hr s). rewrite E in Hr. exact Hr.
Qed.

End Respects.

(** An invariant as a relation: what holds before holds after. *)
Definition preserves {S} (I : S -> Prop) (s s' : S) : Prop := I s -> I s'.

#[global] Instance preserves_preorder {S} (I : S -> Prop) : PreOrder (preserves I).
Proof. split; [intros s H; exact H | intros s1 s2 s3 H1 H2 H; exact (H2 (H1 H))]. Qed.

(** The value of [f] is left as it was. *)
Definition keeps {S A} (f : S -> A) (s s' : S) : Prop := f s' = f s.

#[global] Instance keeps_preorder {S A} (f : S -> A) : PreOrder (keeps f).
Proof.
  split; [intros s; reflexivity | intros s1 s2 s3 H1 H2].
  unfold keeps in *. congruence.
Qed.

(** The conjunction of two relations. *)
Definition both {S} (R1 R2 : S -> S -> Prop) (s s' : S) : Prop := R1 s s' /\ R2 s s'.

#[global] Instance both_preorder {S} (R1 R2 : S -> S -> Prop)
    `{!PreOrder R1} `{!PreOrder R2} : PreOrder (both R1 R2).
Proof.
  split.
  - intros s. split; reflexivity.
  - intros s1 s2 s3 [A1 A2] [B1 B2]. split; etransitivity; eassumption.
Qed.

(** One step along the structure of a block; [leaf] closes what is left
    of an assignment or of a call. *)
Ltac respects_one leaf :=
  lazymatch goal with
  | |- respects _ (ret _) => refine (respects_ret _ _)
  | |- respects _ (raise _) => refine (respects_raise _ _)
  | |- respects _ get => refine (respects_get _)
  | |- respects _ (gets _) => refine (respects_gets _ _)
  | |- respects _ (of_outcome _) => refine (respects_of_outcome _ _)
  | |- respects _ (try_pass _) => refine (respects_try_pass _ _ _)
  | |- respects _ (caught _) => refine (respects_caught _ _ _)
  | |- respects _ (when _ _) => refine (respects_when _ _ _ _)
  | |- respects _ (bind _ _) => refine (respects_bind _ _ _ _ _); [|intros ?]
  | |- respects _ (try_except _ _) => refine (respects_try_except _ _ _ _ _); [|intros ?]
  | |- respects _ (for_each _ _) => refine (respects_for_each _ _ _ _); intros ?
  | |- respects _ (modify _) => refine (respects_modify _ _ _); intros ?; cbv beta; solve [leaf]
  | |- respects _ (match ?x with _ => _ end) => destruct x
  end.

Ltac respects_with leaf :=
  repeat first [ solve [leaf] | progress cbv zeta | respects_one leaf ].

Ltac respects_tac := respects_with ltac:(auto).

End Frames.

(** ** What the statements of the frame engine touch *)

Module HandlerFrames.
Import Py PyFacts Frames PyBytes PyStr Jpeg CameraHandler HandlerFacts.
Local Open Scope string_scope.
Local Open Scope Z_scope.
Local Open Scope py_scope.

(** The log of calls grows by calls that satisfy [Q]. *)
Definition logs_only (Q : Call -> Prop) (s s' : State) : Prop :=
  exists l, calls s' = (calls s ++ l)%list /\ Forall Q l.

#[global] Instance logs_only_preorder (Q : Call -> Prop) : PreOrder (logs_only Q).
Proof.
  split.
  - intros s. exists []. split; [symmetry; apply app_nil_r | constructor].
  - intros s1 s2 s3 (l1 & E1 & F1) (l2 & E2 & F2). exists (l1 ++ l2)%list.
    split; [rewrite E2, E1, app_assoc; reflexivity | apply Forall_app; split; assumption].
Qed.

(** What [release] does once tethering is stopped. *)
Definition release_handles (drv : Driver) : M State unit :=
  s <- get ;;
  match camera s with
  | Some _ =>
      try_except (call CallCameraExit (camera_exit drv))
                 (fun _ => try_pass (call CallCameraExitMethod (camera_exit_method drv))) ;;;
      _safe_unref drv "gp_camera_unref"
  | None => ret tt
  end ;;;
  s <- get ;;
  match context s with
  | Some _ => _safe_unref drv "gp_context_unref"
  | None => ret tt
  end ;;;
  modify (upd_camera None) ;;;
  modify (upd_context None) ;;;
  modify (upd_is_streaming false) ;;;
  modify (upd_lost_device false) ;;;
  modify (upd_orientation ORIENTATION_NORMAL) ;;;
  modify (upd_io_error_counter 0) ;;;
  modify (upd_last_capture_ts 0).

Lemma release_unfold (drv : Driver) (s : State) :
  release drv s = release_handles drv (upd_tether_running false s).
Proof. reflexivity. Qed.

(** The statements of the handler respect a relation [R] that tolerates
    the assignments and the calls they make; [Q] holds of the calls that
    [R] tolerates. *)
Section Footprint.
Variable drv : Driver.
Variable R : State -> State -> Prop.
Context `{!PreOrder R}.
Variable Q : Call -> Prop.

Hypothesis R_call : forall c s, Q c -> R s (upd_calls (calls s ++ [c]) s).
Hypothesis R_camera : forall v s, R s (upd_camera v s).
Hypothesis R_context : forall v s, R s (upd_context v s).
Hypothesis R_is_streaming : forall v s, R s (upd_is_streaming v s).
Hypothesis R_lost_device : forall v s, R s (upd_lost_device v s).
Hypothesis R_orientation : forall s, R s (upd_orientation ORIENTATION_NORMAL s).
Hypothesis R_io_error_counter : forall v s, R s (upd_io_error_counter v s).
Hypothesis R_last_corrupt_frame_log : forall v s, R s (upd_last_corrupt_frame_log v s).
Hypothesis R_consecutive_corrupt_frames :
  forall v s, R s (upd_consecutive_corrupt_frames v s).
Hypothesis R_last_capture_ts : forall v s, R s (upd_last_capture_ts v s).
Hypothesis R_tether_running : forall v s, R s (upd_tether_running v s).
Hypothesis R_pending_downloads : forall v s, R s (upd_pending_downloads v s).

Hypothesis Q_time : Q CallTime.
Hypothesis Q_sleep : forall ms, Q (CallSleep ms).
Hypothesis Q_wait_for_event : Q CallWaitForEvent.
Hypothesis Q_capture_preview : Q CallCapturePreview.
Hypothesis Q_file_get_data : Q CallFileGetData.
Hypothesis Q_makedirs : forall p, Q (CallMakedirs p).
Hypothesis Q_file_get : forall f n, Q (CallFileGet f n).
Hypothesis Q_file_save : forall p, Q (CallFileSave p).
Hypothesis Q_tether_callback : forall p t, Q (CallTetherCallback p t).
Hypothesis Q_disconnect_callback : forall m, Q (CallDisconnectCallback m).
Hypothesis Q_camera_exit : Q CallCameraExit.
Hypothesis Q_camera_exit_method : Q CallCameraExitMethod.
Hypothesis Q_unref : forall n, Q (CallUnref n).
Hypothesis Q_new_context : Q CallNewContext.
Hypothesis Q_new_camera : Q CallNewCamera.
Hypothesis Q_init : Q CallInit.
Hypothesis Q_get_summary : Q CallGetSummary.

Lemma respects_call {A} (c : Call) (answer : nat -> Outcome A) :
  Q c -> respects R (call c answer).
Proof. intros H s. unfold call. destruct (answer _); cbn; apply R_call; exact H. Qed.

#[local] Hint Resolve respects_call : core.

Lemma respects_time_now : respects R (time_now drv).
Proof. unfold time_now. respects_tac. Qed.

Lemma respects_sleep (ms : Z) : respects R (sleep ms).
Proof. unfold sleep. respects_tac. Qed.

#[local] Hint Resolve respects_time_now respects_sleep : core.

Lemma respects_safe_unref (func_name : string) : respects R (_safe_unref drv func_name).
Proof. unfold _safe_unref. respects_tac. Qed.

#[local] Hint Resolve respects_safe_unref : core.

Lemma respects_release_handles : respects R (release_handles drv).
Proof. unfold release_handles. respects_tac. Qed.

Lemma respects_release : respects R (release drv).
Proof. unfold release, stop_tether. respects_tac. Qed.

Lemma respects_notify_disconnect (err_str : string) :
  respects R (notify_disconnect drv err_str).
Proof. unfold notify_disconnect. respects_tac. Qed.

#[local] Hint Resolve respects_release respects_notify_disconnect : core.

Lemma respects_file_added (event_data : EventData) : respects R (file_added event_data).
Proof. unfold file_added, queue_download. respects_tac. Qed.

#[local] Hint Resolve respects_file_added : core.

Lemma respects_drain_events (pending : list (Outcome EventValue)) :
  respects R (drain_events pending).
Proof.
  induction pending as [|answer rest IH]; cbn [drain_events]; respects_tac.
Qed.

#[local] Hint Resolve respects_drain_events : core.

Lemma respects_poll_events_unlocked : respects R (_poll_events_unlocked drv).
Proof. unfold _poll_events_unlocked. respects_tac. Qed.

Lemma respects_download_file (folder : option string) (name : string) :
  respects R (_download_file drv folder name).
Proof. unfold _download_file. respects_tac. Qed.

#[local] Hint Resolve respects_poll_events_unlocked respects_download_file : core.

Lemma respects_process_pending_downloads : respects R (_process_pending_downloads drv).
Proof. unfold _process_pending_downloads. respects_tac. Qed.

#[local] Hint Resolve respects_process_pending_downloads : core.

Lemma respects_handle_capture_error (e : PyExc) (attempt max_attempts : Z) :
  respects R (_handle_capture_error drv e attempt max_attempts).
Proof. unfold _handle_capture_error. respects_tac. Qed.

Lemma respects_capture_attempt : respects R (capture_attempt drv).
Proof. unfold capture_attempt. respects_tac. Qed.

Lemma respects_exceeded_retries : respects R exceeded_retries.
Proof. unfold exceeded_retries. respects_tac. Qed.

#[local] Hint Resolve respects_handle_capture_error respects_capture_attempt
  respects_exceeded_retries : core.

Lemma respects_retry_loop (delays : list Z) (attempt max_attempts : Z) :
  respects R (retry_loop drv delays attempt max_attempts).
Proof.
  revert attempt. induction delays as [|delay rest IH]; intros attempt; cbn [retry_loop];
    respects_tac.
Qed.

#[local] Hint Resolve respects_retry_loop : core.

Lemma respects_capture_preview_with_retry : respects R (_capture_preview_with_retry drv).
Proof. unfold _capture_preview_with_retry. respects_tac. Qed.

Lemma respects_apply_rotation (img : ndarray) : respects R (_apply_rotation drv img).
Proof. unfold _apply_rotation. respects_tac. Qed.

#[local] Hint Resolve respects_capture_preview_with_retry respects_apply_rotation : core.

Lemma respects_process_frame (file_data : FileData) : respects R (process_frame drv file_data).
Proof.
  unfold process_frame, count_corrupt_frame, reset_error_counters. respects_tac.
Qed.

#[local] Hint Resolve respects_process_frame : core.

Lemma respects_process_frame_to_base64 (file_data : FileData) :
  respects R (_process_frame_to_base64 drv file_data).
Proof. unfold _process_frame_to_base64. respects_tac. Qed.

#[local] Hint Resolve respects_process_frame_to_base64 : core.

Lemma respects_get_frame_base64 : respects R (get_frame_base64 drv).
Proof. unfold get_frame_base64. respects_tac. Qed.

Lemma respects_connect : respects R (connect drv).
Proof. unfold connect. respects_tac. Qed.

Lemma respects_set_orientation (code : Z) :
  (forall s, R s (upd_orientation code s)) -> respects R (set_orientation code).
Proof. intros H. unfold set_orientation. respects_tac. Qed.

End Footprint.

End HandlerFrames.

(** ** The frame engine: session, classification of errors, polling *)

Module EngineFacts.
Import Py PyFacts Frames PyBytes PyStr Jpeg CameraHandler HandlerFacts HandlerFrames.
Local Open Scope string_scope.
Local Open Scope Z_scope.
Local Open Scope py_scope.

Ltac keeps_leaf := try apply _; intros; first [reflexivity | exact I].

Ltac logs_leaf :=
  try apply _; intros;
  first [ reflexivity
        | exists []; split; [symmetry; apply app_nil_r | constructor]
        | eexists [_]; split; [reflexivity | repeat constructor; assumption] ].

(** A statement that returns has run each of its parts. *)
Lemma bind_inr_inv {S A B} (c : M S A) (k : A -> M S B) (s s' : S) (b : B) :
  bind c k s = (inr b, s') -> exists a s1, c s = (inr a, s1) /\ k a s1 = (inr b, s').
Proof.
  unfold bind. destruct (c s) as [[e|a] s1]; [discriminate|].
  intros H. exists a, s1. split; [reflexivity | exact H].
Qed.

(** Text that holds [sub ++ more] holds [sub]. *)
Lemma prefix_app (sub more s : string) :
  String.prefix (sub ++ more) s = true -> String.prefix sub s = true.
Proof.
  revert s. induction sub as [|c sub IH]; intros s.
  - destruct s; reflexivity.
  - destruct s as [|c' s]; [discriminate|].
    change (String c sub ++ more) with (String c (sub ++ more)). cbn [String.prefix].
    destruct (Ascii.ascii_dec c c'); [apply IH | discriminate].
Qed.

Lemma contains_app (sub more s : string) :
  contains s (sub ++ more) = true -> contains s sub = true.
Proof.
  induction s as [|c s IH]; cbn [contains].
  - destruct (String.prefix (sub ++ more) "") eqn:P; [|discriminate].
    intros _. rewrite (prefix_app _ _ _ P). reflexivity.
  - destruct (String.prefix (sub ++ more) (String c s)) eqn:P.
    + intros _. rewrite (prefix_app _ _ _ P). reflexivity.
    + intros H. rewrite (IH H). destruct (String.prefix sub (String c s)); reflexivity.
Qed.

(** *** [connect] *)

Section Engine.
Variable drv : Driver.

(** X1. [connect] never raises: it answers with a success flag and a
    message, and [lost_device] is the negation of the flag afterwards. A
    success has made the four driver calls, in order, and holds both
    handles. *)
Theorem connect_sets_lost_device (s : State) :
  exists ok msg s',
    connect drv s = (inr (ok, msg), s') /\
    lost_device s' = negb ok /\
    (ok = true ->
     calls s' = (calls s ++ [CallNewContext; CallNewCamera; CallInit; CallGetSummary])%list /\
     is_Some (camera s') /\ is_Some (context s')).
Proof.
  unfold connect, try_except, bind, modify, ret, raise, call. cbn.
  destruct (new_context drv _);
    [|eexists false, _, _; repeat split; try reflexivity; discriminate].
  destruct (new_camera drv _);
    [|eexists false, _, _; repeat split; try reflexivity; discriminate].
  destruct (camera_init drv _);
    [|eexists false, _, _; repeat split; try reflexivity; discriminate].
  destruct (get_summary drv _) as [[|l ls]|];
    [eexists false, _, _; repeat split; try reflexivity; discriminate
    | | eexists false, _, _; repeat split; try reflexivity; discriminate].
  eexists true, _, _. split; [reflexivity|]. split; [reflexivity|]. intros _.
  cbn. rewrite <- !app_assoc. cbn. repeat split; eexists; reflexivity.
Qed.

(** *** The classification of capture errors *)

Lemma handle_capture_error_answer (e : PyExc) (attempt max_attempts : Z) (s : State) :
  exists s',
    _handle_capture_error drv e attempt max_attempts s = (inr (is_io_busy e), s') /\
    (is_io_busy e = true -> s' = upd_io_error_counter (_io_error_counter s + 1) s).
Proof.
  unfold _handle_capture_error.
  destruct (teardown_resets drv (exc_str e) s) as (s1 & log & E).
  destruct (is_io_busy e).
  - eexists. split; [reflexivity|]. intros _. reflexivity.
  - destruct (is_usb_lost (exc_str e)); [eexists; split; [exact E | discriminate]|].
    destruct (is_fatal (exc_str e)); eexists; (split; [first [exact E | reflexivity]|]);
      discriminate.
Qed.

(** X2. A capture error is retried exactly when it is I/O-busy; then the
    counter of transient errors goes up by one and nothing else changes.
    An error that is neither busy, nor USB-lost, nor fatal leaves the
    handler as it was: it is not counted. The order of the tests matters:
    the text of an error with code -110 also holds "-1", the mark of a
    fatal error, and the error is retried because the busy test comes
    first. *)
Theorem handle_capture_error_classifies (e : PyExc) (attempt max_attempts : Z) (s : State) :
  exists s',
    _handle_capture_error drv e attempt max_attempts s = (inr (is_io_busy e), s') /\
    (is_io_busy e = true -> s' = upd_io_error_counter (_io_error_counter s + 1) s) /\
    (is_io_busy e = false -> is_usb_lost (exc_str e) = false ->
     is_fatal (exc_str e) = false -> s' = s) /\
    (contains (exc_str e) "-110" = true ->
     is_io_busy e = true /\ is_fatal (exc_str e) = true).
Proof.
  destruct (handle_capture_error_answer e attempt max_attempts s) as (s' & E & B).
  exists s'. split; [exact E|]. split; [exact B|]. split.
  - intros H1 H2 H3.
    unfold _handle_capture_error in E. rewrite H1, H2, H3 in E. injection E as <-.
    reflexivity.
  - intros H. split.
    + unfold is_io_busy. rewrite H. reflexivity.
    + unfold is_fatal. rewrite (contains_app "-1" "10" _ H). reflexivity.
Qed.

End Engine.


End EngineFacts.

(** ** Tethering: the event drain and the downloads *)

Module TetherFacts.
Import Py PyFacts Frames PyBytes PyStr Jpeg CameraHandler HandlerFacts HandlerFrames EngineFacts.
Local Open Scope string_scope.
Local Open Scope Z_scope.
Local Open Scope py_scope.

(** The queue of downloads ([None]: the attribute is not there yet). *)
Definition queue (s : State) : list (option string * string) :=
  match _pending_downloads s with
  | Some l => l
  | None => []
  end.

(** The queue has grown at its end, by files with a name. *)
Definition queue_grows (s s' : State) : Prop :=
  exists added, queue s' = (queue s ++ added)%list /\ Forall (fun item => snd item <> "") added.

#[global] Instance queue_grows_preorder : PreOrder queue_grows.
Proof.
  split.
  - intros s. exists []. split; [symmetry; apply app_nil_r | constructor].
  - intros s1 s2 s3 (l1 & E1 & F1) (l2 & E2 & F2). exists (l1 ++ l2)%list.
    split; [rewrite E2, E1, app_assoc; reflexivity | apply Forall_app; split; assumption].
Qed.

(** What is left of the handler once the log of calls and the queue are
    put aside. *)
Definition besides_queue_and_log (s : State) : State :=
  upd_calls [] (upd_pending_downloads None s).

(** A file-added event queues the same download whether its payload
    has [folder] and [name] attributes or is a tuple of the two; a payload
    without a name queues nothing. *)
Lemma file_added_payload_styles (folder name : option string) (rest : list (option string))
    (s : State) :
  file_added (DataTuple (folder :: name :: rest)) s = file_added (DataAttrs folder name) s /\
  (truthy name = true ->
   exists n, name = Some n /\
     queue (snd (file_added (DataAttrs folder name) s)) = (queue s ++ [(folder, n)])%list) /\
  (truthy name = false -> file_added (DataAttrs folder name) s = (inr tt, s)).
Proof.
  unfold file_added, or_else, truthy, queue_download, modify, ret, queue. repeat split.
  - destruct folder as [[|c f]|], name as [[|c' n]|]; reflexivity.
  - destruct name as [[|c' n]|]; try discriminate. intros _. exists (String c' n).
    split; [reflexivity|]. destruct folder as [[|c f]|]; reflexivity.
  - destruct name as [[|c' n]|]; try discriminate; intros _;
      destruct folder as [[|c f]|]; reflexivity.
Qed.

Lemma respects_queue_download (folder : option string) (c : ascii) (name : string) :
  respects queue_grows (queue_download folder (String c name)).
Proof.
  intros s. exists [(folder, String c name)]. split; [reflexivity|].
  repeat constructor. discriminate.
Qed.

Lemma respects_file_added_queue (event_data : EventData) :
  respects queue_grows (file_added event_data).
Proof.
  unfold file_added. cbv zeta.
  match goal with |- respects _ (match ?x with _ => _ end) => destruct x as [[|c name]|] end;
    [apply respects_ret; apply _ | apply respects_queue_download | apply respects_ret; apply _].
Qed.

Lemma queue_grows_call (c : Call) (s : State) : queue_grows s (upd_calls (calls s ++ [c]) s).
Proof. exists []. split; [symmetry; apply app_nil_r | constructor]. Qed.

Section Tether.
Variable drv : Driver.

Lemma respects_call_queue {A} (c : Call) (answer : nat -> Outcome A) :
  respects queue_grows (call c answer).
Proof. intros s. unfold call. destruct (answer _); apply queue_grows_call. Qed.

Lemma respects_drain_events_queue (pending : list (Outcome EventValue)) :
  respects queue_grows (drain_events pending).
Proof.
  induction pending as [|answer rest IH]; cbn [drain_events].
  - apply respects_call_queue.
  - refine (respects_bind _ _ _ _ _); [apply respects_call_queue|].
    intros [[| |] event_data|]; try (apply respects_ret; apply _); [|exact IH].
    refine (respects_bind _ _ _ _ _); [apply respects_file_added_queue | intros _; exact IH].
Qed.

(** X3. The event drain never raises. It adds to the end of the queue of
    downloads, and only files with a name; its calls are
    [wait_for_event] calls; nothing else of the handler changes. With
    tethering off, or without a camera, it does nothing at all. A
    file-added event queues the same download whether its payload has
    [folder] and [name] attributes or is a tuple of the two. *)
Theorem poll_events_only_queues (s : State) :
  (exists s',
      _poll_events_unlocked drv s = (inr tt, s') /\
      queue_grows s s' /\
      logs_only (fun c => c = CallWaitForEvent) s s' /\
      besides_queue_and_log s' = besides_queue_and_log s /\
      (_tether_running s = false \/ camera s = None -> s' = s)) /\
  (forall folder name rest,
      file_added (DataTuple (folder :: name :: rest)) s = file_added (DataAttrs folder name) s /\
      (truthy name = true ->
       exists n, name = Some n /\
         queue (snd (file_added (DataAttrs folder name) s)) = (queue s ++ [(folder, n)])%list) /\
      (truthy name = false -> file_added (DataAttrs folder name) s = (inr tt, s))).
Proof.
  split; [|intros folder name rest; apply file_added_payload_styles].
  destruct (no_raise_poll_events_unlocked drv s) as ([] & s' & E). exists s'.
  split; [exact E|].
  assert (S' : s' = snd (_poll_events_unlocked drv s)) by (rewrite E; reflexivity).
  rewrite S'. clear E S'. repeat split.
  - unfold _poll_events_unlocked, bind at 1, get at 1.
    destruct (_tether_running s); cbn [negb]; [|reflexivity].
    destruct (camera s); [|reflexivity].
    refine (respects_try_pass _ _ _ _). apply respects_drain_events_queue.
  - apply (respects_poll_events_unlocked drv (logs_only _) (fun c => c = CallWaitForEvent));
      logs_leaf.
  - apply (respects_poll_events_unlocked drv (keeps besides_queue_and_log) (fun _ => True));
      keeps_leaf.
  - intros [H|H]; unfold _poll_events_unlocked, bind, get, ret.
    + rewrite H. reflexivity.
    + rewrite H. destruct (_tether_running s); reflexivity.
Qed.

(** *** Downloads *)

(** The files a log of calls asks the camera for. *)
Definition file_gets (l : list Call) : list (option string * string) :=
  omap (fun c => match c with CallFileGet folder name => Some (folder, name) | _ => None end) l.

Lemma file_gets_app (l1 l2 : list Call) : file_gets (l1 ++ l2) = (file_gets l1 ++ file_gets l2)%list.
Proof. apply omap_app. Qed.

(** The body of the loop over the queued downloads. *)
Definition download_one (item : option string * string) : M State unit :=
  let folder := fst item in
  let name := snd item in
  let ext := lower (snd (splitext name)) in
  let filetype :=
    if existsb (String.eqb ext) [".arw"; ".nef"; ".cr2"; ".rw2"; ".raf"]
    then "arw" else "jpg" in
  path <- _download_file drv folder name ;;
  s <- get ;;
  match path, _tether_callback s with
  | Some p, Some _ =>
      try_pass (call (CallTetherCallback p filetype) (tether_callback_result drv))
  | _, _ => ret tt
  end.

Lemma download_one_spec (item : option string * string) (s : State) :
  exists l s',
    download_one item s = (inr tt, s') /\
    calls s' = (calls s ++ l)%list /\ file_gets l = [item] /\
    _pending_downloads s' = _pending_downloads s.
Proof.
  destruct item as [folder name].
  unfold download_one, _download_file, try_pass, try_except, bind, get, ret, call.
  cbn [fst snd calls upd_calls _tether_download_dir _tether_callback _pending_downloads].
  repeat match goal with
         | |- context [os_makedirs drv ?n] => destruct (os_makedirs drv n)
         | |- context [camera_file_get drv ?n] => destruct (camera_file_get drv n)
         | |- context [file_save drv ?n] => destruct (file_save drv n)
         | |- context [match _tether_callback s with _ => _ end] =>
             destruct (_tether_callback s)
         | |- context [tether_callback_result drv ?n] =>
             destruct (tether_callback_result drv n)
         | a : unit |- _ => destruct a
         | _ => progress cbn [fst snd calls upd_calls _tether_download_dir _tether_callback
                              _pending_downloads]
         end;
    rewrite <- ?app_assoc;
    eexists _, _; (split; [reflexivity|]); (split; [reflexivity|]); split; reflexivity.
Qed.

Lemma for_each_download (items : list (option string * string)) (s : State) :
  exists l s',
    for_each items download_one s = (inr tt, s') /\
    calls s' = (calls s ++ l)%list /\ file_gets l = items /\
    _pending_downloads s' = _pending_downloads s.
Proof.
  revert s. induction items as [|item items IH]; intros s; cbn [for_each].
  - exists [], s. repeat split. symmetry. apply app_nil_r.
  - destruct (download_one_spec item s) as (l1 & s1 & E1 & C1 & G1 & P1).
    rewrite (bind_run _ _ _ _ _ E1).
    destruct (IH s1) as (l2 & s2 & E2 & C2 & G2 & P2).
    exists (l1 ++ l2)%list, s2. split; [exact E2|].
    split; [rewrite C2, C1, app_assoc; reflexivity|].
    split; [rewrite file_gets_app, G1, G2; reflexivity | congruence].
Qed.

Lemma no_raise_process_pending_downloads : no_raise (_process_pending_downloads drv).
Proof.
  intros s. unfold _process_pending_downloads, bind at 1, get at 1.
  destruct (_pending_downloads s) as [[|item items]|]; try (eexists _, _; reflexivity).
  unfold bind at 1, modify at 1.
  destruct (for_each_download (item :: items) (upd_pending_downloads (Some []) s))
    as (l & s' & E & _).
  exists tt, s'. exact E.
Qed.

(** X4. Processing the queue never raises and empties it. Every queued
    file is asked of the camera exactly once, in the order of the queue,
    whatever the earlier downloads and the callback did. *)
Theorem pending_downloads_drained (s : State) :
  exists l s',
    _process_pending_downloads drv s = (inr tt, s') /\
    calls s' = (calls s ++ l)%list /\
    file_gets l = queue s /\
    queue s' = [].
Proof.
  unfold _process_pending_downloads, bind at 1, get at 1, queue.
  destruct (_pending_downloads s) as [[|item items]|] eqn:P.
  - exists [], s. rewrite P. repeat split. symmetry. apply app_nil_r.
  - unfold bind at 1, modify at 1.
    destruct (for_each_download (item :: items) (upd_pending_downloads (Some []) s))
      as (l & s' & E & C & G & P').
    exists l, s'. split; [exact E|]. split; [exact C|]. split; [exact G|].
    rewrite P'. reflexivity.
  - exists [], s. rewrite P. repeat split. symmetry. apply app_nil_r.
Qed.

End Tether.

End TetherFacts.

(** ** The frame pipeline and the retry loop *)

Module PipelineFacts.
Import Py PyFacts Frames PyBytes PyStr Jpeg JpegFacts CameraHandler HandlerFacts HandlerFrames
  EngineFacts.
Local Open Scope string_scope.
Local Open Scope Z_scope.
Local Open Scope py_scope.

(** The orientation is one of the four codes the handler knows. *)
Definition valid_orientation (s : State) : Prop :=
  orientation s = ORIENTATION_NORMAL \/ orientation s = ORIENTATION_90 \/
  orientation s = ORIENTATION_180 \/ orientation s = ORIENTATION_270.

(** The rotation that belongs to an orientation ([_apply_rotation]). *)
Definition rotation_of (orientation : Z) : option RotateCode :=
  if orientation =? ORIENTATION_180 then Some ROTATE_180
  else if orientation =? ORIENTATION_270 then Some ROTATE_90_COUNTERCLOCKWISE
  else if orientation =? ORIENTATION_90 then Some ROTATE_90_CLOCKWISE
  else None.

(** The preview captures of a log of calls. *)
Definition is_preview (c : Call) : bool :=
  match c with
  | CallCapturePreview => true
  | _ => false
  end.

Definition previews (l : list Call) : nat := length (filter (fun c => is_preview c = true) l).

(** The messages the disconnect callback was called with. *)
Definition disconnects (l : list Call) : list string :=
  omap (fun c => match c with CallDisconnectCallback m => Some m | _ => None end) l.

Definition not_preview (c : Call) : Prop := is_preview c = false.

Definition silent (c : Call) : Prop :=
  is_preview c = false /\ forall m, c <> CallDisconnectCallback m.

Lemma previews_app (l1 l2 : list Call) : previews (l1 ++ l2) = (previews l1 + previews l2)%nat.
Proof. unfold previews. rewrite filter_app, length_app. reflexivity. Qed.

Lemma previews_not_preview (l : list Call) : Forall not_preview l -> previews l = 0%nat.
Proof.
  unfold previews. induction 1 as [|c l H _ IH]; [reflexivity|].
  rewrite filter_cons_False; [exact IH|]. unfold not_preview in H. rewrite H. discriminate.
Qed.

Lemma disconnects_app (l1 l2 : list Call) :
  disconnects (l1 ++ l2) = (disconnects l1 ++ disconnects l2)%list.
Proof. apply omap_app. Qed.

Lemma disconnects_silent (l : list Call) : Forall silent l -> disconnects l = [].
Proof.
  induction 1 as [|c l [_ H] _ IH]; [reflexivity|].
  unfold disconnects in *. destruct c; cbn; try exact IH. destruct (H message eq_refl).
Qed.

Lemma silent_not_preview (l : list Call) : Forall silent l -> Forall not_preview l.
Proof. intros H. eapply Forall_impl; [exact H|]. intros c [Hc _]. exact Hc. Qed.

(** [c] adds at most [n] preview captures to the log. *)
Definition at_most (n : nat) {A} (c : M State A) : Prop :=
  forall s, exists l, calls (snd (c s)) = (calls s ++ l)%list /\ (previews l <= n)%nat.

Lemma at_most_quiet {A} (c : M State A) : respects (logs_only not_preview) c -> at_most 0 c.
Proof.
  intros H s. destruct (H s) as (l & E & F). exists l. split; [exact E|].
  rewrite (previews_not_preview l F). lia.
Qed.

Lemma at_most_weaken (n m : nat) {A} (c : M State A) :
  (n <= m)%nat -> at_most n c -> at_most m c.
Proof. intros L H s. destruct (H s) as (l & E & P). exists l. split; [exact E | lia]. Qed.

Lemma at_most_bind (n m : nat) {A B} (c : M State A) (k : A -> M State B) :
  at_most n c -> (forall a, at_most m (k a)) -> at_most (n + m) (bind c k).
Proof.
  intros Hc Hk s. unfold bind. destruct (Hc s) as (l1 & E1 & P1).
  destruct (c s) as [[e|a] s1]; cbn [snd] in *.
  - exists l1. split; [exact E1 | lia].
  - destruct (Hk a s1) as (l2 & E2 & P2). exists (l1 ++ l2)%list.
    split; [rewrite E2, E1, app_assoc; reflexivity | rewrite previews_app; lia].
Qed.

Lemma at_most_caught (n : nat) {A} (c : M State A) : at_most n c -> at_most n (caught c).
Proof. intros H s. unfold caught. specialize (H s). destruct (c s). exact H. Qed.

Ltac quiet_leaf :=
  try apply _; intros;
  first [ reflexivity
        | exact I
        | exists []; split; [symmetry; apply app_nil_r | constructor]
        | eexists [_]; split; [reflexivity | repeat constructor; assumption]
        | split; [reflexivity | intros ?; discriminate] ].

Section Pipeline.
Variable drv : Driver.

(** *** [release] *)

Lemma release_closed (s : State) :
  camera s = None -> context s = None ->
  release drv s = (inr tt, reset_state (upd_tether_running false s)).
Proof.
  intros Hc Hx. unfold release, stop_tether, try_pass, try_except, bind, get, modify, ret.
  cbn. rewrite Hc. cbn. rewrite Hx. reflexivity.
Qed.

Lemma reset_state_again (s : State) :
  _tether_running s = false ->
  reset_state (upd_tether_running false (reset_state s)) = reset_state s.
Proof. destruct s. cbn [_tether_running]. intros ->. vm_compute. reflexivity. Qed.

(** X5. [release] is idempotent: run on the state a [release] has left,
    it makes no call to the driver and changes nothing. *)
Theorem release_twice (s : State) :
  release drv (snd (release drv s)) = (inr tt, snd (release drv s)).
Proof.
  destruct (release_resets drv s) as (s1 & E).
  assert (T : _tether_running (snd (release drv s)) = false).
  { rewrite release_unfold.
    apply (respects_release_handles drv (keeps _tether_running) (fun _ => True)); keeps_leaf. }
  rewrite E in *. cbn [snd] in *. rewrite release_closed by reflexivity.
  rewrite reset_state_again; [reflexivity | exact T].
Qed.

(** *** Orientation *)

(** X6. The orientation of the handler stays one of the four codes:
    [set_orientation] takes one of them and ignores any other value, and
    a frame request, [connect] and [release] keep a valid code valid. *)
Theorem orientation_stays_valid (s : State) :
  valid_orientation s ->
  (forall code,
      valid_orientation (snd (set_orientation code s)) /\
      (code <> ORIENTATION_NORMAL -> code <> ORIENTATION_90 -> code <> ORIENTATION_180 ->
       code <> ORIENTATION_270 -> set_orientation code s = (inr tt, s))) /\
  valid_orientation (snd (get_frame_base64 drv s)) /\
  valid_orientation (snd (connect drv s)) /\
  valid_orientation (snd (release drv s)).
Proof.
  intros V. repeat split.
  - unfold set_orientation, valid_orientation in *.
    destruct (Z.eqb_spec code ORIENTATION_NORMAL) as [->|N1]; [left; reflexivity|].
    destruct (Z.eqb_spec code ORIENTATION_90) as [->|N2]; [right; left; reflexivity|].
    destruct (Z.eqb_spec code ORIENTATION_180) as [->|N3]; [right; right; left; reflexivity|].
    destruct (Z.eqb_spec code ORIENTATION_270) as [->|N4]; [right; right; right; reflexivity|].
    exact V.
  - intros N1 N2 N3 N4. unfold set_orientation.
    destruct (Z.eqb_spec code ORIENTATION_NORMAL) as [E|_]; [contradiction|].
    destruct (Z.eqb_spec code ORIENTATION_90) as [E|_]; [contradiction|].
    destruct (Z.eqb_spec code ORIENTATION_180) as [E|_]; [contradiction|].
    destruct (Z.eqb_spec code ORIENTATION_270) as [E|_]; [contradiction|].
    reflexivity.
  - revert V.
    apply (respects_get_frame_base64 drv (preserves valid_orientation) (fun _ => True));
      try apply _; intros; unfold preserves;
      first [exact I | exact (fun V => V) | intros _; left; reflexivity].
  - revert V.
    apply (respects_connect drv (preserves valid_orientation) (fun _ => True));
      try apply _; intros; unfold preserves;
      first [exact I | exact (fun V => V) | intros _; left; reflexivity].
  - revert V.
    apply (respects_release drv (preserves valid_orientation) (fun _ => True));
      try apply _; intros; unfold preserves;
      first [exact I | exact (fun V => V) | intros _; left; reflexivity].
Qed.

(** *** Frames that do not pass *)

(** X7. A frame the normalizer rejects is counted, on both counters, and
    [None] is returned; the session is neither marked lost nor closed,
    however many such frames came before, and the only call made is the
    reading of the clock. *)
Theorem corrupt_frame_is_counted (file_data : FileData) (s : State) :
  _trim_to_eoi file_data = None ->
  exists s',
    _process_frame_to_base64 drv file_data s = (inr None, s') /\
    _io_error_counter s' = _io_error_counter s + 1 /\
    _consecutive_corrupt_frames s' = _consecutive_corrupt_frames s + 1 /\
    lost_device s' = lost_device s /\ camera s' = camera s /\
    calls s' = (calls s ++ [CallTime])%list.
Proof.
  intros H. unfold _process_frame_to_base64, try_except, process_frame. rewrite H.
  unfold count_corrupt_frame, time_now, bind, modify, call, get, when, ret.
  cbn [_last_corrupt_frame_log upd_calls upd_consecutive_corrupt_frames upd_io_error_counter
       calls].
  match goal with |- context [?a >? ?b] => destruct (a >? b) end;
    eexists; (split; [reflexivity|]); repeat split.
Qed.

(** *** Rotated frames *)

(** X8. With an orientation other than normal the frame is decoded,
    rotated by the code that belongs to the orientation (180, or a
    quarter turn counter-clockwise for 270 and clockwise for 90) and
    encoded again; the result is the data URI of the encoded buffer, both
    error counters are reset and no call leaves the handler. *)
Theorem rotated_frame_is_reencoded
    (file_data : FileData) (normalized buf : bytes) (img rotated : ndarray)
    (code : RotateCode) (s : State) :
  rotation_of (orientation s) = Some code ->
  _trim_to_eoi file_data = Some normalized ->
  cv2_imdecode drv normalized = Returns (Some img) ->
  cv2_rotate drv img code = Returns rotated ->
  cv2_imencode drv rotated = Returns (true, buf) ->
  exists s',
    _process_frame_to_base64 drv file_data s
      = (inr (Some (data_uri_prefix ++ Base64.b64encode buf)), s') /\
    decode_data_uri (data_uri_prefix ++ Base64.b64encode buf) = Some buf /\
    _io_error_counter s' = 0 /\ _consecutive_corrupt_frames s' = 0 /\
    calls s' = calls s.
Proof.
  intros Hcode Ht Hd Hr He.
  pose proof (trim_to_eoi_length _ _ Ht) as L.
  destruct normalized as [|x normalized]; [cbn in L; lia|].
  assert (N : (orientation s =? ORIENTATION_NORMAL) = false).
  { unfold rotation_of in Hcode.
    destruct (Z.eqb_spec (orientation s) ORIENTATION_NORMAL) as [E|_]; [|reflexivity].
    rewrite E in Hcode. discriminate. }
  assert (Hrot : _apply_rotation drv img s = (inr rotated, s)).
  { unfold _apply_rotation, bind, get. unfold rotation_of in Hcode.
    destruct (orientation s =? ORIENTATION_180);
      [injection Hcode as <-; rewrite Hr; reflexivity|].
    destruct (orientation s =? ORIENTATION_270);
      [injection Hcode as <-; rewrite Hr; reflexivity|].
    destruct (orientation s =? ORIENTATION_90);
      [injection Hcode as <-; rewrite Hr; reflexivity | discriminate]. }
  unfold _process_frame_to_base64, try_except, process_frame. rewrite Ht.
  unfold bind at 1, get at 1. rewrite N.
  rewrite Hd. unfold bind at 1, of_outcome at 1, ret at 1.
  unfold bind at 1. rewrite Hrot.
  rewrite He. unfold bind at 1, of_outcome at 1, ret at 1. cbn [fst snd negb].
  unfold reset_error_counters, bind, modify, ret.
  eexists. split; [reflexivity|]. split; [apply decode_data_uri_encode|]. repeat split.
Qed.

(** *** Retries are bounded *)

Ltac quiet_solve :=
  first
    [ apply (respects_call (logs_only not_preview) not_preview); quiet_leaf
    | apply (respects_time_now drv (logs_only not_preview) not_preview); quiet_leaf
    | apply (respects_sleep (logs_only not_preview) not_preview); quiet_leaf
    | apply (respects_poll_events_unlocked drv (logs_only not_preview) not_preview); quiet_leaf
    | apply (respects_process_pending_downloads drv (logs_only not_preview) not_preview);
      quiet_leaf
    | apply (respects_handle_capture_error drv (logs_only not_preview) not_preview);
      quiet_leaf
    | apply (respects_process_frame_to_base64 drv (logs_only not_preview) not_preview);
      quiet_leaf
    | quiet_leaf ].

Lemma capture_attempt_at_most : at_most 1 (capture_attempt drv).
Proof.
  unfold capture_attempt.
  apply (at_most_bind 0 1); [apply at_most_quiet; quiet_solve | intros now].
  apply (at_most_bind 0 1); [apply at_most_quiet; apply respects_get; apply _ | intros s0].
  apply (at_most_bind 0 1);
    [apply at_most_quiet; apply respects_when; [apply _ | quiet_solve] | intros _].
  apply (at_most_bind 0 1); [apply at_most_quiet; quiet_solve | intros _].
  apply (at_most_bind 1 0).
  - intros s. unfold call. exists [CallCapturePreview].
    destruct (capture_preview drv _); split; reflexivity.
  - intros camera_file. apply at_most_quiet. respects_with quiet_solve.
Qed.

Lemma retry_loop_at_most (delays : list Z) (attempt max_attempts : Z) :
  at_most (length delays) (retry_loop drv delays attempt max_attempts).
Proof.
  revert attempt. induction delays as [|delay rest IH]; intros attempt; cbn [retry_loop length].
  - apply at_most_quiet. unfold exceeded_retries. respects_with quiet_solve.
  - apply (at_most_bind 1 (length rest));
      [apply at_most_caught, capture_attempt_at_most | intros [e|file_data]].
    + apply (at_most_bind 0 (length rest)); [apply at_most_quiet; quiet_solve | intros again].
      destruct again.
      * apply (at_most_bind 0 (length rest)); [apply at_most_quiet; quiet_solve | intros _].
        apply IH.
      * apply (at_most_weaken 0); [lia|]. apply at_most_quiet. respects_with quiet_solve.
    + apply (at_most_weaken 0); [lia|]. apply at_most_quiet. respects_with quiet_solve.
Qed.

(** X9. One frame request asks the camera for a preview at most once per
    entry of the retry schedule (three times with the schedule the handler
    is built with), whatever the driver answers. *)
Theorem previews_bounded_by_schedule (s : State) :
  exists l,
    calls (snd (get_frame_base64 drv s)) = (calls s ++ l)%list /\
    (previews l <= length (_retry_delays s))%nat.
Proof.
  destruct (retry_loop_at_most (_retry_delays s) 1 (Z.of_nat (length (_retry_delays s))) s)
    as (l1 & E1 & P1).
  unfold get_frame_base64, bind at 1, get at 1.
  destruct (camera s);
    [|exists []; split; [symmetry; apply app_nil_r | cbn; lia]].
  unfold bind at 1, _capture_preview_with_retry, bind at 1, get at 1.
  destruct (retry_loop drv _ _ _ s) as [[e|[file_data|]] s1]; cbn [snd] in *;
    try (exists l1; split; [exact E1 | exact P1]).
  destruct (negb (truthy_data file_data)); [exists l1; split; [exact E1 | exact P1]|].
  assert (H : respects (logs_only not_preview) (_process_frame_to_base64 drv file_data))
    by quiet_solve.
  destruct (H s1) as (l2 & E2 & F2). exists (l1 ++ l2)%list.
  split; [rewrite E2, E1, app_assoc; reflexivity|].
  rewrite previews_app, (previews_not_preview l2 F2). lia.
Qed.

(** *** What a returned frame tells *)

Ltac inv_bind H :=
  let a := fresh "a" in
  let s := fresh "s" in
  let E := fresh "E" in
  apply bind_inr_inv in H; destruct H as (a & s & E & H).

Lemma process_frame_some (file_data : FileData) (frame : string) (s s' : State) :
  process_frame drv file_data s = (inr (Some frame), s') ->
  (exists payload, frame = data_uri_prefix ++ Base64.b64encode payload) /\
  _io_error_counter s' = 0 /\ _consecutive_corrupt_frames s' = 0.
Proof.
  unfold process_frame.
  assert (Corrupt :
            (count_corrupt_frame ;;;
             now <- time_now drv ;;
             s0 <- get ;;
             when (now - _last_corrupt_frame_log s0 >? 1000)
                  (modify (upd_last_corrupt_frame_log now)) ;;;
             ret None) s = (inr (Some frame), s') -> False).
  { intros H. inv_bind H. inv_bind H. inv_bind H. inv_bind H. discriminate. }
  destruct (_trim_to_eoi file_data) as [[|x normalized]|];
    [intros H; destruct (Corrupt H) | | intros H; destruct (Corrupt H)].
  clear Corrupt. intros H. inv_bind H.
  assert (Reset : forall payload s1,
             (reset_error_counters ;;;
              ret (Some (data_uri_prefix ++ Base64.b64encode payload))) s1
             = (inr (Some frame), s') ->
             (exists payload, frame = data_uri_prefix ++ Base64.b64encode payload) /\
             _io_error_counter s' = 0 /\ _consecutive_corrupt_frames s' = 0).
  { intros payload s1. unfold reset_error_counters, bind, modify, ret.
    intros [= <- <-]. split; [eexists; reflexivity | split; reflexivity]. }
  destruct (orientation a =? ORIENTATION_NORMAL); [exact (Reset _ _ H)|].
  inv_bind H. destruct a0 as [img|]; [|inv_bind H; discriminate].
  inv_bind H. inv_bind H. destruct (negb (fst a1)); [discriminate|].
  exact (Reset _ _ H).
Qed.

(** The handler of an exception of the frame processing answers [None]. *)
Lemma process_frame_handler_none (e : PyExc) (frame : string) (s s' : State) :
  (if is_usb_lost (exc_str e) then
     modify (upd_lost_device true) ;;;
     try_pass (release drv) ;;;
     notify_disconnect drv (exc_str e) ;;;
     ret None
   else if is_fatal (exc_str e) then
     modify (upd_lost_device true) ;;;
     try_pass (release drv) ;;;
     notify_disconnect drv (exc_str e) ;;;
     ret None
   else ret None) s = (inr (Some frame), s') -> False.
Proof.
  destruct (is_usb_lost (exc_str e)); [|destruct (is_fatal (exc_str e))]; intros H;
    try discriminate; inv_bind H; inv_bind H; inv_bind H; discriminate.
Qed.

Lemma process_frame_to_base64_some (file_data : FileData) (frame : string) (s s' : State) :
  _process_frame_to_base64 drv file_data s = (inr (Some frame), s') ->
  process_frame drv file_data s = (inr (Some frame), s').
Proof.
  unfold _process_frame_to_base64, try_except.
  destruct (process_frame drv file_data s) as [[e|r] s1]; [|intros H; exact H].
  intros H. destruct (process_frame_handler_none _ _ _ _ H).
Qed.

(** A retry loop that hands back frame data has not closed the session. *)
Lemma retry_loop_some (delays : list Z) (attempt max_attempts : Z)
    (file_data : FileData) (s s' : State) :
  retry_loop drv delays attempt max_attempts s = (inr (Some file_data), s') ->
  camera s' = camera s /\ context s' = context s.
Proof.
  revert attempt s. induction delays as [|delay rest IH]; intros attempt s; cbn [retry_loop].
  - rewrite exceeded_retries_spec. discriminate.
  - intros H. inv_bind H.
    assert (K : camera s0 = camera s /\ context s0 = context s).
    { assert (S0 : s0 = snd (caught (capture_attempt drv) s)) by (rewrite E; reflexivity).
      rewrite S0. unfold caught. destruct (capture_attempt drv s) as [r s1] eqn:C.
      cbn [snd]. assert (S1 : s1 = snd (capture_attempt drv s)) by (rewrite C; reflexivity).
      rewrite S1. split.
      - apply (respects_capture_attempt drv (keeps camera) (fun _ => True)); keeps_leaf.
      - apply (respects_capture_attempt drv (keeps context) (fun _ => True)); keeps_leaf. }
    destruct a as [e|fd].
    + inv_bind H.
      destruct (handle_capture_error_answer drv e attempt max_attempts s0)
        as (s2 & E2 & Busy).
      rewrite E2 in E0. injection E0 as <- <-.
      destruct (is_io_busy e); [|discriminate]. rewrite (Busy eq_refl) in H.
      inv_bind H. destruct (IH _ _ H) as [K1 K2].
      set (st := upd_io_error_counter (_io_error_counter s0 + 1) s0) in *.
      assert (S4 : s1 = snd (sleep delay st)) by (rewrite E0; reflexivity).
      assert (K3 : camera s1 = camera st /\ context s1 = context st).
      { rewrite S4. split.
        - apply (respects_sleep (keeps camera) (fun _ => True)); keeps_leaf.
        - apply (respects_sleep (keeps context) (fun _ => True)); keeps_leaf. }
      change (camera st) with (camera s0) in K3. change (context st) with (context s0) in K3.
      destruct K as [K K']. destruct K3 as [K3 K3']. split; congruence.
    + injection H as <- <-. exact K.
Qed.

(** X10. A frame request that returns a frame has left the handler in
    good order: the frame is a data URI whose payload decodes, both error
    counters are 0, and the session is as open as before (no teardown has
    run). *)
Theorem returned_frame_means_healthy (frame : string) (s s' : State) :
  get_frame_base64 drv s = (inr (Some frame), s') ->
  (exists payload,
      frame = data_uri_prefix ++ Base64.b64encode payload /\
      decode_data_uri frame = Some payload) /\
  _io_error_counter s' = 0 /\ _consecutive_corrupt_frames s' = 0 /\
  is_Some (camera s) /\ camera s' = camera s /\ context s' = context s.
Proof.
  unfold get_frame_base64, bind at 1, get at 1.
  destruct (camera s) as [cam|] eqn:Hcam; [|discriminate].
  intros H. inv_bind H. unfold _capture_preview_with_retry, bind at 1, get at 1 in E.
  destruct a as [file_data|]; [|discriminate].
  destruct (retry_loop_some _ _ _ _ _ _ E) as [K1 K2].
  destruct (negb (truthy_data file_data)); [discriminate|].
  apply process_frame_to_base64_some in H.
  destruct (process_frame_some _ _ _ _ H) as ((payload & ->) & C1 & C2).
  assert (S' : s' = snd (process_frame drv file_data s0)) by (rewrite H; reflexivity).
  split; [exists payload; split; [reflexivity | apply decode_data_uri_encode]|].
  split; [exact C1|]. split; [exact C2|]. split; [eexists; reflexivity|].
  rewrite <- Hcam, <- K1, <- K2, S'. split.
  - apply (respects_process_frame drv (keeps camera) (fun _ => True)); keeps_leaf.
  - apply (respects_process_frame drv (keeps context) (fun _ => True)); keeps_leaf.
Qed.

(** *** The teardown on a lost session *)

Definition silently (s s' : State) : Prop :=
  both (logs_only silent) (keeps _disconnect_callback) s s'.

Ltac silent_leaf :=
  try apply _; intros;
  first
    [ split; [exists []; split; [symmetry; apply app_nil_r | constructor] | reflexivity]
    | split; [eexists [_]; split; [reflexivity | constructor; [assumption | constructor]]
             | reflexivity]
    | split; [reflexivity | intros ?; discriminate] ].

(** An attempt whose preview capture fails: what precedes the capture
    makes no capture and calls no callback. *)
Lemma capture_attempt_fails (e : PyExc) :
  (forall t, capture_preview drv t = Raises e) ->
  forall s, exists l s1,
    capture_attempt drv s = (inl e, s1) /\
    calls s1 = (calls s ++ l ++ [CallCapturePreview])%list /\
    Forall silent l /\ _disconnect_callback s1 = _disconnect_callback s.
Proof.
  intros H s. unfold capture_attempt.
  destruct (run_respects silently (time_now drv) s) as (now & s1 & E1 & R1);
    [apply no_raise_time_now | apply (respects_time_now drv silently silent); silent_leaf|].
  rewrite (bind_run _ _ _ _ _ E1). unfold bind at 1, get at 1.
  destruct (run_respects silently
              (when (now - _last_capture_ts s1 <? _min_frame_interval s1)
                 (sleep (_min_frame_interval s1 - (now - _last_capture_ts s1)))) s1)
    as ([] & s2 & E2 & R2);
    [apply no_raise_rate_gate
    | apply respects_when; [apply _ | apply (respects_sleep silently silent); silent_leaf]|].
  rewrite (bind_run _ _ _ _ _ E2).
  destruct (run_respects silently (_poll_events_unlocked drv) s2) as ([] & s3 & E3 & R3);
    [apply no_raise_poll_events_unlocked
    | apply (respects_poll_events_unlocked drv silently silent); silent_leaf|].
  rewrite (bind_run _ _ _ _ _ E3).
  unfold bind at 1, call at 1. rewrite H.
  assert (R : silently s s3) by (etransitivity; [exact R1 | etransitivity; eassumption]).
  destruct R as [(l & C & F) K]. exists l, (upd_calls (calls s3 ++ [CallCapturePreview]) s3).
  split; [reflexivity|]. cbn [calls upd_calls _disconnect_callback].
  split; [rewrite C, app_assoc; reflexivity|]. split; [exact F | exact K].
Qed.

(** The teardown with a disconnect callback in place. *)
Lemma teardown_log (err_str : string) (cb : nat) (s : State) :
  _disconnect_callback s = Some cb ->
  exists l s',
    (modify (upd_lost_device true) ;;;
     try_pass (release drv) ;;;
     notify_disconnect drv err_str ;;;
     ret false) s = (inr false, s') /\
    calls s' = (calls s ++ l ++ [CallDisconnectCallback err_str])%list /\
    Forall silent l /\
    camera s' = None /\ context s' = None /\ lost_device s' = false.
Proof.
  intros Hcb. unfold bind at 1, modify at 1.
  set (st := upd_lost_device true s).
  destruct (release_resets drv st) as (s1 & E1).
  assert (R : silently st (snd (release drv st)))
    by (apply (respects_release drv silently silent); silent_leaf).
  rewrite E1 in R. cbn [snd] in R. destruct R as [(l & C & F) K].
  change (calls st) with (calls s) in C.
  unfold keeps in K.
  change (_disconnect_callback (reset_state s1) = _disconnect_callback s) in K.
  rewrite Hcb in K.
  rewrite (bind_run _ _ _ _ _ (try_pass_run _ _ _ _ E1)).
  unfold notify_disconnect, try_pass, try_except, bind, get, ret. rewrite K. unfold call.
  exists l. destruct (disconnect_callback_result drv _);
    (eexists; split; [reflexivity|]); cbn [calls upd_calls];
    (split; [rewrite C, app_assoc; reflexivity|]); (split; [exact F|]); repeat split.
Qed.

(** X11. A preview capture that fails with a USB-lost or fatal error ends
    the frame request at once: one capture has been asked for (the rest of
    the retry schedule is not used), the session is closed, and the
    disconnect callback has been called exactly once, with the text of the
    error. *)
Theorem session_loss_notifies_once
    (e : PyExc) (cam cb : nat) (delay : Z) (rest : list Z) (s : State) :
  camera s = Some cam ->
  _retry_delays s = delay :: rest ->
  _disconnect_callback s = Some cb ->
  (forall t, capture_preview drv t = Raises e) ->
  is_io_busy e = false ->
  is_usb_lost (exc_str e) || is_fatal (exc_str e) = true ->
  exists l s',
    get_frame_base64 drv s = (inr None, s') /\
    calls s' = (calls s ++ l)%list /\
    previews l = 1%nat /\ disconnects l = [exc_str e] /\
    camera s' = None /\ context s' = None /\ lost_device s' = false.
Proof.
  intros Hcam Hdelays Hcb Hcap Hbusy Hlost.
  unfold get_frame_base64, bind at 1, get at 1. rewrite Hcam.
  unfold bind at 1, _capture_preview_with_retry, bind at 1, get at 1.
  rewrite Hdelays. cbn [retry_loop].
  destruct (capture_attempt_fails e Hcap s) as (l1 & s1 & E1 & C1 & F1 & K1).
  assert (E1' : caught (capture_attempt drv) s = (inr (inl e), s1))
    by (unfold caught; rewrite E1; reflexivity).
  rewrite (bind_run _ _ _ _ _ E1').
  rewrite Hcb in K1.
  destruct (teardown_log (exc_str e) cb s1 K1) as (l2 & s2 & E2 & C2 & F2 & Z1 & Z2 & Z3).
  assert (E2' : _handle_capture_error drv e 1 (Z.of_nat (length (delay :: rest))) s1
                = (inr false, s2)).
  { unfold _handle_capture_error. rewrite Hbusy.
    destruct (is_usb_lost (exc_str e)); [exact E2|].
    cbn [orb] in Hlost. rewrite Hlost. exact E2. }
  rewrite (bind_run _ _ _ _ _ E2').
  exists ((l1 ++ [CallCapturePreview]) ++ l2 ++ [CallDisconnectCallback (exc_str e)])%list, s2.
  split; [reflexivity|].
  split; [rewrite C2, C1, <- !app_assoc; reflexivity|].
  split.
  - rewrite !previews_app, (previews_not_preview l1 (silent_not_preview l1 F1)),
      (previews_not_preview l2 (silent_not_preview l2 F2)). reflexivity.
  - rewrite !disconnects_app, (disconnects_silent l1 F1), (disconnects_silent l2 F2).
    repeat split; assumption.
Qed.

(** *** Tethering does not get in the way of the preview *)

(** [bytes(file_data)] for a [memoryview]. *)
Definition as_bytes (file_data : FileData) : FileData :=
  match file_data with
  | FDMemoryview b => FDBytes b
  | _ => file_data
  end.

Lemma capture_attempt_returns (camera_file : nat) (file_data : FileData) :
  (forall t, capture_preview drv t = Returns camera_file) ->
  (forall t, file_get_data drv t = Returns file_data) ->
  forall s, exists s',
    capture_attempt drv s = (inr (as_bytes file_data), s') /\
    _io_error_counter s' = 0.
Proof.
  intros Hc Hg s. unfold capture_attempt.
  destruct (no_raise_time_now drv s) as (now & s1 & E1). rewrite (bind_run _ _ _ _ _ E1).
  unfold bind at 1, get at 1.
  destruct (no_raise_rate_gate (now - _last_capture_ts s1) (_min_frame_interval s1) s1)
    as ([] & s2 & E2).
  rewrite (bind_run _ _ _ _ _ E2).
  destruct (no_raise_poll_events_unlocked drv s2) as ([] & s3 & E3).
  rewrite (bind_run _ _ _ _ _ E3).
  unfold bind at 1, call at 1. rewrite Hc.
  unfold bind at 1, call at 1. rewrite Hg.
  match goal with
  | |- context [bind (_process_pending_downloads drv) _ ?st] =>
      destruct (TetherFacts.no_raise_process_pending_downloads drv st) as ([] & s4 & E4)
  end.
  rewrite (bind_run _ _ _ _ _ E4).
  unfold bind, modify, time_now, call, ret. eexists. split; reflexivity.
Qed.

Lemma as_bytes_truthy (file_data : FileData) (normalized : bytes) :
  _trim_to_eoi (as_bytes file_data) = Some normalized ->
  truthy_data (as_bytes file_data) = true.
Proof.
  destruct file_data as [b|b|b|t]; cbn [as_bytes _trim_to_eoi truthy_data];
    try discriminate; destruct b; try discriminate; reflexivity.
Qed.

(** X12. Tethering does not get in the way of the preview: when the
    camera answers the preview capture, the frame request returns the
    frame (here with normal orientation) whatever the event poll, the
    downloads of announced files and the tether callback do, and the
    counter of transient errors is 0 afterwards. *)
Theorem preview_survives_tethering
    (camera_file cam : nat) (file_data : FileData) (normalized : bytes)
    (delay : Z) (rest : list Z) (s : State) :
  camera s = Some cam ->
  _retry_delays s = delay :: rest ->
  orientation s = ORIENTATION_NORMAL ->
  (forall t, capture_preview drv t = Returns camera_file) ->
  (forall t, file_get_data drv t = Returns file_data) ->
  _trim_to_eoi (as_bytes file_data) = Some normalized ->
  exists s',
    get_frame_base64 drv s
      = (inr (Some (data_uri_prefix ++ Base64.b64encode normalized)), s') /\
    _io_error_counter s' = 0 /\ _consecutive_corrupt_frames s' = 0 /\
    camera s' = Some cam.
Proof.
  intros Hcam Hdelays Ho Hc Hg Ht.
  unfold get_frame_base64, bind at 1, get at 1. rewrite Hcam.
  unfold bind at 1, _capture_preview_with_retry, bind at 1, get at 1.
  rewrite Hdelays. cbn [retry_loop].
  destruct (capture_attempt_returns camera_file file_data Hc Hg s) as (s1 & E1 & C1).
  assert (E1' : caught (capture_attempt drv) s = (inr (inr (as_bytes file_data)), s1))
    by (unfold caught; rewrite E1; reflexivity).
  rewrite (bind_run _ _ _ _ _ E1'). unfold ret at 1.
  rewrite (as_bytes_truthy _ _ Ht). cbn [negb].
  assert (S1 : s1 = snd (capture_attempt drv s)) by (rewrite E1; reflexivity).
  assert (O1 : orientation s1 = orientation s).
  { rewrite S1. apply (respects_capture_attempt drv (keeps orientation) (fun _ => True));
      keeps_leaf. }
  assert (K1 : camera s1 = camera s).
  { rewrite S1. apply (respects_capture_attempt drv (keeps camera) (fun _ => True));
      keeps_leaf. }
  pose proof (trim_to_eoi_length _ _ Ht) as L.
  unfold _process_frame_to_base64, try_except, process_frame. rewrite Ht.
  destruct normalized as [|x normalized]; [cbn in L; lia|].
  unfold bind at 1, get at 1. rewrite O1, Ho. cbn [Z.eqb ORIENTATION_NORMAL Pos.eqb].
  unfold reset_error_counters, bind, modify, ret.
  eexists. split; [reflexivity|]. repeat split. cbn [camera upd_consecutive_corrupt_frames
    upd_io_error_counter]. congruence.
Qed.

(** *** The rate gate *)

(** The lengths of the sleeps of a log of calls. *)
Definition sleeps (l : list Call) : list Z :=
  omap (fun c => match c with CallSleep ms => Some ms | _ => None end) l.

Definition not_sleep (c : Call) : Prop := forall ms, c <> CallSleep ms.

Lemma sleeps_not_sleep (l : list Call) : Forall not_sleep l -> sleeps l = [].
Proof.
  induction 1 as [|c l H _ IH]; [reflexivity|].
  unfold sleeps in *. destruct c; cbn; try exact IH. destruct (H ms eq_refl).
Qed.

Ltac awake_leaf :=
  try apply _; intros;
  first [ exists []; split; [symmetry; apply app_nil_r | constructor]
        | eexists [_]; split; [reflexivity | constructor; [assumption | constructor]]
        | intros ?; discriminate ].

Ltac awake_solve :=
  first
    [ apply (respects_call (logs_only not_sleep) not_sleep); awake_leaf
    | apply (respects_time_now drv (logs_only not_sleep) not_sleep); awake_leaf
    | apply (respects_poll_events_unlocked drv (logs_only not_sleep) not_sleep); awake_leaf
    | apply (respects_process_pending_downloads drv (logs_only not_sleep) not_sleep);
      awake_leaf
    | awake_leaf ].

(** X13. An attempt reads the clock first and sleeps only to hold the
    minimum interval between captures: for what is missing of the
    interval when the last capture is more recent than that, and not at
    all otherwise. *)
Theorem rate_gate_sleeps_the_remainder (s : State) :
  exists l,
    calls (snd (capture_attempt drv s)) = (calls s ++ CallTime :: l)%list /\
    sleeps l =
      if time_time drv (length (calls s)) - _last_capture_ts s <? _min_frame_interval s
      then [_min_frame_interval s - (time_time drv (length (calls s)) - _last_capture_ts s)]
      else [].
Proof.
  unfold capture_attempt, bind at 1, time_now, call at 1.
  set (now := time_time drv (length (calls s))).
  set (s1 := upd_calls (calls s ++ [CallTime]) s).
  unfold bind at 1, get at 1.
  change (_last_capture_ts s1) with (_last_capture_ts s).
  change (_min_frame_interval s1) with (_min_frame_interval s).
  assert (Rest : forall (x : PyExc + unit) (st : State),
             exists l,
               calls (snd (match x with
                           | inr a =>
                               (fun _ : unit =>
                                  _poll_events_unlocked drv ;;;
                                  camera_file <- call CallCapturePreview (capture_preview drv) ;;
                                  file_data <- call CallFileGetData (file_get_data drv) ;;
                                  _process_pending_downloads drv ;;;
                                  modify (upd_io_error_counter 0) ;;;
                                  t <- call CallTime (fun t => Returns (time_time drv t)) ;;
                                  modify (upd_last_capture_ts t) ;;;
                                  ret match file_data with
                                      | FDMemoryview b => FDBytes b
                                      | _ => file_data
                                      end) a st
                           | inl e => (inl e, st)
                           end)) = (calls st ++ l)%list /\ sleeps l = []).
  { intros [e|a] st; [exists []; split; [symmetry; apply app_nil_r | reflexivity]|].
    cbv beta.
    match goal with
    | |- context [snd (?c st)] =>
        assert (H : respects (logs_only not_sleep) c) by respects_with awake_solve
    end.
    destruct (H st) as (l & E & F). exists l. split; [exact E | apply sleeps_not_sleep, F]. }
  unfold bind at 1.
  destruct (Z.ltb_spec (now - _last_capture_ts s) (_min_frame_interval s)) as [Lt|Ge];
    cbn [when].
  - unfold sleep. destruct (Z.ltb_spec (_min_frame_interval s - (now - _last_capture_ts s)) 0);
      [lia|].
    unfold call at 1.
    destruct (Rest (inr tt)
                (upd_calls (calls s1 ++ [CallSleep (_min_frame_interval s
                                                   - (now - _last_capture_ts s))]) s1))
      as (l & E & F).
    exists (CallSleep (_min_frame_interval s - (now - _last_capture_ts s)) :: l).
    split.
    + etransitivity; [exact E|]. cbn [calls upd_calls s1]. rewrite <- !app_assoc. reflexivity.
    + cbn. unfold sleeps in F. rewrite F. reflexivity.
  - unfold ret at 1. destruct (Rest (inr tt) s1) as (l & E & F). exists l. split.
    + etransitivity; [exact E|]. cbn [calls upd_calls s1]. rewrite <- !app_assoc. reflexivity.
    + exact F.
Qed.

End Pipeline.

End PipelineFacts.

(** ** The frame engine on concrete inputs, continued *)

Module EngineExamples.
Import Py PyBytes PyStr Jpeg CameraHandler HandlerFacts HandlerExamples.
Import EngineFacts TetherFacts PipelineFacts.
Local Open Scope string_scope.
Local Open Scope Z_scope.

Definition trimmed_frame : bytes := [xff; xd8; x01; x02; xff; xd9].

(** A camera that announces a new file at every poll, then fails the
    poll; every download fails, and so does the tether callback. *)
Definition driver_tethered : Driver :=
  mkDriver (fun t => 1000 * Z.of_nat t)
    (fun _ => Returns 1%nat) (fun _ => Returns 2%nat) (fun _ => Returns tt)
    (fun _ => Returns ["Sony ILCE-7M3"])
    (fun _ => [Returns (EvTuple GP_EVENT_FILE_ADDED
                          (DataAttrs (Some "/store_00010001") (Some "DSC00001.ARW")));
               Raises busy])
    (fun _ => Returns 3%nat) (fun _ => Returns (FDMemoryview padded_frame))
    (fun _ => Raises busy) (fun _ => Raises busy) (fun _ => Raises busy)
    (fun _ => Raises busy) (fun _ => Returns tt)
    (fun _ => Returns tt) (fun _ => Returns tt) (fun _ => true) (fun _ => Returns tt)
    (fun _ => Returns None) (fun img _ => Returns img) (fun _ => Returns (false, [])).

(** OpenCV that decodes, rotates and encodes: the encoded buffer tells
    the image apart. *)
Definition driver_cv : Driver :=
  mkDriver (fun t => 1000 * Z.of_nat t)
    (fun _ => Returns 1%nat) (fun _ => Returns 2%nat) (fun _ => Returns tt)
    (fun _ => Returns ["Sony ILCE-7M3"])
    (fun _ => []) (fun _ => Returns 3%nat) (fun _ => Returns (FDMemoryview padded_frame))
    (fun _ => Returns tt) (fun _ => Returns tt) (fun _ => Returns tt)
    (fun _ => Returns tt) (fun _ => Returns tt)
    (fun _ => Returns tt) (fun _ => Returns tt) (fun _ => true) (fun _ => Returns tt)
    (fun b => Returns (Some (NdArray (length b))))
    (fun img code => match img with NdArray n => Returns (NdArray (S n)) end)
    (fun img => match img with NdArray n => Returns (true, repeat x4a n) end).

Definition driver_gone : Driver := driver (fun _ => Raises usb_gone).

(** The connected handler with tethering on and a tether callback. *)
Definition tethering : State := snd (start_tether (Some 4%nat) connected).

(** The connected handler with a disconnect callback. *)
Definition watched : State := snd (set_disconnect_callback (Some 5%nat) connected).

(** The connected handler turned by 270 degrees. *)
Definition turned : State := snd (set_orientation ORIENTATION_270 connected).

(** The busy error of the driver names code -110, and so passes the
    fatal test as well. *)
Example busy_is_retried :
  is_io_busy busy = true /\ is_fatal (exc_str busy) = true /\
  fst (_handle_capture_error driver_ok busy 1 3 connected) = inr true.
Proof. repeat split. Qed.

Lemma connected_valid : valid_orientation connected.
Proof. left. reflexivity. Qed.

Lemma orientation_stays_valid_witness :
  (forall code,
      valid_orientation (snd (set_orientation code connected)) /\
      (code <> ORIENTATION_NORMAL -> code <> ORIENTATION_90 -> code <> ORIENTATION_180 ->
       code <> ORIENTATION_270 -> set_orientation code connected = (inr tt, connected))) /\
  valid_orientation (snd (get_frame_base64 driver_ok connected)) /\
  valid_orientation (snd (connect driver_ok connected)) /\
  valid_orientation (snd (release driver_ok connected)).
Proof. apply (orientation_stays_valid driver_ok connected). exact connected_valid. Defined.

Lemma corrupt_frame_is_counted_witness :
  exists s',
    _process_frame_to_base64 driver_ok (FDBytes [xff; xd8; x01]) connected = (inr None, s') /\
    _io_error_counter s' = _io_error_counter connected + 1 /\
    _consecutive_corrupt_frames s' = _consecutive_corrupt_frames connected + 1 /\
    lost_device s' = lost_device connected /\ camera s' = camera connected /\
    calls s' = (calls connected ++ [CallTime])%list.
Proof.
  apply (corrupt_frame_is_counted driver_ok (FDBytes [xff; xd8; x01]) connected).
  reflexivity.
Defined.

Lemma turned_rotation : rotation_of (orientation turned) = Some ROTATE_90_COUNTERCLOCKWISE.
Proof. reflexivity. Qed.

Lemma padded_frame_trimmed : _trim_to_eoi (FDBytes padded_frame) = Some trimmed_frame.
Proof. reflexivity. Qed.

Lemma rotated_frame_is_reencoded_witness :
  exists s',
    _process_frame_to_base64 driver_cv (FDBytes padded_frame) turned
      = (inr (Some (data_uri_prefix ++ Base64.b64encode (repeat x4a 7))), s') /\
    decode_data_uri (data_uri_prefix ++ Base64.b64encode (repeat x4a 7)) = Some (repeat x4a 7) /\
    _io_error_counter s' = 0 /\ _consecutive_corrupt_frames s' = 0 /\
    calls s' = calls turned.
Proof.
  apply (rotated_frame_is_reencoded driver_cv (FDBytes padded_frame) trimmed_frame
           (repeat x4a 7) (NdArray 6) (NdArray 7) ROTATE_90_COUNTERCLOCKWISE turned
           turned_rotation padded_frame_trimmed eq_refl eq_refl eq_refl).
Defined.

Lemma first_frame :
  get_frame_base64 driver_ok connected
  = (inr (Some "data:image/jpeg;base64,/9gBAv/Z"), snd (get_frame_base64 driver_ok connected)).
Proof.
  rewrite (surjective_pairing (get_frame_base64 driver_ok connected)) at 1.
  f_equal; vm_compute; reflexivity.
Qed.

Lemma returned_frame_means_healthy_witness :
  (exists payload,
      "data:image/jpeg;base64,/9gBAv/Z" = data_uri_prefix ++ Base64.b64encode payload /\
      decode_data_uri "data:image/jpeg;base64,/9gBAv/Z" = Some payload) /\
  _io_error_counter (snd (get_frame_base64 driver_ok connected)) = 0 /\
  _consecutive_corrupt_frames (snd (get_frame_base64 driver_ok connected)) = 0 /\
  is_Some (camera connected) /\
  camera (snd (get_frame_base64 driver_ok connected)) = camera connected /\
  context (snd (get_frame_base64 driver_ok connected)) = context connected.
Proof.
  apply (returned_frame_means_healthy driver_ok "data:image/jpeg;base64,/9gBAv/Z" connected
           (snd (get_frame_base64 driver_ok connected)) first_frame).
Defined.

Lemma watched_camera : camera watched = Some 2%nat.
Proof. reflexivity. Qed.

Lemma watched_delays : _retry_delays watched = 0 :: [100; 500].
Proof. reflexivity. Qed.

Lemma watched_callback : _disconnect_callback watched = Some 5%nat.
Proof. reflexivity. Qed.

Lemma usb_gone_not_busy : is_io_busy usb_gone = false.
Proof. reflexivity. Qed.

Lemma usb_gone_lost : is_usb_lost (exc_str usb_gone) || is_fatal (exc_str usb_gone) = true.
Proof. reflexivity. Qed.

Lemma session_loss_notifies_once_witness :
  exists l s',
    get_frame_base64 driver_gone watched = (inr None, s') /\
    calls s' = (calls watched ++ l)%list /\
    previews l = 1%nat /\ disconnects l = [exc_str usb_gone] /\
    camera s' = None /\ context s' = None /\ lost_device s' = false.
Proof.
  apply (session_loss_notifies_once driver_gone usb_gone 2 5 0 [100; 500] watched
           watched_camera watched_delays watched_callback (fun _ => eq_refl)
           usb_gone_not_busy usb_gone_lost).
Defined.

Lemma tethering_camera : camera tethering = Some 2%nat.
Proof. reflexivity. Qed.

Lemma tethering_delays : _retry_delays tethering = 0 :: [100; 500].
Proof. reflexivity. Qed.

Lemma tethering_orientation : orientation tethering = ORIENTATION_NORMAL.
Proof. reflexivity. Qed.

Lemma memoryview_trimmed :
  _trim_to_eoi (as_bytes (FDMemoryview padded_frame)) = Some trimmed_frame.
Proof. reflexivity. Qed.

Lemma preview_survives_tethering_witness :
  exists s',
    get_frame_base64 driver_tethered tethering
      = (inr (Some (data_uri_prefix ++ Base64.b64encode trimmed_frame)), s') /\
    _io_error_counter s' = 0 /\ _consecutive_corrupt_frames s' = 0 /\
    camera s' = Some 2%nat.
Proof.
  apply (preview_survives_tethering driver_tethered 3 2 (FDMemoryview padded_frame)
           trimmed_frame 0 [100; 500] tethering
           tethering_camera tethering_delays tethering_orientation
           (fun _ => eq_refl) (fun _ => eq_refl) memoryview_trimmed).
Defined.

(** The poll of [driver_tethered] queues the announced file, and the
    download is asked for although it fails. *)
Example tethering_frame_log :
  file_gets (calls (snd (get_frame_base64 driver_tethered tethering)))
  = [(Some "/store_00010001", "DSC00001.ARW")].
Proof. vm_compute. reflexivity. Qed.

End EngineExamples.

(** ** The device watcher: when it connects and when it keeps still *)

Module WatcherFacts.
Import Py PyFacts PyStr CameraHandler HandlerFacts Watcher.
Local Open Scope string_scope.
Local Open Scope Z_scope.
Local Open Scope py_scope.

Section Watcher.
Variable drv : Driver.
Variable watch_callback_result : nat -> Outcome unit.

Lemma lift_sleep (poll_interval : Z) (w : Watch) :
  0 <= poll_interval ->
  lift (sleep poll_interval) w =
    (inr tt,
     set_handler (upd_calls (calls (handler w) ++ [CallSleep poll_interval]) (handler w)) w).
Proof.
  intros H. unfold lift, sleep. destruct (Z.ltb_spec poll_interval 0); [lia|]. reflexivity.
Qed.

(** X14. The watcher leaves an open session alone: with a camera handle
    and the session not marked lost, a turn of its loop only sleeps for the
    poll interval; once the stop event is set the loop makes no further
    turn; and [start_watch] on a watcher that runs changes nothing. *)
Theorem watcher_keeps_still (poll_interval : Z) (w : Watch) :
  0 <= poll_interval ->
  (is_Some (camera (handler w)) -> lost_device (handler w) = false ->
   watch_iteration drv watch_callback_result poll_interval w =
     (inr tt,
      set_handler (upd_calls (calls (handler w) ++ [CallSleep poll_interval]) (handler w)) w)) /\
  (forall n, _watch_stop_event w = true ->
             _watch_loop drv watch_callback_result n poll_interval w = (inr tt, w)) /\
  (forall n, _watch_running w = true ->
             _watch_loop drv watch_callback_result n poll_interval (snd (stop_watch w))
             = (inr tt, snd (stop_watch w))) /\
  (forall callback, _watch_running w = true -> start_watch callback w = (inr tt, w)).
Proof.
  intros Hp. split; [|split; [|split]].
  - intros Hc Hl. unfold watch_iteration, try_except, bind at 1, bind at 1, get at 1.
    rewrite bool_decide_eq_true_2 by exact Hc. rewrite Hl. cbn [negb orb].
    unfold ret at 1. rewrite (lift_sleep poll_interval w Hp). reflexivity.
  - intros n Hs. destruct n; [reflexivity|]. cbn [_watch_loop]. unfold bind, get.
    rewrite Hs. reflexivity.
  - intros n Hr. unfold stop_watch, bind, get, modify. rewrite Hr. cbn [snd].
    destruct n; reflexivity.
  - intros callback Hr. unfold start_watch, bind, get. rewrite Hr. reflexivity.
Qed.

Lemma set_watch_calls_same (w : Watch) : set_watch_calls (watch_calls w) w = w.
Proof. destruct w. reflexivity. Qed.

Lemma set_handler_same (w : Watch) : set_handler (handler w) w = w.
Proof. destruct w. reflexivity. Qed.

(** The guarded call of the watch callback. *)
Lemma watch_callback_block (success : bool) (msg : string) (w : Watch) :
  try_pass
    (w0 <- get ;;
     match _watch_callback w0 with
     | Some _ => call_watch_callback watch_callback_result success msg
     | None => ret tt
     end) w =
    (inr tt,
     set_watch_calls
       (watch_calls w ++ match _watch_callback w with
                         | Some _ => [(success, msg)]
                         | None => []
                         end)%list w).
Proof.
  unfold try_pass, try_except, bind, get, call_watch_callback, ret.
  destruct (_watch_callback w) as [cb|].
  - destruct (watch_callback_result (length (watch_calls w))) as [[]|e]; reflexivity.
  - rewrite app_nil_r, set_watch_calls_same. reflexivity.
Qed.

(** The guarded start of tethering. *)
Lemma watch_tether_block (w : Watch) :
  try_pass
    (w0 <- get ;;
     if negb (_tether_running (handler w0)) then lift (start_tether None) else ret tt) w =
    (inr tt,
     set_handler
       (if _tether_running (handler w) then handler w
        else upd_tether_running true (upd_tether_callback None (handler w))) w).
Proof.
  unfold try_pass, try_except, bind, get, lift, start_tether, modify, ret.
  destruct (_tether_running (handler w)); cbn [negb].
  - rewrite set_handler_same. reflexivity.
  - reflexivity.
Qed.

(** X15. The watcher reconnects a closed or lost session: without a camera
    handle, or with the session marked lost, a turn of its loop calls
    [connect]; when that succeeds the watch callback is called once with
    the success message and tethering is on afterwards, with no tether
    callback if the watcher had to turn it on itself; when it fails nothing
    is reported. The turn then sleeps and never raises. *)
Theorem watcher_reconnects
    (poll_interval : Z) (w : Watch) (ok : bool) (msg : string) (s1 : State) :
  0 <= poll_interval ->
  camera (handler w) = None \/ lost_device (handler w) = true ->
  connect drv (handler w) = (inr (ok, msg), s1) ->
  exists w',
    watch_iteration drv watch_callback_result poll_interval w = (inr tt, w') /\
    watch_calls w' =
      (watch_calls w ++
       if ok then match _watch_callback w with Some _ => [(true, msg)] | None => [] end
       else [])%list /\
    _tether_running (handler w') = (ok || _tether_running s1) /\
    _tether_callback (handler w') =
      (if ok && negb (_tether_running s1) then None else _tether_callback s1) /\
    camera (handler w') = camera s1 /\ lost_device (handler w') = lost_device s1 /\
    calls (handler w') = (calls s1 ++ [CallSleep poll_interval])%list.
Proof.
  intros Hp Hc Hconn.
  assert (G : (negb (bool_decide (is_Some (camera (handler w)))) || lost_device (handler w))
              = true).
  { destruct Hc as [Hc|Hc]; rewrite Hc; [|apply orb_true_r].
    rewrite bool_decide_eq_false_2; [reflexivity|]. intros [x Hx]. discriminate. }
  assert (Ec : lift (connect drv) w = (inr (ok, msg), set_handler s1 w))
    by (unfold lift; rewrite Hconn; reflexivity).
  unfold watch_iteration. unfold try_except at 1. unfold bind at 1, get at 1. rewrite G.
  unfold bind at 1. rewrite (bind_run _ _ _ _ _ Ec). cbn [fst snd].
  destruct ok; cbn [andb orb].
  - rewrite (bind_run _ _ _ _ _ (watch_callback_block true msg (set_handler s1 w))).
    rewrite watch_tether_block.
    cbn [handler set_handler set_watch_calls watch_calls _watch_callback].
    rewrite lift_sleep by exact Hp.
    eexists. split; [reflexivity|].
    cbn [handler set_handler set_watch_calls watch_calls].
    split; [reflexivity|].
    destruct (_tether_running s1) eqn:T; cbn [negb];
      cbn [_tether_running _tether_callback upd_calls upd_tether_running upd_tether_callback
           camera lost_device calls]; rewrite ?T; repeat split.
  - unfold ret at 1. rewrite lift_sleep by exact Hp.
    eexists. split; [reflexivity|].
    cbn [handler set_handler watch_calls _tether_running _tether_callback upd_calls camera
         lost_device calls].
    rewrite app_nil_r. repeat split.
Qed.

End Watcher.

End WatcherFacts.

(** ** The device watcher on concrete inputs *)

Module WatcherExamples.
Import Py PyStr CameraHandler HandlerFacts HandlerExamples Watcher WatcherFacts.
Local Open Scope string_scope.
Local Open Scope Z_scope.

(** A watch callback that answers. *)
Definition answers : nat -> Outcome unit := fun _ => Returns tt.

(** The watcher started, with a callback, on a handler that is connected
    and on one that is not. *)
Definition watching (s : State) : Watch := snd (start_watch (Some 6%nat) (unwatched s)).

Lemma poll_not_negative : 0 <= 2000.
Proof. lia. Qed.

Lemma watcher_keeps_still_witness :
  (is_Some (camera (handler (watching connected))) ->
   lost_device (handler (watching connected)) = false ->
   watch_iteration driver_ok answers 2000 (watching connected) =
     (inr tt,
      set_handler (upd_calls (calls (handler (watching connected)) ++ [CallSleep 2000])
                     (handler (watching connected))) (watching connected))) /\
  (forall n, _watch_stop_event (watching connected) = true ->
             _watch_loop driver_ok answers n 2000 (watching connected)
             = (inr tt, watching connected)) /\
  (forall n, _watch_running (watching connected) = true ->
             _watch_loop driver_ok answers n 2000 (snd (stop_watch (watching connected)))
             = (inr tt, snd (stop_watch (watching connected)))) /\
  (forall callback, _watch_running (watching connected) = true ->
                    start_watch callback (watching connected) = (inr tt, watching connected)).
Proof.
  apply (watcher_keeps_still driver_ok answers 2000 (watching connected) poll_not_negative).
Defined.

Lemma init_closed :
  camera (handler (watching init)) = None \/ lost_device (handler (watching init)) = true.
Proof. left. reflexivity. Qed.

Lemma init_connects :
  connect driver_ok (handler (watching init)) = (inr (true, "Connected: Sony ILCE-7M3"), connected).
Proof. reflexivity. Qed.

Lemma watcher_reconnects_witness :
  exists w',
    watch_iteration driver_ok answers 2000 (watching init) = (inr tt, w') /\
    watch_calls w' =
      (watch_calls (watching init) ++
       match _watch_callback (watching init) with
       | Some _ => [(true, "Connected: Sony ILCE-7M3")]
       | None => []
       end)%list /\
    _tether_running (handler w') = (true || _tether_running connected) /\
    _tether_callback (handler w') =
      (if true && negb (_tether_running connected) then None else _tether_callback connected) /\
    camera (handler w') = camera connected /\
    lost_device (handler w') = lost_device connected /\
    calls (handler w') = (calls connected ++ [CallSleep 2000])%list.
Proof.
  apply (watcher_reconnects driver_ok answers 2000 (watching init) true
           "Connected: Sony ILCE-7M3" connected poll_not_negative init_closed init_connects).
Defined.

(** The watcher on a handler that is not connected: one turn connects,
    reports it and turns tethering on; the next turns only sleep. *)
Example watcher_two_turns :
  let w2 := snd (_watch_loop driver_ok answers 2 2000 (watching init)) in
  watch_calls w2 = [(true, "Connected: Sony ILCE-7M3")] /\
  _tether_running (handler w2) = true /\
  calls (handler w2)
  = [CallNewContext; CallNewCamera; CallInit; CallGetSummary; CallSleep 2000; CallSleep 2000].
Proof. vm_compute. repeat split. Qed.

End WatcherExamples.

(** ** What the statements of the preview manager touch *)

Module ManagerFrames.
Import Py PyFacts Frames PyBytes PyStr ImagePreview CacheFacts.
Local Open Scope string_scope.
Local Open Scope Z_scope.
Local Open Scope py_scope.

(** The statements of the manager respect a relation [R] that tolerates
    the assignments they make and the two ways they put an image in the
    cache. *)
Section Footprint.
Variable env : Env.
Variable R : State -> State -> Prop.
Context `{!PreOrder R}.

Hypothesis R_fs : forall v s, R s (set_fs v s).
Hypothesis R_dirs : forall v s, R s (set_dirs v s).
Hypothesis R_pending_raw : forall v s, R s (set_pending_raw v s).
Hypothesis R_tasks : forall v s, R s (set_tasks v s).
Hypothesis R_clock : forall v s, R s (set_clock v s).
Hypothesis R_cached :
  forall cached, is_raw cached = false -> respects R (_replace_or_add_cached cached).
Hypothesis R_loaded : forall fpath fname, respects R (_load_jpeg_to_cache env fpath fname).

Lemma respects_read_file (p : string) : respects R (read_file p).
Proof. unfold read_file. respects_tac. Qed.

Lemma respects_write_file (p : string) (data : bytes) : respects R (write_file env p data).
Proof. unfold write_file. respects_tac. Qed.

Lemma respects_rename (src dst : string) : respects R (rename env src dst).
Proof. unfold rename. respects_tac. Qed.

Lemma respects_remove (p : string) : respects R (remove env p).
Proof. unfold remove. respects_tac. Qed.

Lemma respects_makedirs (d : string) : respects R (makedirs env d).
Proof. unfold makedirs. respects_tac. Qed.

Lemma respects_listdir (d : string) : respects R (listdir d).
Proof. unfold listdir. respects_tac. Qed.

#[local] Hint Resolve respects_read_file respects_write_file respects_rename respects_remove
  respects_makedirs respects_listdir : core.

Lemma respects_copy2 (src dst : string) : respects R (copy2 env src dst).
Proof. unfold copy2. respects_tac. Qed.

Lemma respects_spawn (t : Task) : respects R (spawn t).
Proof. unfold spawn. respects_tac. Qed.

Lemma respects_safe_delete (p : string) : respects R (_safe_delete env p).
Proof. unfold _safe_delete. respects_tac. Qed.

#[local] Hint Resolve respects_copy2 respects_spawn respects_safe_delete : core.

Lemma respects_process_jpeg_file (fpath : string) : respects R (_process_jpeg_file env fpath).
Proof. unfold _process_jpeg_file. respects_tac. Qed.

Lemma respects_process_raw_file (fpath : string) : respects R (_process_raw_file env fpath).
Proof. unfold _process_raw_file. respects_tac. Qed.

Lemma respects_clear_pending_raw (base_name : string) :
  respects R (_clear_pending_raw base_name).
Proof. unfold _clear_pending_raw. respects_tac. Qed.

#[local] Hint Resolve respects_process_jpeg_file respects_process_raw_file
  respects_clear_pending_raw : core.

Lemma respects_process_downloaded_file (fpath filetype : string) :
  respects R (process_downloaded_file env fpath filetype).
Proof. unfold process_downloaded_file. respects_tac. Qed.

Lemma respects_cleanup_download_folder : respects R (cleanup_download_folder env).
Proof. unfold cleanup_download_folder. respects_tac. Qed.

#[local] Hint Resolve respects_process_downloaded_file : core.

Lemma respects_step (ev : Event) : respects R (step env ev).
Proof. unfold step, run_task. respects_tac. Qed.

Lemma respects_run_events (evs : list Event) (s : State) : R s (run_events env evs s).
Proof.
  revert s. induction evs as [|ev evs IH]; intros s; cbn [run_events].
  - reflexivity.
  - etransitivity; [apply respects_step | apply IH].
Qed.

End Footprint.

End ManagerFrames.

(** ** The cursor of the preview cache *)

Module CursorFacts.
Import Py PyFacts Frames PyBytes PyStr ImagePreview CacheFacts PairingFacts ManagerFrames.
Local Open Scope string_scope.
Local Open Scope Z_scope.
Local Open Scope py_scope.

(** The bound is not negative, and the cursor is on an entry or on the
    live view ([-1]). *)
Definition cursor_ok (s : State) : Prop :=
  0 <= max_cache_size s /\ -1 <= _current_index s < len_cache s.

Lemma cache_insert_cursor_ok (cached : CachedImage) (s : State) :
  0 <= max_cache_size s -> cursor_ok (cache_insert cached s).
Proof.
  intros Hmax. unfold cache_insert, cursor_ok, len_cache.
  destruct (list_find _ (_cache s)) as [[idx entry]|] eqn:F; state_simpl.
  - apply list_find_Some in F as (L & _ & _). apply lookup_lt_Some in L.
    rewrite length_insert. lia.
  - split; [exact Hmax|]. lia.
Qed.

Lemma respects_cached_cursor_ok (cached : CachedImage) :
  respects (preserves cursor_ok) (_replace_or_add_cached cached).
Proof.
  intros s [Hmax _]. rewrite (replace_or_add_cached_run cached s Hmax). cbn [snd].
  apply cache_insert_cursor_ok. exact Hmax.
Qed.

Lemma respects_loaded_cursor_ok (env : Env) (fpath fname : string) :
  respects (preserves cursor_ok) (_load_jpeg_to_cache env fpath fname).
Proof.
  intros s [Hmax Hc]. unfold _load_jpeg_to_cache, try_pass, try_except, bind.
  destruct (getmtime env (abspath env fpath)); cbn; unfold cursor_ok, len_cache in *;
    state_simpl; [|tauto].
  rewrite length_app. cbn [length]. lia.
Qed.

Ltac cursor_leaf :=
  try apply _; intros;
  first [ exact (fun V => V)
        | apply respects_cached_cursor_ok
        | apply respects_loaded_cursor_ok ].

(** X16. The cursor never leaves the cache: on any sequence of download
    notices, task runs and waits, and on the start-up load of the
    download folder, it stays on an entry or on the live view; the
    manager starts in such a state. *)
Theorem cursor_stays_in_range (env : Env) :
  (forall dir max files folders now, 0 <= max -> cursor_ok (init dir max files folders now)) /\
  (forall s evs, cursor_ok s -> cursor_ok (run_events env evs s)) /\
  (forall s, cursor_ok s -> cursor_ok (snd (cleanup_download_folder env s))).
Proof.
  split; [|split].
  - intros dir max files folders now Hmax. split; [exact Hmax|].
    unfold len_cache, init. state_simpl. cbn [length]. lia.
  - intros s evs. apply (respects_run_events env (preserves cursor_ok)); cursor_leaf.
  - intros s. apply (respects_cleanup_download_folder env (preserves cursor_ok)); cursor_leaf.
Qed.

(** *** Reading the cursor *)

Lemma get_current_preview_run (s : State) :
  get_current_preview s =
    (inr (if _current_index s <? 0 then None else _cache s !! Z.to_nat (_current_index s)), s).
Proof.
  unfold get_current_preview, bind, get.
  destruct (Z.ltb_spec (_current_index s) 0) as [Lt|Ge]; cbn [orb]; [reflexivity|].
  destruct (Z.geb_spec (_current_index s) (len_cache s)) as [Ge'|Lt'].
  - unfold ret. rewrite lookup_ge_None_2; [reflexivity|]. unfold len_cache in Ge'. lia.
  - destruct (return_current_in_range s ltac:(lia)) as (e & L & E). rewrite E, L. reflexivity.
Qed.

(** X17. [get_current_preview] only reads: in every state, also with a
    cursor outside the cache, it returns without raising and changes
    nothing; it answers [None] exactly when the cursor is negative or past
    the end, and the entry under the cursor otherwise. *)
Theorem get_current_preview_reads (s : State) :
  exists r,
    get_current_preview s = (inr r, s) /\
    (r = None <-> _current_index s < 0 \/ len_cache s <= _current_index s) /\
    (forall e, r = Some e -> _cache s !! Z.to_nat (_current_index s) = Some e).
Proof.
  eexists. split; [apply get_current_preview_run|].
  destruct (Z.ltb_spec (_current_index s) 0) as [Lt|Ge].
  - split; [split; [intros _; left; exact Lt | reflexivity] | discriminate].
  - split; [|intros e H; exact H]. rewrite lookup_ge_None. unfold len_cache. lia.
Qed.

(** The entry navigation lands on. *)
Lemma navigate_lands (s : State) (i : Z) :
  0 <= i < len_cache s ->
  exists e, _cache s !! Z.to_nat i = Some e /\
            return_current (set_current_index i s) = (inr (Some e), set_current_index i s).
Proof.
  intros H.
  destruct (return_current_in_range (set_current_index i s)) as (e & L & E).
  { rewrite len_cache_set_current_index. exact H. }
  exists e. split; [exact L | exact E].
Qed.

(** X18. With the cursor on an entry or on the live view, navigation never
    raises: it moves the cursor to an entry and returns that entry, and
    touches nothing but the cursor. *)
Theorem navigation_lands_on_an_entry (s : State) :
  cursor_ok s -> _cache s <> [] ->
  (exists e,
      navigate_next s = (inr (Some e), set_current_index (next_index s) s) /\
      _cache s !! Z.to_nat (next_index s) = Some e /\ 0 <= next_index s < len_cache s) /\
  (exists e,
      navigate_previous s = (inr (Some e), set_current_index (previous_index s) s) /\
      _cache s !! Z.to_nat (previous_index s) = Some e /\
      0 <= previous_index s < len_cache s) /\
  (exists e,
      get_latest_preview s = (inr (Some e), set_current_index (len_cache s - 1) s) /\
      last (_cache s) = Some e).
Proof.
  intros [_ Hc] Hne. pose proof (proj1 (len_cache_pos s) Hne) as Hpos.
  assert (Hn : 0 <= next_index s < len_cache s).
  { unfold next_index. destruct (Z.geb_spec (_current_index s + 1) (len_cache s)); lia. }
  assert (Hp : 0 <= previous_index s < len_cache s).
  { unfold previous_index. destruct (Z.ltb_spec (_current_index s - 1) 0); lia. }
  repeat split.
  - destruct (navigate_lands s _ Hn) as (e & L & E). exists e.
    rewrite (navigate_next_unfold s Hne). repeat split; [exact E | exact L | lia | lia].
  - destruct (navigate_lands s _ Hp) as (e & L & E). exists e.
    rewrite (navigate_previous_unfold s Hne). repeat split; [exact E | exact L | lia | lia].
  - destruct (navigate_lands s (len_cache s - 1) ltac:(lia)) as (e & L & E). exists e.
    split.
    + unfold get_latest_preview, bind at 1, get at 1.
      destruct (_cache s) eqn:C; [contradiction|]. exact E.
    + rewrite last_lookup. rewrite <- L. f_equal. unfold len_cache. lia.
Qed.

(** X19. From the live view (cursor [-1]) [navigate_next] shows the oldest
    image and [navigate_previous] the newest one; [reset_to_live_view]
    goes back to the live view without touching the cache, and then
    [get_current_preview] answers [None]. *)
Theorem navigation_from_live_view (s : State) (oldest newest : CachedImage) :
  _current_index s = -1 ->
  head (_cache s) = Some oldest -> last (_cache s) = Some newest ->
  navigate_next s = (inr (Some oldest), set_current_index 0 s) /\
  navigate_previous s = (inr (Some newest), set_current_index (len_cache s - 1) s) /\
  (forall c,
      reset_to_live_view (set_current_index c s) = (inr tt, s) /\
      get_current_preview s = (inr None, s)).
Proof.
  intros Hc Hh Hl.
  assert (Hne : _cache s <> []) by (intros E; rewrite E in Hh; discriminate).
  pose proof (proj1 (len_cache_pos s) Hne) as Hpos.
  repeat split.
  - rewrite (navigate_next_unfold s Hne).
    assert (N : next_index s = 0).
    { unfold next_index. rewrite Hc. destruct (Z.geb_spec (-1 + 1) (len_cache s)); lia. }
    rewrite N. destruct (navigate_lands s 0 ltac:(lia)) as (e & L & E). rewrite E.
    rewrite <- head_lookup in L. cbn in L. congruence.
  - rewrite (navigate_previous_unfold s Hne).
    assert (P : previous_index s = len_cache s - 1).
    { unfold previous_index. rewrite Hc. reflexivity. }
    rewrite P. destruct (navigate_lands s (len_cache s - 1) ltac:(lia)) as (e & L & E).
    rewrite E. rewrite last_lookup in Hl.
    replace (Z.to_nat (len_cache s - 1)) with (pred (length (_cache s))) in L
      by (unfold len_cache; lia).
    congruence.
  - unfold reset_to_live_view, modify. rewrite set_current_index_twice, <- Hc.
    rewrite set_current_index_same. reflexivity.
  - unfold get_current_preview, bind, get. rewrite Hc. reflexivity.
Qed.

(** *** Insertion and the cursor *)

(** X20. An image put in the cache is the current preview right after:
    whether it replaced the entry of its base name or was appended, with a
    bound of 1 or more [get_current_preview] answers it. *)
Theorem cached_image_is_current (cached : CachedImage) (s : State) :
  1 <= max_cache_size s ->
  exists s',
    _replace_or_add_cached cached s = (inr tt, s') /\
    get_current_preview s' = (inr (Some cached), s') /\
    get_cache_info s' = (_current_index s' + 1, len_cache s') /\
    1 <= _current_index s' + 1 <= len_cache s'.
Proof.
  intros Hmax. rewrite (replace_or_add_cached_run cached s ltac:(lia)).
  exists (cache_insert cached s). split; [reflexivity|].
  assert (K : 0 <= _current_index (cache_insert cached s) < len_cache (cache_insert cached s)
              /\ _cache (cache_insert cached s)
                   !! Z.to_nat (_current_index (cache_insert cached s)) = Some cached).
  { unfold cache_insert, len_cache.
    destruct (list_find _ (_cache s)) as [[idx entry]|] eqn:F; state_simpl.
    - apply list_find_Some in F as (L & _ & _). apply lookup_lt_Some in L.
      rewrite length_insert, Nat2Z.id. split; [lia|].
      apply list_lookup_insert_eq. exact L.
    - pose proof (appended_length cached s ltac:(lia)) as AL.
      pose proof (appended_last cached s Hmax) as A.
      split; [lia|]. rewrite last_lookup in A. rewrite <- A. f_equal. lia. }
  destruct K as [K1 K2]. rewrite get_current_preview_run.
  destruct (Z.ltb_spec (_current_index (cache_insert cached s)) 0); [lia|].
  rewrite K2. repeat split; lia.
Qed.

End CursorFacts.

(** ** The preview manager: files, notices and the cache *)

Module ManagerFacts.
Import Py PyFacts Frames PyBytes PyStr ImagePreview CacheFacts PairingFacts ManagerFrames.
Local Open Scope string_scope.
Local Open Scope Z_scope.
Local Open Scope py_scope.

(** *** What putting an image in the cache leaves alone *)

Section Keeps.
Context {A : Type} (f : State -> A).
Hypothesis f_cache : forall v s, f (set_cache v s) = f s.
Hypothesis f_current_index : forall v s, f (set_current_index v s) = f s.
Hypothesis f_shown : forall v s, f (set_shown v s) = f s.

Lemma keeps_trim_cache : respects (keeps f) trim_cache.
Proof.
  intros s. unfold trim_cache. destruct (pop_while_over _ _); cbn [snd]; apply f_cache.
Qed.

Lemma keeps_notify (cached : CachedImage) : respects (keeps f) (notify cached).
Proof.
  intros s. unfold notify, modify. cbn [snd].
  destruct (_preview_callback s); [apply f_shown | reflexivity].
Qed.

Lemma keeps_replace_or_add_cached (cached : CachedImage) :
  respects (keeps f) (_replace_or_add_cached cached).
Proof.
  unfold _replace_or_add_cached.
  respects_with ltac:(first [ apply keeps_trim_cache | apply keeps_notify
                            | apply f_cache | apply f_current_index ]).
Qed.

Lemma keeps_load_jpeg_to_cache (env : Env) (fpath fname : string) :
  respects (keeps f) (_load_jpeg_to_cache env fpath fname).
Proof.
  unfold _load_jpeg_to_cache.
  respects_with ltac:(first [ apply f_cache | apply f_current_index ]).
Qed.

End Keeps.

Ltac cache_keeps_leaf :=
  try apply _; intros;
  first [ reflexivity
        | apply keeps_replace_or_add_cached; intros; reflexivity
        | apply keeps_load_jpeg_to_cache; intros; reflexivity ].

(** *** The cache holds JPEG entries only *)

Definition no_raw_entry (s : State) : Prop := Forall (fun e => is_raw e = false) (_cache s).

Lemma pop_while_over_suffix (max : Z) (cache trimmed : list CachedImage) :
  pop_while_over max cache = Some trimmed -> exists n, trimmed = drop n cache.
Proof.
  induction cache as [|c cache IH]; cbn [pop_while_over].
  - destruct (_ >? _); [discriminate|]. intros [= <-]. exists 0%nat. reflexivity.
  - destruct (_ >? _); [|intros [= <-]; exists 0%nat; reflexivity].
    intros H. destruct (IH H) as (n & ->). exists (S n). reflexivity.
Qed.

Lemma respects_cached_no_raw (cached : CachedImage) :
  is_raw cached = false -> respects (preserves no_raw_entry) (_replace_or_add_cached cached).
Proof.
  intros Hraw. unfold _replace_or_add_cached. cbv zeta.
  assert (T : respects (preserves no_raw_entry) trim_cache).
  { intros s H. unfold trim_cache.
    destruct (pop_while_over _ _) as [trimmed|] eqn:P; cbn [snd]; unfold no_raw_entry;
      state_simpl; [|constructor].
    destruct (pop_while_over_suffix _ _ _ P) as (n & ->). apply Forall_drop. exact H. }
  assert (N : respects (preserves no_raw_entry) (notify cached)).
  { intros s H. unfold notify, modify. cbn [snd]. destruct (_preview_callback s); exact H. }
  respects_with ltac:(first [ exact T | exact N | exact (fun V => V) ]).
  - intros s0 H. unfold modify, preserves, no_raw_entry in *. cbn [snd]. state_simpl.
    apply Forall_insert; assumption.
  - intros s0 H. unfold modify, preserves, no_raw_entry in *. cbn [snd]. state_simpl.
    apply Forall_app. split; [exact H | repeat constructor; exact Hraw].
Qed.

Lemma respects_loaded_no_raw (env : Env) (fpath fname : string) :
  respects (preserves no_raw_entry) (_load_jpeg_to_cache env fpath fname).
Proof.
  unfold _load_jpeg_to_cache. cbv zeta.
  respects_with ltac:(exact (fun V => V)).
  intros s0 H. unfold modify, preserves, no_raw_entry in *. cbn [snd]. state_simpl.
  apply Forall_app. split; [exact H | repeat constructor].
Qed.

Ltac no_raw_leaf :=
  try apply _; intros;
  first [ exact (fun V => V)
        | apply respects_cached_no_raw; assumption
        | apply respects_loaded_no_raw ].

(** X21. No entry of the cache is ever marked RAW: whatever is downloaded
    and whatever the background tasks do, and on the start-up load, every
    cached image is a JPEG entry. *)
Theorem cache_holds_no_raw_entry (env : Env) (s : State) (evs : list Event) :
  no_raw_entry s ->
  no_raw_entry (run_events env evs s) /\
  no_raw_entry (snd (cleanup_download_folder env (run_events env evs s))).
Proof.
  intros H.
  assert (H1 : no_raw_entry (run_events env evs s)).
  { revert H. apply (respects_run_events env (preserves no_raw_entry)); no_raw_leaf. }
  split; [exact H1|]. revert H1.
  apply (respects_cleanup_download_folder env (preserves no_raw_entry)); no_raw_leaf.
Qed.

(** *** Deleting *)

(** X22. [_safe_delete] never raises, and the only thing it can change is
    the file at the path it is given: a file there is removed when the
    platform lets it; a directory, a missing path and every other file
    stay as they are. *)
Theorem safe_delete_only_its_file (env : Env) (p : string) (s : State) :
  exists s',
    _safe_delete env p s = (inr tt, s') /\
    (s' = s \/ s' = set_fs (delete p (fs s)) s) /\
    (forall q, q <> p -> fs s' !! q = fs s !! q) /\
    (fs s !! p = None -> s' = s) /\
    (is_Some (fs s !! p) -> io_fails env (OpRemove p) = None -> fs s' !! p = None).
Proof.
  unfold _safe_delete, try_pass, try_except, bind, get, remove, path_exists.
  destruct (fs s !! p) as [content|] eqn:F.
  - rewrite bool_decide_eq_true_2 by (eexists; reflexivity). cbn [orb].
    destruct (io_fails env (OpRemove p)) as [e|] eqn:I.
    + exists s. repeat split; try (left; reflexivity); intros; congruence.
    + unfold bind, get. rewrite F. exists (set_fs (delete p (fs s)) s). split; [reflexivity|].
      split; [right; reflexivity|]. state_simpl.
      split; [intros q Hq; apply lookup_delete_ne; congruence|].
      split; [discriminate|]. intros _ _. apply lookup_delete_eq.
  - rewrite bool_decide_eq_false_2 by (intros [x Hx]; discriminate). cbn [orb].
    assert (K : exists s',
               (if bool_decide (p ∈ dirs s) then
                  match io_fails env (OpRemove p) with
                  | Some e => raise e
                  | None =>
                      s0 <- get ;;
                      match fs s0 !! p with
                      | Some _ => modify (set_fs (delete p (fs s0)))
                      | None =>
                          if bool_decide (p ∈ dirs s0) then raise (IsADirectoryError p)
                          else raise (FileNotFoundError p)
                      end
                  end
                else ret tt) s = (s', s)).
    { destruct (bool_decide (p ∈ dirs s)) eqn:D; [|eexists; reflexivity].
      destruct (io_fails env (OpRemove p)); [eexists; reflexivity|].
      unfold bind, get. rewrite F, D. eexists. reflexivity. }
    destruct K as (r & K). unfold bind, get, ret in K |- *. rewrite K.
    exists s. split; [destruct r as [e|[]]; reflexivity|].
    split; [left; reflexivity|]. split; [reflexivity|]. split; [reflexivity|].
    intros [x Hx]. discriminate.
Qed.

(** *** The bound at its edges *)

(** X23. With a bound of 0 an added image is dropped from the cache at
    once (the cache is empty and the cursor on the live view afterwards)
    and still reported to the preview callback; with a negative bound the
    trimming loop empties the cache and then raises [IndexError], before
    the callback is reached. *)
Theorem cache_bound_edge_cases (cached : CachedImage) (s : State) :
  (max_cache_size s = 0 ->
   _add_to_cache cached s =
     (inr tt, set_shown (notified cached s) (set_current_index (-1) (set_cache [] s)))) /\
  (max_cache_size s < 0 ->
   _add_to_cache cached s = (inl IndexError, set_cache [] s)).
Proof.
  split; intros Hmax.
  - rewrite add_to_cache_spec by lia. unfold appended. rewrite Hmax.
    rewrite drop_ge by (rewrite length_app; cbn; lia). reflexivity.
  - unfold _add_to_cache, bind at 1, modify at 1, bind at 1, trim_cache.
    state_simpl. rewrite pop_while_over_negative by exact Hmax.
    destruct s. reflexivity.
Qed.

(** *** Notices that find nothing to do *)

(** X24. What comes too late is ignored: a notice for a path that is not
    there, the extraction of a RAW file that is gone, the timer of a
    pending entry that is gone and the run of a task that does not exist
    return without raising and change nothing. *)
Theorem stale_work_is_ignored (env : Env) (s : State) :
  (forall fpath filetype,
      path_exists s fpath = false ->
      process_downloaded_file env fpath filetype s = (inr tt, s)) /\
  (forall raw_path, fs s !! raw_path = None -> _process_raw_file env raw_path s = (inr tt, s)) /\
  (forall base_name,
      _pending_raw s !! base_name = None -> _clear_pending_raw base_name s = (inr tt, s)) /\
  (forall i, tasks s !! i = None -> step env (Run i) s = (inr tt, s)).
Proof.
  split; [|split; [|split]].
  - intros fpath filetype H. unfold process_downloaded_file, bind, get. rewrite H. reflexivity.
  - intros raw_path H. apply process_raw_file_missing. exact H.
  - intros base_name H. apply clear_pending_raw_absent. exact H.
  - intros i H. unfold step, bind, get. rewrite H. reflexivity.
Qed.

(** *** The sibling of a RAW file *)

(** The four names the sibling is looked for under. *)
Definition sibling_candidates (raw_path : string) : list string :=
  let base_name := fst (splitext (basename raw_path)) in
  let dir_path := dirname raw_path in
  [join dir_path (base_name ++ ".jpg"); join dir_path (base_name ++ ".JPG");
   join dir_path (base_name ++ ".jpeg"); join dir_path (base_name ++ ".JPEG")].

Lemma find_pair_in_none (s : State) (dir_path base_name : string) (exts : list string) :
  find_pair_in s dir_path base_name exts = None <->
  forall ext, ext ∈ exts ->
    path_exists s (join dir_path (base_name ++ ext)) = false /\
    path_exists s (join dir_path (base_name ++ upper ext)) = false.
Proof.
  induction exts as [|e rest IH]; cbn [find_pair_in].
  - split; [intros _ ext H; inversion H | reflexivity].
  - destruct (path_exists s (join dir_path (base_name ++ e))) eqn:X1.
    { split; [discriminate|]. intros H. destruct (H e) as [H1 _]; [left|]. congruence. }
    destruct (path_exists s (join dir_path (base_name ++ upper e))) eqn:X2.
    { split; [discriminate|]. intros H. destruct (H e) as [_ H2]; [left|]. congruence. }
    rewrite IH. split.
    + intros H ext Hin. apply elem_of_cons in Hin as [->|Hin]; [split; assumption|].
      apply H, Hin.
    + intros H ext Hin. apply H. right. exact Hin.
Qed.

Lemma find_pair_in_some (s : State) (dir_path base_name : string) (exts : list string)
    (p : string) :
  find_pair_in s dir_path base_name exts = Some p ->
  path_exists s p = true /\
  exists ext, ext ∈ exts /\
    (p = join dir_path (base_name ++ ext) \/ p = join dir_path (base_name ++ upper ext)).
Proof.
  induction exts as [|e rest IH]; cbn [find_pair_in]; [discriminate|].
  destruct (path_exists s (join dir_path (base_name ++ e))) eqn:X1.
  { intros [= <-]. split; [exact X1|]. exists e. split; [left | left; reflexivity]. }
  destruct (path_exists s (join dir_path (base_name ++ upper e))) eqn:X2.
  { intros [= <-]. split; [exact X2|]. exists e. split; [left | right; reflexivity]. }
  intros H. destruct (IH H) as (X & ext & Hin & Hp). split; [exact X|].
  exists ext. split; [right; exact Hin | exact Hp].
Qed.

Lemma jpeg_extension_cases (ext : string) :
  ext ∈ JPEG_EXTENSIONS <-> ext = ".jpg" \/ ext = ".jpeg".
Proof.
  unfold JPEG_EXTENSIONS. rewrite !elem_of_cons, elem_of_nil. tauto.
Qed.

(** X25. [JPEG_EXTENSIONS] is a set, and the order in which the loop of
    [_find_jpeg_pair] meets its elements is not fixed. In whatever order
    they come, the answer is [None] exactly when none of the four sibling
    names (the base name of the RAW file with [.jpg], [.JPG], [.jpeg],
    [.JPEG], in its directory) exists, and otherwise one of the four that
    exists. *)
Theorem find_jpeg_pair_in_any_order (s : State) (raw_path : string) (exts : list string) :
  Permutation exts JPEG_EXTENSIONS ->
  (find_pair_in s (dirname raw_path) (fst (splitext (basename raw_path))) exts = None <->
   forall p, p ∈ sibling_candidates raw_path -> path_exists s p = false) /\
  (forall p,
      find_pair_in s (dirname raw_path) (fst (splitext (basename raw_path))) exts = Some p ->
      p ∈ sibling_candidates raw_path /\ path_exists s p = true) /\
  (find_pair_in s (dirname raw_path) (fst (splitext (basename raw_path))) exts = None <->
   _find_jpeg_pair s raw_path = None).
Proof.
  intros P.
  assert (In_exts : forall ext, ext ∈ exts <-> ext = ".jpg" \/ ext = ".jpeg").
  { intros ext. rewrite P. apply jpeg_extension_cases. }
  assert (N : forall l, (forall ext, ext ∈ l <-> ext = ".jpg" \/ ext = ".jpeg") ->
              (find_pair_in s (dirname raw_path) (fst (splitext (basename raw_path))) l = None <->
               forall p, p ∈ sibling_candidates raw_path -> path_exists s p = false)).
  { intros l Hl. rewrite find_pair_in_none. unfold sibling_candidates. cbn zeta. split.
    - intros H p Hp.
      destruct (H ".jpg") as [A1 A2]; [apply Hl; left; reflexivity|].
      destruct (H ".jpeg") as [B1 B2]; [apply Hl; right; reflexivity|].
      change (upper ".jpg") with ".JPG" in A2. change (upper ".jpeg") with ".JPEG" in B2.
      rewrite !elem_of_cons, elem_of_nil in Hp.
      destruct Hp as [Hp|[Hp|[Hp|[Hp|[]]]]]; subst p; assumption.
    - intros H ext Hin. apply Hl in Hin as [Hin|Hin]; subst ext.
      + change (upper ".jpg") with ".JPG".
        split; apply H; rewrite !elem_of_cons; tauto.
      + change (upper ".jpeg") with ".JPEG".
        split; apply H; rewrite !elem_of_cons; tauto. }
  split; [apply N, In_exts|]. split.
  - intros p H. apply find_pair_in_some in H as (X & ext & Hin & Hp).
    split; [|exact X]. unfold sibling_candidates. cbn zeta.
    apply In_exts in Hin as [Hin|Hin]; subst ext.
    + change (upper ".jpg") with ".JPG" in Hp.
      rewrite !elem_of_cons. destruct Hp as [Hp|Hp]; subst p; tauto.
    + change (upper ".jpeg") with ".JPEG" in Hp.
      rewrite !elem_of_cons. destruct Hp as [Hp|Hp]; subst p; tauto.
  - rewrite (N exts In_exts). unfold _find_jpeg_pair. cbn zeta.
    rewrite (N JPEG_EXTENSIONS jpeg_extension_cases). reflexivity.
Qed.

End ManagerFacts.

(** ** Notices: a sibling already on disk, a RAW file without thumbnail,
    the start-up load *)

Module NoticeFacts.
Import Py PyFacts Frames PyBytes PyStr ImagePreview CacheFacts PairingFacts ManagerFrames
  ManagerFacts.
Local Open Scope string_scope.
Local Open Scope Z_scope.
Local Open Scope py_scope.

(** What [_process_jpeg_file] does once it knows where the normalized
    JPEG goes. *)
Definition jpeg_body (env : Env) (fpath jpeg_filepath jpeg_filename : string) : M State unit :=
  (if HAS_PIL env then
     content <- read_file fpath ;;
     img <- of_outcome (pil_open env content) ;;
     let img := _apply_exif_rotation env img in
     data <- of_outcome (pil_save_jpeg env img) ;;
     write_file env jpeg_filepath data
   else copy2 env fpath jpeg_filepath) ;;;
  now <- gets clock ;;
  let cached := mkCachedImage jpeg_filepath jpeg_filename now false in
  _replace_or_add_cached cached.

Lemma process_jpeg_file_unfold (env : Env) (fpath : string) (s : State) :
  _process_jpeg_file env fpath s =
    try_pass (jpeg_body env fpath
                (normalized_path env s (fst (splitext (basename fpath))))
                (fst (splitext (basename fpath)) ++ ".jpg")) s.
Proof. reflexivity. Qed.

Section Notices.
Variable env : Env.

Lemma keeps_write_file_other (target q : string) (data : bytes) :
  q <> target -> respects (keeps (fun s => fs s !! q)) (write_file env target data).
Proof.
  intros N s. unfold write_file. destruct (io_fails env (OpWrite target)); [reflexivity|].
  unfold modify, keeps. cbn [snd fs set_fs]. apply lookup_insert_ne. congruence.
Qed.

(** [_process_jpeg_file] writes one file, the normalized JPEG. *)
Lemma process_jpeg_file_other_files (fpath q : string) (s : State) :
  q <> normalized_path env s (fst (splitext (basename fpath))) ->
  fs (snd (_process_jpeg_file env fpath s)) !! q = fs s !! q.
Proof.
  intros N. rewrite process_jpeg_file_unfold.
  set (target := normalized_path env s (fst (splitext (basename fpath)))) in *.
  assert (H : respects (keeps (fun s => fs s !! q))
                (try_pass (jpeg_body env fpath target
                             (fst (splitext (basename fpath)) ++ ".jpg")))).
  { unfold jpeg_body, copy2, read_file.
    respects_with ltac:(first [ apply keeps_write_file_other; exact N
                              | apply keeps_replace_or_add_cached; intros; reflexivity ]). }
  apply H.
Qed.

(** X26. A RAW file whose JPEG sibling is already on disk starts nothing
    in the background and is not recorded as pending: the sibling is
    processed and the RAW file is deleted, whether or not the processing
    of the sibling worked. *)
Theorem raw_with_sibling_on_disk
    (raw_path filetype jpeg_path : string) (content : bytes) (s : State) :
  fs s !! raw_path = Some content ->
  startswith (lower (basename raw_path)) "capt_" = false ->
  ext_in (lower (snd (splitext (basename raw_path)))) RAW_EXTENSIONS = true ->
  _find_jpeg_pair s raw_path = Some jpeg_path ->
  io_fails env (OpRemove raw_path) = None ->
  raw_path <> normalized_path env s (fst (splitext (basename jpeg_path))) ->
  exists s',
    process_downloaded_file env raw_path filetype s = (inr tt, s') /\
    s' = snd (_safe_delete env raw_path (snd (_process_jpeg_file env jpeg_path s))) /\
    fs s' !! raw_path = None /\
    tasks s' = tasks s /\ _pending_raw s' = _pending_raw s.
Proof.
  intros Hfs Hcapt Hraw Hpair Hrm Hne.
  unfold process_downloaded_file. unfold bind at 1, get at 1.
  rewrite (path_exists_file s raw_path content Hfs). cbn [negb].
  rewrite Hcapt. unfold bind at 1, ret at 1. cbn [fst snd].
  rewrite Hraw. unfold bind at 1, gets at 1. unfold bind at 1, get at 1.
  rewrite Hpair.
  destruct (no_raise_try_pass
              (jpeg_body env jpeg_path
                 (normalized_path env s (fst (splitext (basename jpeg_path))))
                 (fst (splitext (basename jpeg_path)) ++ ".jpg")) s) as ([] & s1 & E1).
  rewrite <- process_jpeg_file_unfold in E1.
  rewrite (bind_run _ _ _ _ _ E1).
  assert (S1 : s1 = snd (_process_jpeg_file env jpeg_path s)) by (rewrite E1; reflexivity).
  assert (F1 : fs s1 !! raw_path = Some content).
  { rewrite S1, process_jpeg_file_other_files by exact Hne. exact Hfs. }
  rewrite (safe_delete_file env raw_path content s1 F1 Hrm).
  eexists. split; [reflexivity|]. rewrite <- S1.
  rewrite (safe_delete_file env raw_path content s1 F1 Hrm). cbn [snd fs set_fs tasks
    _pending_raw set_fs].
  split; [reflexivity|]. split; [apply lookup_delete_eq|]. rewrite S1. split.
  - apply (respects_process_jpeg_file env (keeps tasks)); cache_keeps_leaf.
  - apply (respects_process_jpeg_file env (keeps _pending_raw)); cache_keeps_leaf.
Qed.

(** *** A RAW file without a usable thumbnail *)

Lemma process_raw_file_nothing (raw_path : string) (content : bytes) (s : State) :
  fs s !! raw_path = Some content ->
  thumbnail_of env (Some content) = None ->
  _process_raw_file env raw_path s = (inr tt, s).
Proof.
  intros H T. unfold _process_raw_file, try_pass, try_except, bind, get.
  unfold _extract_jpeg_from_raw. rewrite H.
  fold (thumbnail_of env (Some content)). rewrite T. reflexivity.
Qed.

Lemma clear_pending_raw_retry (base_name raw_path : string) (t : Z) (s : State) :
  _pending_raw s !! base_name = Some (raw_path, t) ->
  path_exists s raw_path = true ->
  _clear_pending_raw base_name s =
    (inr tt,
     set_tasks (tasks s ++ [ThreadProcessRaw raw_path])%list
       (set_pending_raw (delete base_name (_pending_raw s)) s)).
Proof.
  intros H He. unfold _clear_pending_raw, bind, get, modify. rewrite H.
  change (path_exists (set_pending_raw _ s) raw_path) with (path_exists s raw_path).
  rewrite He. reflexivity.
Qed.

(** X27. A RAW file from which no thumbnail can be extracted, and whose
    JPEG never comes: the extraction at the notice produces nothing, the
    timer starts one more extraction at the timeout and drops the pending
    entry, and that extraction produces nothing either. The RAW file stays
    on disk, the cache and the preview callback are not touched, and
    nothing is left to run. *)
Theorem unextractable_raw_is_retried_once
    (raw_path filetype : string) (content : bytes) (dt : Z) (s : State) :
  startswith (lower (basename raw_path)) "capt_" = false ->
  ext_in (lower (snd (splitext (basename raw_path)))) RAW_EXTENSIONS = true ->
  _find_jpeg_pair (set_fs (<[raw_path := content]> (fs s)) s) raw_path = None ->
  thumbnail_of env (Some content) = None ->
  _pair_timeout s <= dt ->
  exists s4 s5,
    run_events env [Download raw_path content filetype; Run (length (tasks s)); Wait dt;
                    Run (length (tasks s))] s = s4 /\
    step env (Run (length (tasks s))) s4 = (inr tt, s5) /\
    tasks s4 = (tasks s ++ [ThreadProcessRaw raw_path])%list /\
    _pending_raw s4 !! fst (splitext (basename raw_path)) = None /\
    tasks s5 = tasks s /\
    fs s5 = <[raw_path := content]> (fs s) /\
    _cache s5 = _cache s /\ _current_index s5 = _current_index s /\ shown s5 = shown s /\
    _pending_raw s5 !! fst (splitext (basename raw_path)) = None.
Proof.
  intros Hcapt Hraw Hpair Hthumb Hdt.
  set (base_name := fst (splitext (basename raw_path))).
  set (k := length (tasks s)).
  cbn [run_events].
  (* the notice *)
  rewrite step_download.
  set (s0 := set_fs (<[raw_path := content]> (fs s)) s) in *.
  assert (F0 : fs s0 !! raw_path = Some content) by apply lookup_insert_eq.
  rewrite (raw_notice env raw_path filetype s0 (path_exists_file s0 _ _ F0) Hcapt Hraw Hpair).
  cbn [snd]. fold base_name.
  set (due := clock s0 + _pair_timeout s0).
  set (s1 := set_tasks (tasks s0 ++ [ThreadProcessRaw raw_path; TimerClearPending due base_name])
               (set_pending_raw (<[base_name := (raw_path, clock s0)]> (_pending_raw s0)) s0)).
  (* the first extraction *)
  assert (T1 : tasks s1 !! k = Some (ThreadProcessRaw raw_path)) by apply lookup_started.
  rewrite (step_run_thread env k raw_path s1 T1).
  assert (D1 : delete k (tasks s1) = (tasks s ++ [TimerClearPending due base_name])%list)
    by apply delete_started.
  rewrite D1.
  set (s2 := set_tasks (tasks s ++ [TimerClearPending due base_name]) s1).
  rewrite (process_raw_file_nothing raw_path content s2 F0 Hthumb). cbn [snd].
  (* the wait and the timer *)
  change (step env (Wait dt) s2) with (inr tt : PyExc + unit, set_clock (clock s2 + Z.max 0 dt) s2).
  cbn [snd].
  set (s3 := set_clock (clock s2 + Z.max 0 dt) s2).
  assert (T3 : tasks s3 !! k = Some (TimerClearPending due base_name))
    by (apply (lookup_started (tasks s) (TimerClearPending due base_name) [])).
  assert (Due : due <= clock s3).
  { unfold due. cbn [clock s3 s2 s1 s0 set_clock set_tasks set_pending_raw set_fs _pair_timeout].
    lia. }
  rewrite (step_run_timer_due env k due base_name s3 T3 Due).
  assert (D3 : delete k (tasks s3) = tasks s).
  { change (tasks s3) with (tasks s ++ [TimerClearPending due base_name])%list.
    unfold k. rewrite (delete_started (tasks s) _ []). apply app_nil_r. }
  rewrite D3.
  set (s3' := set_tasks (tasks s) s3).
  assert (P3 : _pending_raw s3' !! base_name = Some (raw_path, clock s0))
    by apply lookup_insert_eq.
  assert (F3 : fs s3' !! raw_path = Some content) by exact F0.
  rewrite (clear_pending_raw_retry base_name raw_path (clock s0) s3' P3
             (path_exists_file s3' _ _ F3)).
  cbn [snd].
  set (s4 := set_tasks (tasks s3' ++ [ThreadProcessRaw raw_path])
               (set_pending_raw (delete base_name (_pending_raw s3')) s3')).
  (* the second extraction *)
  assert (T4 : tasks s4 !! k = Some (ThreadProcessRaw raw_path))
    by (apply (lookup_started (tasks s) (ThreadProcessRaw raw_path) [])).
  exists s4, (set_tasks (tasks s) s4). split; [reflexivity|]. split.
  - rewrite (step_run_thread env k raw_path s4 T4).
    assert (D4 : delete k (tasks s4) = tasks s).
    { change (tasks s4) with (tasks s ++ [ThreadProcessRaw raw_path])%list.
      unfold k. rewrite (delete_started (tasks s) _ []). apply app_nil_r. }
    rewrite D4.
    apply (process_raw_file_nothing raw_path content (set_tasks (tasks s) s4) F0 Hthumb).
  - split; [reflexivity|]. split; [apply lookup_delete_eq|].
    split; [reflexivity|]. split; [reflexivity|]. split; [reflexivity|].
    split; [reflexivity|]. split; [reflexivity|]. apply lookup_delete_eq.
Qed.

(** *** The start-up load *)

(** The cache has grown at its end. *)
Definition cache_grows (s s' : State) : Prop :=
  exists added, _cache s' = (_cache s ++ added)%list.

#[local] Instance cache_grows_preorder : PreOrder cache_grows.
Proof.
  split.
  - intros s. exists []. symmetry. apply app_nil_r.
  - intros s1 s2 s3 (l1 & E1) (l2 & E2). exists (l1 ++ l2)%list.
    rewrite E2, E1, app_assoc. reflexivity.
Qed.

Lemma respects_loaded_grows (fpath fname : string) :
  respects cache_grows (_load_jpeg_to_cache env fpath fname).
Proof.
  intros s. unfold _load_jpeg_to_cache, try_pass, try_except, bind.
  destruct (getmtime env (abspath env fpath)); cbn.
  - eexists [_]. reflexivity.
  - exists []. symmetry. apply app_nil_r.
Qed.

(** X28. The start-up load of the download folder never raises and
    deletes nothing: the files are as before, no task is started and the
    preview callback is not called; images are only added at the end of
    the cache. *)
Theorem startup_load_only_appends (s : State) :
  exists s',
    cleanup_download_folder env s = (inr tt, s') /\
    fs s' = fs s /\ tasks s' = tasks s /\ shown s' = shown s /\
    _pending_raw s' = _pending_raw s /\
    exists added, _cache s' = (_cache s ++ added)%list.
Proof.
  assert (N : no_raise (cleanup_download_folder env))
    by (unfold cleanup_download_folder; apply no_raise_try_pass).
  destruct (N s) as ([] & s' & E). exists s'. split; [exact E|].
  assert (S' : s' = snd (cleanup_download_folder env s)) by (rewrite E; reflexivity).
  rewrite S'. repeat split.
  - apply (respects_cleanup_download_folder env (keeps fs)); cache_keeps_leaf.
  - apply (respects_cleanup_download_folder env (keeps tasks)); cache_keeps_leaf.
  - apply (respects_cleanup_download_folder env (keeps shown)); cache_keeps_leaf.
  - apply (respects_cleanup_download_folder env (keeps _pending_raw)); cache_keeps_leaf.
  - apply (respects_cleanup_download_folder env cache_grows); try apply _; intros;
      first [ exists []; symmetry; apply app_nil_r | apply respects_loaded_grows ].
Qed.

End Notices.

End NoticeFacts.

(** ** The manual extraction of a thumbnail *)

Module ThumbnailFacts.
Import Py PyBytes Jpeg JpegFacts ImagePreview ScanFacts.
Local Open Scope Z_scope.

(** When [find] answers an index, [sub] occurs there. *)
Lemma find_at_occurs (b sub : bytes) (i : Z) :
  find_at b sub i <> -1 ->
  i <= find_at b sub i /\ occurs_at b sub (Z.to_nat (find_at b sub i - i)).
Proof.
  revert i. induction b as [|x b IH]; intros i; cbn [find_at].
  - destruct (startswith [] sub) eqn:E; [|congruence].
    intros _. rewrite Z.sub_diag. split; [lia | exact E].
  - destruct (startswith (x :: b) sub) eqn:E.
    + intros _. rewrite Z.sub_diag. split; [lia | exact E].
    + intros N. destruct (IH (i + 1) N) as [L O]. split; [lia|].
      replace (Z.to_nat (find_at b sub (i + 1) - i))
        with (S (Z.to_nat (find_at b sub (i + 1) - (i + 1)))) by lia.
      exact O.
Qed.

Lemma find_from_occurs (data sub : bytes) (start : Z) :
  0 <= start -> find_from data sub start <> -1 ->
  start <= find_from data sub start /\
  occurs_at data sub (Z.to_nat (find_from data sub start)).
Proof.
  intros H N. unfold find_from in *.
  destruct (find_at_occurs _ _ _ N) as [L O]. split; [exact L|].
  unfold occurs_at in *. rewrite drop_drop in O.
  replace (Z.to_nat (find_at (drop (Z.to_nat start) data) sub start))
    with (Z.to_nat start + Z.to_nat (find_at (drop (Z.to_nat start) data) sub start - start))%nat
    by lia.
  exact O.
Qed.

(** A prefix test is a test on the first bytes. *)
Lemma startswith_take (b prefix : bytes) :
  startswith b prefix = true -> take (length prefix) b = prefix.
Proof.
  revert b. induction prefix as [|p prefix IH]; intros b; [reflexivity|].
  destruct b as [|x b]; cbn [startswith]; [discriminate|].
  rewrite andb_true_iff. intros [E H]. apply Byte.byte_dec_bl in E. subst x.
  cbn [length take]. rewrite (IH b H). reflexivity.
Qed.

Lemma startswith_of_take (b prefix : bytes) (n : nat) :
  startswith b prefix = true -> (length prefix <= n)%nat ->
  startswith (take n b) prefix = true.
Proof.
  revert b n. induction prefix as [|p prefix IH]; intros b n H L.
  - apply startswith_nil.
  - destruct b as [|x b]; cbn [startswith] in *; [discriminate|].
    destruct n as [|n]; [cbn in L; lia|]. cbn [take startswith].
    apply andb_true_iff in H as [E H]. rewrite E, (IH b n H); [reflexivity|].
    cbn in L. lia.
Qed.

(** What the scan keeps: a range of the data that starts at an SOI
    marker, ends with the next EOI marker and has more than 10000
    bytes. *)
Definition embedded_jpeg (data jpeg : bytes) : Prop :=
  exists soi eoi,
    0 <= soi /\ soi + 2 <= eoi /\ eoi + 2 <= len data /\
    jpeg = slice data soi (eoi + 2) /\
    occurs_at data SOI (Z.to_nat soi) /\ occurs_at data EOI (Z.to_nat eoi) /\
    10000 < len jpeg.

Lemma scan_jpegs_embedded (fuel : nat) (data : bytes) (start : Z) :
  0 <= start -> Forall (embedded_jpeg data) (scan_jpegs fuel data start).
Proof.
  revert start. induction fuel as [|fuel IH]; intros start H; cbn [scan_jpegs];
    [constructor|].
  destruct (Z.eqb_spec (find_from data SOI start) (-1)) as [E|N1]; [constructor|].
  set (soi := find_from data SOI start) in *.
  destruct (find_from_occurs data SOI start H N1) as [L1 O1]. fold soi in L1, O1.
  destruct (Z.eqb_spec (find_from data EOI (soi + 2)) (-1)) as [E|N2]; [constructor|].
  set (eoi := find_from data EOI (soi + 2)) in *.
  destruct (find_from_occurs data EOI (soi + 2) ltac:(lia) N2) as [L2 O2].
  fold eoi in L2, O2.
  pose proof (occurs_at_EOI_lt _ _ O2) as L3.
  specialize (IH (eoi + 2) ltac:(lia)).
  destruct (Z.gtb_spec (len (slice data soi (eoi + 2))) 10000) as [G|G]; [|exact IH].
  constructor; [|exact IH].
  exists soi, eoi. unfold len. repeat split; try lia; assumption.
Qed.

Lemma max_by_len_elem (best : bytes) (l : list bytes) : max_by_len best l ∈ best :: l.
Proof.
  revert best. induction l as [|x l IH]; intros best; cbn [max_by_len]; [left|].
  destruct (length best <? length x)%nat.
  - apply elem_of_cons. right. apply IH.
  - specialize (IH best). apply elem_of_cons in IH as [->|IH]; [left|].
    apply elem_of_cons. right. apply elem_of_cons. right. exact IH.
Qed.

Lemma max_by_len_longest (best : bytes) (l : list bytes) (x : bytes) :
  x ∈ best :: l -> (length x <= length (max_by_len best l))%nat.
Proof.
  revert best x. induction l as [|y l IH]; intros best x H; cbn [max_by_len].
  - apply elem_of_cons in H as [->|H]; [lia|]. inversion H.
  - destruct (Nat.ltb_spec (length best) (length y)) as [Lt|Ge].
    + apply elem_of_cons in H as [->|H]; [|apply IH; exact H].
      etransitivity; [|apply (IH y y); left]. lia.
    + apply elem_of_cons in H as [->|H]; [apply IH; left|].
      apply elem_of_cons in H as [->|H]; [|apply IH; apply elem_of_cons; right; exact H].
      etransitivity; [exact Ge | apply (IH best best); left].
Qed.

Lemma embedded_jpeg_shape (data jpeg : bytes) :
  embedded_jpeg data jpeg ->
  10000 < len jpeg /\ len jpeg <= len data /\
  startswith jpeg SOI = true /\ drop (length jpeg - 2) jpeg = EOI.
Proof.
  intros (soi & eoi & H0 & H1 & H2 & -> & O1 & O2 & G). unfold len in *.
  assert (Len : length (slice data soi (eoi + 2)) = Z.to_nat (eoi + 2 - soi)).
  { unfold slice. rewrite length_take, length_drop. lia. }
  split; [exact G|]. split; [rewrite Len; lia|]. split.
  - unfold slice. apply startswith_of_take; [exact O1 | cbn; lia].
  - rewrite Len. unfold slice.
    replace (Z.to_nat (eoi + 2) - Z.to_nat soi)%nat
      with ((Z.to_nat (eoi + 2 - soi) - 2) + length EOI)%nat by (cbn; lia).
    rewrite <- take_drop_commute, drop_drop.
    replace (Z.to_nat soi + (Z.to_nat (eoi + 2 - soi) - 2))%nat with (Z.to_nat eoi) by lia.
    apply startswith_take. exact O2.
Qed.

Lemma manual_thumbnail_embedded (data jpeg : bytes) :
  manual_thumbnail (Some data) = Some jpeg ->
  embedded_jpeg data jpeg /\
  forall other, other ∈ scan_jpegs (S (length data)) data 0 ->
                (length other <= length jpeg)%nat.
Proof.
  unfold manual_thumbnail.
  pose proof (scan_jpegs_embedded (S (length data)) data 0 ltac:(lia)) as F.
  destruct (scan_jpegs (S (length data)) data 0) as [|j jpegs]; [discriminate|].
  intros [= <-]. split.
  - rewrite Forall_forall in F. apply F. apply max_by_len_elem.
  - intros other. apply max_by_len_longest.
Qed.

(** X29. The manual extraction answers a range of the file that starts
    with the SOI marker, ends with the EOI marker and has more than 10000
    bytes, and none of the ranges the scan has kept is longer; from a
    file of 10000 bytes or less, or a file that is missing, it answers
    nothing. *)
Theorem manual_thumbnail_is_an_embedded_jpeg (data : bytes) :
  (forall jpeg,
      manual_thumbnail (Some data) = Some jpeg ->
      10000 < len jpeg /\ len jpeg <= len data /\
      startswith jpeg SOI = true /\ drop (length jpeg - 2) jpeg = EOI /\
      (exists soi eoi, 0 <= soi /\ soi + 2 <= eoi /\ eoi + 2 <= len data /\
                       jpeg = slice data soi (eoi + 2)) /\
      forall other, other ∈ scan_jpegs (S (length data)) data 0 ->
                    (length other <= length jpeg)%nat) /\
  (len data <= 10000 -> manual_thumbnail (Some data) = None) /\
  manual_thumbnail None = None.
Proof.
  split; [|split; [|reflexivity]].
  - intros jpeg H. destruct (manual_thumbnail_embedded data jpeg H) as [E M].
    destruct (embedded_jpeg_shape data jpeg E) as (S1 & S2 & S3 & S4).
    destruct E as (soi & eoi & H0 & H1 & H2 & Hj & _).
    repeat split; try assumption. exists soi, eoi. repeat split; assumption.
  - intros L. destruct (manual_thumbnail (Some data)) as [jpeg|] eqn:H; [|reflexivity].
    destruct (manual_thumbnail_embedded data jpeg H) as [E _].
    destruct (embedded_jpeg_shape data jpeg E) as (S1 & S2 & _). lia.
Qed.

End ThumbnailFacts.

(** ** The capture prefix of a file name *)

Module PathFacts.
Import PyStr.
Local Open Scope string_scope.

Lemma append_cons (c : ascii) (a b : string) : String c a ++ b = String c (a ++ b).
Proof. reflexivity. Qed.

Lemma append_nil_l (b : string) : "" ++ b = b.
Proof. reflexivity. Qed.

(** The offset of [rfind_char_at] only shifts the answer. *)
Lemma rfind_char_at_shift (s : string) (c : ascii) (i : nat) :
  rfind_char_at s c i = option_map (fun r => (r + i)%nat) (rfind_char_at s c 0).
Proof.
  revert i. induction s as [|x s IH]; intros i; cbn [rfind_char_at]; [reflexivity|].
  rewrite (IH (S i)), (IH 1%nat).
  destruct (rfind_char_at s c 0) as [r|]; cbn [option_map].
  - f_equal. lia.
  - destruct (Ascii.eqb x c); reflexivity.
Qed.

Lemma rfind_char_append (a b : string) (c : ascii) :
  rfind_char (a ++ b) c =
    match rfind_char b c with
    | Some r => Some (r + String.length a)%nat
    | None => rfind_char a c
    end.
Proof.
  unfold rfind_char. induction a as [|x a IH].
  - rewrite append_nil_l. destruct (rfind_char_at b c 0); [f_equal; cbn; lia | reflexivity].
  - rewrite append_cons. cbn [rfind_char_at String.length].
    rewrite (rfind_char_at_shift (a ++ b) c 1), (rfind_char_at_shift a c 1), IH.
    destruct (rfind_char_at b c 0) as [r|]; cbn [option_map]; [f_equal; lia|].
    destruct (rfind_char_at a c 0); reflexivity.
Qed.

(** Nothing follows the last occurrence. *)
Lemma rfind_char_after_last (s : string) (c : ascii) :
  rfind_char (drop_str (match rfind_char s c with Some r => S r | None => 0 end) s) c = None.
Proof.
  unfold rfind_char. induction s as [|x s IH]; [reflexivity|].
  cbn [rfind_char_at]. rewrite (rfind_char_at_shift s c 1).
  destruct (rfind_char_at s c 0) as [r|] eqn:E; cbn [option_map].
  - rewrite Nat.add_1_r. cbn [drop_str]. exact IH.
  - destruct (Ascii.eqb x c) eqn:X.
    + cbn [drop_str]. exact E.
    + cbn [drop_str rfind_char_at]. rewrite (rfind_char_at_shift s c 1), E, X. reflexivity.
Qed.

Lemma rfind_char_drop_str (n : nat) (s : string) (c : ascii) :
  rfind_char s c = None -> rfind_char (drop_str n s) c = None.
Proof.
  unfold rfind_char. revert s. induction n as [|n IH]; intros s H; [destruct s; exact H|].
  destruct s as [|x s]; [reflexivity|]. cbn [drop_str]. apply IH.
  cbn [rfind_char_at] in H. rewrite (rfind_char_at_shift s c 1) in H.
  destruct (rfind_char_at s c 0); [discriminate | reflexivity].
Qed.

(** A file name holds no separator. *)
Lemma basename_no_sep (p : string) : rfind_char (basename p) "/" = None.
Proof. unfold basename, after_sep. apply rfind_char_after_last. Qed.

Lemma append_assoc (a b c : string) : (a ++ b) ++ c = a ++ (b ++ c).
Proof.
  induction a as [|x a IH]; [reflexivity|]. rewrite !append_cons, IH. reflexivity.
Qed.

Lemma drop_str_append (a b : string) : drop_str (String.length a) (a ++ b) = b.
Proof. induction a as [|x a IH]; [destruct b; reflexivity | exact IH]. Qed.

Lemma length_append_sep (a : string) : String.length (a ++ "/") = S (String.length a).
Proof. induction a as [|x a IH]; [reflexivity|]. rewrite append_cons. cbn. rewrite IH. reflexivity. Qed.

Lemma string_of_list_ascii_append (a b : list ascii) :
  string_of_list_ascii (a ++ b)%list = string_of_list_ascii a ++ string_of_list_ascii b.
Proof.
  induction a as [|x a IH]; [reflexivity|]. cbn [app string_of_list_ascii].
  rewrite IH. reflexivity.
Qed.

(** A string that ends with the separator is some string and the
    separator. *)
Lemma endswith_sep (d : string) : endswith d "/" = true -> exists d', d = d' ++ "/".
Proof.
  unfold endswith, rev_string.
  change (string_of_list_ascii (rev (list_ascii_of_string "/"))) with "/".
  intros H.
  destruct (rev (list_ascii_of_string d)) as [|x t] eqn:E; [discriminate|].
  cbn [string_of_list_ascii String.prefix] in H.
  destruct (Ascii.ascii_dec "/" x) as [<-|]; [|discriminate].
  exists (string_of_list_ascii (rev t)).
  rewrite <- (string_of_list_ascii_of_string d), <- (rev_involutive (list_ascii_of_string d)), E.
  cbn [rev]. apply string_of_list_ascii_append.
Qed.

Lemma startswith_sep_no_sep (n : string) : rfind_char n "/" = None -> startswith n "/" = false.
Proof.
  unfold rfind_char, startswith. destruct n as [|x n]; [reflexivity|].
  cbn [rfind_char_at String.prefix]. destruct (rfind_char_at n "/" 1); [discriminate|].
  destruct (Ascii.ascii_dec "/" x) as [<-|]; [discriminate|]. destruct n; reflexivity.
Qed.

(** [basename] undoes [join] on a file name. *)
Lemma basename_join (d n : string) : rfind_char n "/" = None -> basename (join d n) = n.
Proof.
  intros H. unfold join. rewrite (startswith_sep_no_sep n H).
  destruct d as [|x d]; cbn [is_empty orb].
  - rewrite append_nil_l. unfold basename, after_sep. rewrite H. destruct n; reflexivity.
  - destruct (endswith (String x d) "/") eqn:E.
    + destruct (endswith_sep _ E) as (d' & ->).
      unfold basename, after_sep. rewrite rfind_char_append, H, rfind_char_append.
      change (rfind_char "/" "/") with (Some 0%nat). cbn [Nat.add].
      rewrite <- length_append_sep. apply drop_str_append.
    + unfold basename, after_sep.
      rewrite rfind_char_append, rfind_char_append, H.
      change (rfind_char "/" "/") with (Some 0%nat). cbn [Nat.add].
      rewrite <- length_append_sep, <- append_assoc. apply drop_str_append.
Qed.

End PathFacts.

Module PrefixFacts.
Import Py PyFacts PyBytes PyStr ImagePreview PairingFacts PathFacts.
Local Open Scope string_scope.
Local Open Scope Z_scope.
Local Open Scope py_scope.

Section Prefix.
Variable env : Env.

(** X30. The capture prefix is stripped before anything else: a notice
    for [capt_NAME] renames the file to [NAME] in its directory and goes on
    exactly as a notice for [NAME] would. *)
Theorem capture_prefix_is_stripped
    (fpath filetype : string) (content : bytes) (s : State) :
  fs s !! fpath = Some content ->
  startswith (lower (basename fpath)) "capt_" = true ->
  startswith (lower (drop_str 5 (basename fpath))) "capt_" = false ->
  io_fails env (OpRename fpath (join (dirname fpath) (drop_str 5 (basename fpath)))) = None ->
  process_downloaded_file env fpath filetype s =
    process_downloaded_file env (join (dirname fpath) (drop_str 5 (basename fpath))) filetype
      (set_fs (<[join (dirname fpath) (drop_str 5 (basename fpath)) := content]>
                 (delete fpath (fs s))) s).
Proof.
  intros Hfs Hcapt Hplain Hio.
  set (new_name := drop_str 5 (basename fpath)) in *.
  set (new_path := join (dirname fpath) new_name) in *.
  set (s1 := set_fs (<[new_path := content]> (delete fpath (fs s))) s).
  assert (B : basename new_path = new_name).
  { apply basename_join. apply rfind_char_drop_str, basename_no_sep. }
  assert (F1 : fs s1 !! new_path = Some content) by apply lookup_insert_eq.
  symmetry. unfold process_downloaded_file at 1. unfold bind at 1, get at 1.
  rewrite (path_exists_file s1 new_path content F1). cbn [negb].
  rewrite B, Hplain. unfold bind at 1, ret at 1. cbn [fst snd].
  symmetry. unfold process_downloaded_file at 1. unfold bind at 1, get at 1.
  rewrite (path_exists_file s fpath content Hfs). cbn [negb].
  rewrite Hcapt. fold new_name. fold new_path.
  assert (Rn : try_except (rename env fpath new_path ;;; ret (new_path, new_name))
                 (fun _ => ret (fpath, basename fpath)) s
               = (inr (new_path, new_name), s1)).
  { unfold rename. rewrite Hio. unfold try_except, bind, get, modify, ret. rewrite Hfs.
    reflexivity. }
  rewrite (bind_run _ _ _ _ _ Rn). cbn [fst snd]. reflexivity.
Qed.

End Prefix.

End PrefixFacts.

(** ** The preview manager on concrete inputs, continued *)

Module ManagerExamples.
Import Py PyBytes PyStr Jpeg ImagePreview CacheFacts CacheExamples PairingFacts PairingExamples.
Import CursorFacts ManagerFacts NoticeFacts ThumbnailFacts PrefixFacts.
Local Open Scope string_scope.
Local Open Scope Z_scope.

(** The three-image cache seen from the live view. *)
Definition live_three : State := snd (reset_to_live_view three).

Lemma three_cursor_ok : cursor_ok three.
Proof. unfold cursor_ok, len_cache. cbn. lia. Qed.

Lemma three_not_empty : _cache three <> [].
Proof. discriminate. Qed.

Lemma navigation_lands_on_an_entry_witness :
  (exists e,
      navigate_next three = (inr (Some e), set_current_index (next_index three) three) /\
      _cache three !! Z.to_nat (next_index three) = Some e /\
      0 <= next_index three < len_cache three) /\
  (exists e,
      navigate_previous three
        = (inr (Some e), set_current_index (previous_index three) three) /\
      _cache three !! Z.to_nat (previous_index three) = Some e /\
      0 <= previous_index three < len_cache three) /\
  (exists e,
      get_latest_preview three = (inr (Some e), set_current_index (len_cache three - 1) three) /\
      last (_cache three) = Some e).
Proof. apply (navigation_lands_on_an_entry three three_cursor_ok three_not_empty). Defined.

Lemma live_three_cursor : _current_index live_three = -1.
Proof. reflexivity. Qed.

Lemma live_three_oldest : head (_cache live_three) = Some (img 0).
Proof. reflexivity. Qed.

Lemma live_three_newest : last (_cache live_three) = Some (img 2).
Proof. reflexivity. Qed.

Lemma navigation_from_live_view_witness :
  navigate_next live_three = (inr (Some (img 0)), set_current_index 0 live_three) /\
  navigate_previous live_three
    = (inr (Some (img 2)), set_current_index (len_cache live_three - 1) live_three) /\
  (forall c,
      reset_to_live_view (set_current_index c live_three) = (inr tt, live_three) /\
      get_current_preview live_three = (inr None, live_three)).
Proof.
  apply (navigation_from_live_view live_three (img 0) (img 2)
           live_three_cursor live_three_oldest live_three_newest).
Defined.

Lemma three_bound : 1 <= max_cache_size three.
Proof. cbn. lia. Qed.

Lemma cached_image_is_current_witness :
  exists s',
    _replace_or_add_cached (img 5) three = (inr tt, s') /\
    get_current_preview s' = (inr (Some (img 5)), s') /\
    get_cache_info s' = (_current_index s' + 1, len_cache s') /\
    1 <= _current_index s' + 1 <= len_cache s'.
Proof. apply (cached_image_is_current (img 5) three three_bound). Defined.

Lemma three_no_raw_entry : no_raw_entry three.
Proof. repeat constructor. Qed.

Lemma cache_holds_no_raw_entry_witness :
  no_raw_entry (run_events env_ok [raw_notice_01; Run 0; jpeg_notice_01] three) /\
  no_raw_entry
    (snd (cleanup_download_folder env_ok
            (run_events env_ok [raw_notice_01; Run 0; jpeg_notice_01] three))).
Proof.
  apply (cache_holds_no_raw_entry env_ok three [raw_notice_01; Run 0; jpeg_notice_01]
           three_no_raw_entry).
Defined.

(** The RAW file and its JPEG sibling both on disk. *)
Definition both_on_disk : State :=
  fresh (<[raw_01 := raw_file]> (<[jpeg_01 := jpeg_file]> ∅)).

Lemma both_raw : fs both_on_disk !! raw_01 = Some raw_file.
Proof. apply lookup_insert_eq. Qed.

Lemma both_sibling : _find_jpeg_pair both_on_disk raw_01 = Some jpeg_01.
Proof. vm_compute. reflexivity. Qed.

Lemma both_not_normalized :
  raw_01 <> normalized_path env_ok both_on_disk (fst (splitext (basename jpeg_01))).
Proof. vm_compute. discriminate. Qed.

Lemma raw_with_sibling_on_disk_witness :
  exists s',
    process_downloaded_file env_ok raw_01 "arw" both_on_disk = (inr tt, s') /\
    s' = snd (_safe_delete env_ok raw_01 (snd (_process_jpeg_file env_ok jpeg_01 both_on_disk))) /\
    fs s' !! raw_01 = None /\
    tasks s' = tasks both_on_disk /\ _pending_raw s' = _pending_raw both_on_disk.
Proof.
  apply (raw_with_sibling_on_disk env_ok raw_01 "arw" jpeg_01 raw_file both_on_disk
           both_raw raw_01_no_prefix raw_01_is_raw both_sibling eq_refl both_not_normalized).
Defined.

(** The sibling is what ends in the cache. *)
Example sibling_is_cached :
  _cache (snd (process_downloaded_file env_ok raw_01 "arw" both_on_disk))
  = [mkCachedImage "/dl/IMG_01.jpg" "IMG_01.jpg" 0 false].
Proof. vm_compute. reflexivity. Qed.

(** The two extensions met in the other order. *)
Lemma jpeg_extensions_swapped : Permutation [".jpeg"; ".jpg"] JPEG_EXTENSIONS.
Proof. apply perm_swap. Qed.

Lemma find_jpeg_pair_in_any_order_witness :
  (find_pair_in both_on_disk (dirname raw_01) (fst (splitext (basename raw_01)))
     [".jpeg"; ".jpg"] = None <->
   forall p, p ∈ sibling_candidates raw_01 -> path_exists both_on_disk p = false) /\
  (forall p,
      find_pair_in both_on_disk (dirname raw_01) (fst (splitext (basename raw_01)))
        [".jpeg"; ".jpg"] = Some p ->
      p ∈ sibling_candidates raw_01 /\ path_exists both_on_disk p = true) /\
  (find_pair_in both_on_disk (dirname raw_01) (fst (splitext (basename raw_01)))
     [".jpeg"; ".jpg"] = None <->
   _find_jpeg_pair both_on_disk raw_01 = None).
Proof.
  apply (find_jpeg_pair_in_any_order both_on_disk raw_01 [".jpeg"; ".jpg"]
           jpeg_extensions_swapped).
Defined.

(** A platform without rawpy, and a RAW file that embeds no JPEG. *)
Definition env_plain : Env :=
  mkEnv true false (fun p => p) (fun _ => Returns 0) (fun _ => None)
    (fun content => Returns (PilImg (length content)))
    (fun _ => Returns None)
    (fun img _ => Returns img) (fun img _ => Returns img)
    (fun img => match img with PilImg n => Returns (repeat x4a n) end)
    (fun _ => Raises (mkExc "rawpy is not installed" None))
    (fun _ => Returns []).

Definition bare_raw : bytes := [x49; x49; x2a; x00; x08; x00].

Lemma bare_raw_no_sibling :
  _find_jpeg_pair (set_fs (<[raw_01 := bare_raw]> (fs (fresh ∅))) (fresh ∅)) raw_01 = None.
Proof. vm_compute. reflexivity. Qed.

Lemma bare_raw_no_thumbnail : thumbnail_of env_plain (Some bare_raw) = None.
Proof. reflexivity. Qed.

Lemma unextractable_raw_is_retried_once_witness :
  exists s4 s5,
    run_events env_plain [Download raw_01 bare_raw "arw"; Run (length (tasks (fresh ∅)));
                          Wait 2000; Run (length (tasks (fresh ∅)))] (fresh ∅) = s4 /\
    step env_plain (Run (length (tasks (fresh ∅)))) s4 = (inr tt, s5) /\
    tasks s4 = (tasks (fresh ∅) ++ [ThreadProcessRaw raw_01])%list /\
    _pending_raw s4 !! fst (splitext (basename raw_01)) = None /\
    tasks s5 = tasks (fresh ∅) /\
    fs s5 = <[raw_01 := bare_raw]> (fs (fresh ∅)) /\
    _cache s5 = _cache (fresh ∅) /\ _current_index s5 = _current_index (fresh ∅) /\
    shown s5 = shown (fresh ∅) /\
    _pending_raw s5 !! fst (splitext (basename raw_01)) = None.
Proof.
  apply (unextractable_raw_is_retried_once env_plain raw_01 "arw" bare_raw 2000 (fresh ∅)
           raw_01_no_prefix raw_01_is_raw bare_raw_no_sibling bare_raw_no_thumbnail
           (proj2 fresh_timeout)).
Defined.

(** A file the camera has named with the capture prefix. *)
Definition capt_07 : string := "/dl/capt_0007.JPG".

Definition prefixed : State := fresh (<[capt_07 := jpeg_file]> ∅).

Lemma capt_07_file : fs prefixed !! capt_07 = Some jpeg_file.
Proof. apply lookup_insert_eq. Qed.

Lemma capt_07_prefix : startswith (lower (basename capt_07)) "capt_" = true.
Proof. reflexivity. Qed.

Lemma capt_07_plain : startswith (lower (drop_str 5 (basename capt_07))) "capt_" = false.
Proof. reflexivity. Qed.

Lemma capture_prefix_is_stripped_witness :
  process_downloaded_file env_ok capt_07 "jpg" prefixed =
    process_downloaded_file env_ok (join (dirname capt_07) (drop_str 5 (basename capt_07))) "jpg"
      (set_fs (<[join (dirname capt_07) (drop_str 5 (basename capt_07)) := jpeg_file]>
                 (delete capt_07 (fs prefixed))) prefixed).
Proof.
  apply (capture_prefix_is_stripped env_ok capt_07 "jpg" jpeg_file prefixed
           capt_07_file capt_07_prefix capt_07_plain eq_refl).
Defined.

Example prefix_stripped_entry :
  _cache (snd (process_downloaded_file env_ok capt_07 "jpg" prefixed))
  = [mkCachedImage "/dl/0007.jpg" "0007.jpg" 0 false] /\
  map_to_list (fs (snd (process_downloaded_file env_ok capt_07 "jpg" prefixed)))
  = [("/dl/0007.jpg", repeat x4a 7); ("/dl/0007.JPG", jpeg_file)].
Proof. vm_compute. split; reflexivity. Qed.

(** A RAW file that embeds a JPEG of 10004 bytes after a header of 8. *)
Definition embedded : bytes := (SOI ++ repeat x11 (Z.to_nat 10000) ++ EOI)%list.
Definition large_raw : bytes := (repeat x00 8 ++ embedded ++ [x00; x00])%list.

Example manual_thumbnail_large_raw : manual_thumbnail (Some large_raw) = Some embedded.
Proof. vm_compute. reflexivity. Qed.

End ManagerExamples.
